(** * GOSTnets: a shallow embedding of [core.py] and [osm_parser.py]

    The development follows the two Python modules of the repository.
    Python dictionaries are insertion-ordered association lists,
    exceptions are the [Raise] branch of a result monad, and a networkx
    [MultiDiGraph] is the nested dictionary [_adj[u][v][key] = data] that
    networkx itself keeps.

    Numbers come in two embeddings. Where a property is one of the
    structure of a computation (which edges are kept, which cell a cost
    is written to, which path is the cheapest), numbers are exact
    rationals, and the statements keep to inputs on which the program's
    arithmetic is exact, or do not depend on the arithmetic. Where a
    property is one of the number computed, as for the travel times of
    [convert_network_to_time], numbers are Python's own: unbounded
    integers and IEEE 754 doubles (modules [py] and [pycore]). *)

From Stdlib Require Import Lqa.
From Stdlib Require Import String DecimalString ZArith QArith Qround Lia Bool Arith List.
From Stdlib Require Import Floats.
From Equations Require Import Equations.
Import ListNotations.

Close Scope Q_scope.
Open Scope string_scope.
Open Scope list_scope.
Open Scope nat_scope.

(** ** Exceptions and the result monad *)

Inductive exn : Type :=
| ValueError (msg : string)
| KeyError
| IndexError
| TypeError
| AttributeError
| ZeroDivisionError
| NameError (name : string)
| OverflowError
| MemoryError
| RuntimeError (msg : string)
| NodeNotFound
| NetworkXNoPath
| NetworkXError.

Inductive result (A : Type) : Type :=
| Ok (a : A)
| Raise (e : exn).

Arguments Ok {A} a.
Arguments Raise {A} e.

Definition bind {A B : Type} (m : result A) (f : A -> result B) : result B :=
  match m with
  | Ok a => f a
  | Raise e => Raise e
  end.

Notation "x <- m ;; k" := (bind m (fun x => k))
  (at level 61, m at next level, right associativity).
Notation "' pat <- m ;; k" := (bind m (fun x => match x with pat => k end))
  (at level 61, pat pattern, m at next level, right associativity).

Fixpoint mapM {A B : Type} (f : A -> result B) (l : list A) : result (list B) :=
  match l with
  | [] => Ok []
  | a :: l' => b <- f a ;; bs <- mapM f l' ;; Ok (b :: bs)
  end.

Fixpoint foldM {A S : Type} (f : S -> A -> result S) (l : list A) (s : S) : result S :=
  match l with
  | [] => Ok s
  | a :: l' => s' <- f s a ;; foldM f l' s'
  end.

Definition of_option {A : Type} (e : exn) (o : option A) : result A :=
  match o with
  | Some a => Ok a
  | None => Raise e
  end.

(** ** Decidable equality on dictionary keys *)

Class EqDec (A : Type) : Type :=
  eq_dec : forall x y : A, {x = y} + {x <> y}.

#[export] Instance Z_EqDec : EqDec Z := Z.eq_dec.
#[export] Instance nat_EqDec : EqDec nat := Nat.eq_dec.
#[export] Instance string_EqDec : EqDec string := string_dec.

#[export] Instance prod_EqDec {A B : Type} `{EqDec A} `{EqDec B} : EqDec (A * B).
Proof.
  intros [a b] [a' b'].
  destruct (eq_dec a a') as [-> | Ha]; [ | right; congruence ].
  destruct (eq_dec b b') as [-> | Hb]; [ left; reflexivity | right; congruence ].
Defined.

#[export] Instance list_EqDec {A : Type} `{EqDec A} : EqDec (list A).
Proof.
  intros l l'. apply list_eq_dec. exact eq_dec.
Defined.

Definition eqb {A : Type} `{EqDec A} (x y : A) : bool :=
  if eq_dec x y then true else false.

(** [x in l] for a Python list. *)
Definition list_mem {A : Type} `{EqDec A} (x : A) (l : list A) : bool :=
  existsb (eqb x) l.

(** ** Python dictionaries: insertion-ordered association lists *)

Section Dict.
Context {K V : Type} `{EqDec K}.

Definition dict : Type := list (K * V).

Fixpoint dict_get (k : K) (d : dict) : option V :=
  match d with
  | [] => None
  | (k', v) :: d' => if eq_dec k k' then Some v else dict_get k d'
  end.

(** [k in d] *)
Definition dict_mem (k : K) (d : dict) : bool :=
  match dict_get k d with
  | Some _ => true
  | None => false
  end.

(** [d[k]], which raises [KeyError] on a missing key *)
Definition getitem (d : dict) (k : K) : result V :=
  of_option KeyError (dict_get k d).

(** [d[k] = v]: an existing key keeps its position, a new one goes last *)
Fixpoint dict_set (k : K) (v : V) (d : dict) : dict :=
  match d with
  | [] => [(k, v)]
  | (k', v') :: d' =>
      if eq_dec k k' then (k', v) :: d' else (k', v') :: dict_set k v d'
  end.

Fixpoint dict_remove (k : K) (d : dict) : dict :=
  match d with
  | [] => []
  | (k', v') :: d' =>
      if eq_dec k k' then d' else (k', v') :: dict_remove k d'
  end.

(** [del d[k]] *)
Definition delitem (d : dict) (k : K) : result dict :=
  if dict_mem k d then Ok (dict_remove k d) else Raise KeyError.

Definition dict_keys (d : dict) : list K := map fst d.
Definition dict_values (d : dict) : list V := map snd d.

(** [d.popitem()]: removes the entry inserted last *)
Definition popitem (d : dict) : result dict :=
  match d with
  | [] => Raise KeyError
  | _ => Ok (removelast d)
  end.
End Dict.

Arguments dict K V : clear implicits.

(** A traversal that rewrites every value in place, in iteration order,
    and stops at the first exception. *)
Definition dict_mapM {K V W : Type} (f : K -> V -> result W) (d : dict K V)
  : result (dict K W) :=
  mapM (fun kv => w <- f (fst kv) (snd kv) ;; Ok (fst kv, w)) d.

(** ** Attribute values *)

#[warnings="-register-all"]
Inductive value : Type :=
| VNone
| VBool (b : bool)
| VNum (q : Q)
| VStr (s : string)
| VList (l : list value).

(** Keys of an attribute dictionary are strings, or integers such as an
    isochrone threshold. *)
Inductive key : Type :=
| KStr (s : string)
| KInt (z : Z).

Coercion KStr : string >-> key.

#[export] Instance key_EqDec : EqDec key.
Proof.
  intros [s | z] [s' | z'];
    try (right; discriminate).
  - destruct (string_dec s s') as [-> | Hs]; [ left; reflexivity | right; congruence ].
  - destruct (Z.eq_dec z z') as [-> | Hz]; [ left; reflexivity | right; congruence ].
Defined.

Definition attrs : Type := dict key value.

(** Arithmetic on a value: a number, or a [TypeError]. *)
Definition as_number (v : value) : result Q :=
  match v with
  | VNum q => Ok q
  | VBool true => Ok 1%Q
  | VBool false => Ok 0%Q
  | _ => Raise TypeError
  end.

(** True division [x / y] *)
Definition truediv (x y : Q) : result Q :=
  if Qeq_bool y 0 then Raise ZeroDivisionError else Ok (x / y)%Q.

(** ** networkx: the directed multigraph *)

Definition node : Type := Z.

Record MultiDiGraph : Type := {
  _node : dict node attrs;
  _adj : dict node (dict node (dict Z attrs))
}.

Definition edge : Type := node * node * Z * attrs.

Definition edge_u (e : edge) : node := fst (fst (fst e)).
Definition edge_v (e : edge) : node := snd (fst (fst e)).
Definition edge_key (e : edge) : Z := snd (fst e).
Definition edge_data (e : edge) : attrs := snd e.

(** [G.nodes(data = True)] *)
Definition nodes (G : MultiDiGraph) : list (node * attrs) := _node G.

(** [G.edges(keys = True, data = True)], in networkx's iteration order *)
Definition edges (G : MultiDiGraph) : list edge :=
  flat_map (fun un =>
    flat_map (fun vk =>
      map (fun kd => (fst un, fst vk, fst kd, snd kd)) (snd vk)) (snd un))
    (_adj G).

(** A loop [for u, v, data in G.edges(data = True)] whose body rewrites
    [data]; the exception of the first failing edge ends it. *)
Definition map_edge_data (f : node -> node -> attrs -> result attrs)
  (G : MultiDiGraph) : result MultiDiGraph :=
  adj <- dict_mapM (fun u nbrs =>
           dict_mapM (fun v keydict =>
             dict_mapM (fun _ data => f u v data) keydict) nbrs) (_adj G) ;;
  Ok {| _node := _node G; _adj := adj |}.

(** What a caller may pass where a graph is expected. A [DiGraph] is kept
    in the same record, every node pair holding the single key [0]. *)
Inductive graph_arg : Type :=
| MultiDiGraphObj (G : MultiDiGraph)
| DiGraphObj (G : MultiDiGraph)
| OtherObj.

(** [G.number_of_edges(u, v)]: a missing pair counts as no edge *)
Definition number_of_edges_between (G : MultiDiGraph) (u v : node) : nat :=
  match dict_get u (_adj G) with
  | Some nbrs =>
      match dict_get v nbrs with
      | Some keydict => length keydict
      | None => 0
      end
  | None => 0
  end.

(** [G.edges[u, v, k]] *)
Definition edge_item (G : MultiDiGraph) (u v : node) (k : Z) : result attrs :=
  nbrs <- getitem (_adj G) u ;;
  keydict <- getitem nbrs v ;;
  getitem keydict k.

(** [d.update(other)] *)
Definition dict_update {K V : Type} `{EqDec K} (d other : dict K V) : dict K V :=
  fold_left (fun acc kv => dict_set (fst kv) (snd kv) acc) other d.

(** The node-adding part of [add_edge]. *)
Definition ensure_node (G : MultiDiGraph) (u : node) : MultiDiGraph :=
  if dict_mem u (_adj G) then G
  else {| _node := dict_set u [] (_node G); _adj := dict_set u [] (_adj G) |}.

(** The loop [while key in keydict: key += 1] of [new_edge_key]; one of
    [length keydict + 1] consecutive candidates is free. *)
Fixpoint first_free_key (fuel : nat) (k : Z) (keydict : dict Z attrs) : Z :=
  match fuel with
  | 0 => k
  | S fuel' =>
      if dict_mem k keydict then first_free_key fuel' (k + 1)%Z keydict else k
  end.

Definition new_edge_key (G : MultiDiGraph) (u v : node) : Z :=
  match dict_get u (_adj G) with
  | Some nbrs =>
      match dict_get v nbrs with
      | Some keydict =>
          first_free_key (S (length keydict)) (Z.of_nat (length keydict)) keydict
      | None => 0%Z
      end
  | None => 0%Z
  end.

(** [G.add_edge(u, v, **attr)] with no key given *)
Definition add_edge (G : MultiDiGraph) (u v : node) (attr : attrs) : MultiDiGraph :=
  let G := ensure_node (ensure_node G u) v in
  let k := new_edge_key G u v in
  let nbrs := match dict_get u (_adj G) with Some nbrs => nbrs | None => [] end in
  let keydict :=
    match dict_get v nbrs with
    | Some keydict =>
        let datadict := match dict_get k keydict with Some d => d | None => [] end in
        dict_set k (dict_update datadict attr) keydict
    | None => [(k, dict_update [] attr)]
    end in
  {| _node := _node G; _adj := dict_set u (dict_set v keydict nbrs) (_adj G) |}.

(** [G.add_edges_from(ebunch)] for triples [(u, v, data)] *)
Definition add_edges_from (G : MultiDiGraph) (ebunch : list (node * node * attrs))
  : MultiDiGraph :=
  fold_left (fun G e => add_edge G (fst (fst e)) (snd (fst e)) (snd e)) ebunch G.

(** [G.remove_edge(u, v)] with no key given: the edge added last goes, and
    the pair with it once no edge is left *)
Definition remove_edge (G : MultiDiGraph) (u v : node) : result MultiDiGraph :=
  match dict_get u (_adj G) with
  | None => Raise NetworkXError
  | Some nbrs =>
      match dict_get v nbrs with
      | None => Raise NetworkXError
      | Some keydict =>
          keydict <- popitem keydict ;;
          let nbrs :=
            match keydict with
            | [] => dict_remove v nbrs
            | _ => dict_set v keydict nbrs
            end in
          Ok {| _node := _node G; _adj := dict_set u nbrs (_adj G) |}
      end
  end.

(** [G.subgraph(ns).copy()] *)
Definition subgraph (G : MultiDiGraph) (ns : list node) : MultiDiGraph :=
  {| _node := filter (fun n => list_mem (fst n) ns) (_node G);
     _adj := map (fun un => (fst un, filter (fun vk => list_mem (fst vk) ns) (snd un)))
               (filter (fun un => list_mem (fst un) ns) (_adj G)) |}.

(** *** Shortest paths (networkx.algorithms.shortest_paths.weighted) *)

Definition Qltb (x y : Q) : bool := negb (Qle_bool y x).

(** The weight of a node pair in a multigraph:
    [min(attr.get(weight, 1) for attr in d.values())]. *)
Definition weight_function (weight : key) (keydict : dict Z attrs) : result Q :=
  ws <- mapM (fun attr =>
                match dict_get weight attr with
                | Some w => as_number w
                | None => Ok 1%Q
                end) (dict_values keydict) ;;
  match ws with
  | [] => Raise (ValueError "min() arg is an empty sequence")
  | w :: ws' => Ok (fold_left (fun m x => if Qltb x m then x else m) ws' w)
  end.

(** An entry [(d, next(c), v)] of the heap. *)
Definition entry : Type := Q * nat * node.

Definition entry_ltb (a b : entry) : bool :=
  Qltb (fst (fst a)) (fst (fst b))
  || (Qeq_bool (fst (fst a)) (fst (fst b)) && (snd (fst a) <? snd (fst b))).

Fixpoint min_entry (e : entry) (l : list entry) : entry :=
  match l with
  | [] => e
  | x :: l' => min_entry (if entry_ltb x e then x else e) l'
  end.

Fixpoint remove_entry (c : nat) (l : list entry) : list entry :=
  match l with
  | [] => []
  | x :: l' => if snd (fst x) =? c then l' else x :: remove_entry c l'
  end.

(** The search state besides [dist]: [seen], the counter [c] and the heap. *)
Definition frontier : Type := dict node Q * nat * list entry.

(** One turn of [for u, e in G_succ[v].items()]. *)
Definition relax (weight : key) (cutoff : option Q) (dist : dict node Q) (dv : Q)
  (st : frontier) (ue : node * dict Z attrs) : result frontier :=
  let '(seen, c, fringe) := st in
  let u := fst ue in
  cost <- weight_function weight (snd ue) ;;
  let vu_dist := (dv + cost)%Q in
  if match cutoff with Some r => Qltb r vu_dist | None => false end then Ok st
  else
    match dict_get u dist with
    | Some u_dist =>
        if Qltb vu_dist u_dist
        then Raise (ValueError "Contradictory paths found: negative weights?")
        else Ok st
    | None =>
        if match dict_get u seen with
           | Some s => Qltb vu_dist s
           | None => true
           end
        then Ok (dict_set u vu_dist seen, S c, (vu_dist, c, u) :: fringe)
        else Ok st
    end.

(** [while fringe:] of [_dijkstra_multisource]. Every turn pops one entry,
    and a node pushes its successors once, so the turns are bounded by the
    number of adjacency entries; [fuel] counts them. *)
Fixpoint dijkstra_loop (fuel : nat) (G : MultiDiGraph) (weight : key)
  (cutoff : option Q) (target : option node)
  (dist : dict node Q) (st : frontier) : result (dict node Q) :=
  let '(seen, c, fringe) := st in
  match fringe with
  | [] => Ok dist
  | e :: rest =>
      match fuel with
      | 0 => Raise (RuntimeError "out of fuel")
      | S fuel' =>
          let m := min_entry e rest in
          let d := fst (fst m) in
          let v := snd m in
          let fringe := remove_entry (snd (fst m)) fringe in
          if dict_mem v dist
          then dijkstra_loop fuel' G weight cutoff target dist (seen, c, fringe)
          else
            let dist := dict_set v d dist in
            if match target with Some t => eqb v t | None => false end
            then Ok dist
            else
              succ <- getitem (_adj G) v ;;
              st <- foldM (relax weight cutoff dist d) succ (seen, c, fringe) ;;
              dijkstra_loop fuel' G weight cutoff target dist st
      end
  end.

Definition dijkstra_fuel (G : MultiDiGraph) : nat :=
  S (S (list_sum (map (fun un => length (snd un)) (_adj G)))).

(** [_dijkstra_multisource] from the single source [source]. *)
Definition dijkstra (G : MultiDiGraph) (source : node) (weight : key)
  (cutoff : option Q) (target : option node) : result (dict node Q) :=
  if dict_mem source (_node G)
  then dijkstra_loop (dijkstra_fuel G) G weight cutoff target []
         ([(source, 0%Q)], 1, [(0%Q, 0, source)])
  else Raise NodeNotFound.

(** [nx.single_source_dijkstra_path_length(G, source, cutoff, weight)] *)
Definition single_source_dijkstra_path_length (G : MultiDiGraph) (source : node)
  (cutoff : option Q) (weight : key) : result (dict node Q) :=
  dijkstra G source weight cutoff None.

(** [nx.dijkstra_path_length(G, source, target, weight)] *)
Definition dijkstra_path_length (G : MultiDiGraph) (source target : node)
  (weight : key) : result Q :=
  if eqb source target then Ok 0%Q
  else
    length <- dijkstra G source weight None (Some target) ;;
    of_option NetworkXNoPath (dict_get target length).

(** [nx.ego_graph(G, n, radius, distance = weight)] *)
Definition ego_graph (G : MultiDiGraph) (n : node) (radius : Q) (distance : key)
  : result MultiDiGraph :=
  sp <- single_source_dijkstra_path_length G n (Some radius) distance ;;
  Ok (subgraph G (dict_keys sp)).

(** ** numpy: two-dimensional arrays *)

Record ndarray : Type := {
  shape : nat * nat;
  rows : list (list Q)
}.

(** [a[i][j]] *)
Definition np_get (a : ndarray) (i j : nat) : result Q :=
  row <- of_option IndexError (nth_error (rows a) i) ;;
  of_option IndexError (nth_error row j).

(** [np.transpose(a)] *)
Definition np_transpose (a : ndarray) : ndarray :=
  {| shape := (snd (shape a), fst (shape a));
     rows := map (fun j => map (fun row => nth j row 0%Q) (rows a))
               (seq 0 (snd (shape a))) |}.

(** [a.max()], an error on an array without elements *)
Definition np_max (a : ndarray) : result Q :=
  match concat (rows a) with
  | [] => Raise (ValueError "zero-size array to reduction operation maximum")
  | x :: xs => Ok (fold_left (fun m y => if Qltb m y then y else m) xs x)
  end.

(** ** Graph objects

    A graph handed to a function is a reference into the store of graph
    objects; [G.copy()] allocates a new object, and a loop that assigns
    into [data] writes into the object the loop iterates over. *)

Definition ref : Type := nat.
Definition store : Type := list MultiDiGraph.

Definition deref (r : ref) (st : store) : result MultiDiGraph :=
  of_option (RuntimeError "dangling reference") (nth_error st r).

Fixpoint store_set (r : ref) (g : MultiDiGraph) (st : store) : store :=
  match st, r with
  | [], _ => []
  | _ :: st', 0 => g :: st'
  | g0 :: st', S r' => g0 :: store_set r' g st'
  end.

(** [G.copy()] *)
Definition copy (G : ref) (st : store) : result (ref * store) :=
  g <- deref G st ;;
  Ok (length st, st ++ [g]).

(** Python's [max] and [min] of a list of numbers. *)
Definition py_max (l : list Q) : result Q :=
  match l with
  | [] => Raise (ValueError "max() arg is an empty sequence")
  | x :: xs => Ok (fold_left (fun m y => if Qltb m y then y else m) xs x)
  end.

Definition py_min (l : list Q) : result Q :=
  match l with
  | [] => Raise (ValueError "min() arg is an empty sequence")
  | x :: xs => Ok (fold_left (fun m y => if Qltb y m then y else m) xs x)
  end.

(** [v == True] and [v == False] *)
Definition py_eq_bool (v : value) (b : bool) : bool :=
  match v with
  | VBool b' => Bool.eqb b' b
  | VNum q => Qeq_bool q (if b then 1 else 0)%Q
  | _ => false
  end.

(** [x == y] on attribute values: numbers and booleans compare as
    numbers, lists element by element. *)
Fixpoint py_eq (x y : value) : bool :=
  match x, y with
  | VNone, VNone => true
  | VStr s, VStr s' => String.eqb s s'
  | VList l, VList l' =>
      (fix eq_list (l l' : list value) : bool :=
         match l, l' with
         | [], [] => true
         | a :: l, b :: l' => py_eq a b && eq_list l l'
         | _, _ => false
         end) l l'
  | VBool b, VBool b' => Bool.eqb b b'
  | VBool b, VNum q | VNum q, VBool b => Qeq_bool q (if b then 1 else 0)%Q
  | VNum q, VNum q' => Qeq_bool q q'
  | _, _ => false
  end.

(** [hash(x)] succeeds: a list is unhashable. *)
Definition py_hashable (x : value) : bool :=
  match x with
  | VList _ => false
  | _ => true
  end.

(** A dictionary whose keys are attribute values: keys that compare equal
    are one key. *)
Fixpoint vdict_get (k : value) (d : list (value * Q)) : option Q :=
  match d with
  | [] => None
  | (k', v) :: d' => if py_eq k k' then Some v else vdict_get k d'
  end.

Fixpoint vdict_set (k : value) (v : Q) (d : list (value * Q)) : list (value * Q) :=
  match d with
  | [] => [(k, v)]
  | (k', v') :: d' =>
      if py_eq k k' then (k', v) :: d' else (k', v') :: vdict_set k v d'
  end.

(** ** core.py *)

Module core.

(** Names bound at module level of core.py: the imports of lines 1-15 and
    the functions the module defines. *)
Definition module_globals : list string :=
  [ "os"; "sys"; "logging"; "warnings"; "time"; "pyproj"; "nx"; "ox"; "pd";
    "gpd"; "np"; "spatial"; "partial"; "loads"; "Point"; "LineString";
    "MultiLineString"; "box"; "linemerge"; "unary_union"; "transform";
    "Counter";
    "combo_csv_to_graph"; "edges_and_nodes_csv_to_graph";
    "node_gdf_from_graph"; "edge_gdf_from_graph";
    "graph_nodes_intersecting_polygon"; "graph_edges_intersecting_polygon";
    "sample_raster"; "generate_isochrones"; "make_iso_polys";
    "find_hwy_distances_by_class"; "find_graph_avg_speed";
    "convert_network_to_time"; "example_edge"; "example_node";
    "calculate_OD"; "disrupt_network"; "randomly_disrupt_network";
    "gravity_demand"; "unbundle_geometry"; "save";
    "add_missing_reflected_edges"; "remove_duplicate_edges";
    "convert_to_MultiDiGraph"; "simplify_junctions"; "custom_simplify";
    "salt_long_lines"; "pandana_snap"; "pandana_snap_points";
    "join_networks"; "clip"; "new_edge_generator"; "reproject_graph";
    "euclidean_distance" ].

(** Evaluating a global name inside a function of core.py. *)
Definition load_global (name : string) : result unit :=
  if list_mem name module_globals then Ok tt else Raise (NameError name).

Definition default_speed_dict : dict string Q :=
  [ ("residential", 20%Q); ("primary", 40%Q); ("primary_link", 35%Q);
    ("motorway", 50%Q); ("motorway_link", 45%Q); ("trunk", 40%Q);
    ("trunk_link", 35%Q); ("secondary", 30%Q); ("secondary_link", 25%Q);
    ("tertiary", 30%Q); ("tertiary_link", 25%Q); ("unclassified", 20%Q) ].

(** [highwayclass in speed_dict.keys()] followed by [speed_dict[highwayclass]]:
    a string is looked up, another hashable value is no key of the table,
    a list is unhashable. *)
Definition lookup_class (speed_dict : dict string Q) (highwayclass : value)
  : result (option Q) :=
  match highwayclass with
  | VStr s => Ok (dict_get s speed_dict)
  | VList _ => Raise TypeError
  | _ => Ok None
  end.

(** The body of the loop of [convert_network_to_time] (lines 689-740). *)
Definition convert_edge (distance_tag graph_type road_col : string)
  (speed_dict : option (dict string Q)) (walk_speed factor : Q)
  (default : option string) (data : attrs) : result attrs :=
  len <- getitem data (KStr distance_tag) ;;
  len <- as_number len ;;
  let orig_len := (len * factor)%Q in
  let data := dict_set (KStr "length") (VNum orig_len) data in
  speed <-
    (if String.eqb graph_type "walk" then Ok walk_speed
     else if String.eqb graph_type "drive" then
       let speed_dict :=
         match speed_dict with
         | None => default_speed_dict
         | Some sd => sd
         end in
       highwayclass <- getitem data (KStr road_col) ;;
       highwayclass <-
         match highwayclass with
         | VList [] => Raise IndexError
         | VList (c :: _) => Ok c
         | c => Ok c
         end ;;
       found <- lookup_class speed_dict highwayclass ;;
       match found with
       | Some speed => Ok speed
       | None =>
           match default with
           | None => Ok 20%Q
           | Some dflt => getitem speed_dict dflt
           end
       end
     else Raise (ValueError "Expecting either a graph_type of walk or drive!")) ;;
  kmph <- truediv (orig_len / 1000)%Q speed ;;
  let in_seconds := (kmph * 60 * 60)%Q in
  let data := dict_set (KStr "time") (VNum in_seconds) data in
  Ok (dict_set (KStr "mode") (VStr graph_type) data).

Definition convert_network_to_time (G : graph_arg) (distance_tag : string)
  (graph_type road_col : string) (speed_dict : option (dict string Q))
  (walk_speed factor : Q) (default : option string) : result MultiDiGraph :=
  match G with
  | MultiDiGraphObj g | DiGraphObj g =>
      (* G_adj = G.copy(), then the loop over G_adj.edges(data = True) *)
      map_edge_data
        (fun _ _ data =>
           convert_edge distance_tag graph_type road_col speed_dict
             walk_speed factor default data) g
  | OtherObj => Raise (ValueError "Expecting a graph or geodataframe for G!")
  end.

(** The [origins] argument of [calculate_OD]: a list of node IDs, or in
    weighted mode a dictionary from node ID to demand. *)
Inductive origins_arg : Type :=
| OriginsList (l : list node)
| OriginsDict (d : dict node value).

(** One row of the matrix: the inner loop of lines 808-817. *)
Definition od_row (G : MultiDiGraph) (weight : key) (fail_value : Q)
  (destinations : list node) (origin : node) : result (list Q) :=
  results_dict <- single_source_dijkstra_path_length G origin None weight ;;
  Ok (map (fun destination =>
             match dict_get destination results_dict with
             | Some c => c
             | None => fail_value
             end) destinations).

Definition calculate_OD (G : MultiDiGraph) (origins : origins_arg)
  (destinations : list node) (fail_value : Q) (weight : key)
  (weighted_origins : bool) : result ndarray :=
  if weighted_origins then
    match origins with
    | OriginsDict origins =>
        OD <- mapM (fun kv =>
                mapM (fun destination =>
                        distance <- dijkstra_path_length G (fst kv) destination weight ;;
                        value <- as_number (snd kv) ;;
                        Ok (distance * value)%Q) destinations) origins ;;
        Ok {| shape := (length origins, length destinations); rows := OD |}
    | OriginsList _ => Raise AttributeError (* a list has no items() *)
    end
  else
    match origins with
    | OriginsList origins =>
        let flip := length destinations <? length origins in
        let o_2 := destinations in
        let destinations := if flip then origins else destinations in
        let origins := if flip then o_2 else origins in
        OD <- mapM (od_row G weight fail_value destinations) origins ;;
        let OD := {| shape := (length origins, length destinations); rows := OD |} in
        Ok (if flip then np_transpose OD else OD)
    | OriginsDict _ => Raise KeyError (* origins[o] indexes by position *)
    end.

(** [disrupt_network] (lines 824-854); the two [print]s are left out. *)
Definition disrupt_network (G : ref) (property : key) (thresh : Q)
  (fail_value : value) (st : store) : result (ref * store) :=
  '(G_copy, st) <- copy G st ;;
  g <- deref G_copy st ;;
  broken_nodes <-
    foldM (fun broken_nodes ud =>
             x <- getitem (snd ud) property ;;
             x <- as_number x ;;
             Ok (if Qltb thresh x then broken_nodes ++ [fst ud] else broken_nodes))
      (nodes g) [] ;;
  g <- map_edge_data
         (fun u v data =>
            Ok (if list_mem u broken_nodes || list_mem v broken_nodes
                then dict_set (KStr "time") fail_value data
                else data)) g ;;
  Ok (G_copy, store_set G_copy g st).

(** [add_missing_reflected_edges] (lines 972-989) *)
Definition add_missing_reflected_edges (G : MultiDiGraph) : MultiDiGraph :=
  let unique_edges := map (fun e => (edge_u e, edge_v e)) (edges G) in
  let missing_edges :=
    flat_map (fun e =>
                if list_mem (edge_v e, edge_u e) unique_edges then []
                else [(edge_v e, edge_u e, edge_data e)]) (edges G) in
  let G2 := G in
  add_edges_from G2 missing_edges.

(** [remove_duplicate_edges] (lines 991-1016) *)
Definition remove_duplicate_edges (G : MultiDiGraph) (max_ratio : Q)
  : result MultiDiGraph :=
  let G2 := G in
  '(uniques, deletes) <-
    foldM (fun (acc : list (node * node) * list (node * node)) e =>
             let '(uniques, deletes) := acc in
             let u := edge_u e in
             let v := edge_v e in
             if negb (list_mem (u, v) uniques) then
               let uniques := uniques ++ [(v, u)] in
               let t := number_of_edges_between G2 u v in
               lengths <-
                 mapM (fun i =>
                         data <- edge_item G2 u v (Z.of_nat i) ;;
                         len <- getitem data (KStr "length") ;;
                         as_number len) (seq 0 t) ;;
               longest <- py_max lengths ;;
               shortest <- py_min lengths ;;
               ratio <- truediv longest shortest ;;
               if Qle_bool max_ratio ratio then Ok (uniques, deletes)
               else Ok (uniques, deletes ++ [(u, v)])
             else Ok (uniques, deletes))
      (edges G2) ([], []) ;;
  foldM (fun G2 d => remove_edge G2 (fst d) (snd d)) deletes G2.

(** What a caller may pass as [origins] to [generate_isochrones]. *)
Inductive origins_obj : Type :=
| PyList (l : list node)
| PyOther.

(** [generate_isochrones] (lines 439-496). The threshold is an integer
    number of seconds; it is the cut-off of the search and the key written
    into the node dictionaries. *)
Definition generate_isochrones (G : MultiDiGraph) (origins : origins_obj)
  (thresh : Z) (weight : option key) (stacking : value) : result MultiDiGraph :=
  origins <-
    match origins with
    | PyList (o :: os) => Ok (o :: os)
    | _ => Raise (ValueError "Ensure isochrone centers (origins object) is a list containing at least one node ID!")
    end ;;
  ddict <-
    match nodes G with
    | [] => Raise IndexError
    | ud :: _ => Ok (snd ud)
    end ;;
  weight <-
    match weight with
    | None =>
        if negb (dict_mem (KStr "time") ddict)
        then Raise (ValueError "need time key in edge value dictionary!")
        else Ok (KStr "time")
    | Some w => Ok w
    end ;;
  sub_graphs <- mapM (fun node => ego_graph G node (inject_Z thresh) weight) origins ;;
  let reachable_nodes := flat_map (fun graph => dict_keys (nodes graph)) sub_graphs in
  if py_eq_bool stacking false then
    Ok {| _node := map (fun ud =>
                     (fst ud,
                      dict_set (KInt thresh)
                        (VNum (if list_mem (fst ud) reachable_nodes then 1 else 0)%Q)
                        (snd ud))) (_node G);
          _adj := _adj G |}
  else if py_eq_bool stacking true then
    Ok {| _node := map (fun ud =>
                     (fst ud,
                      dict_set (KInt thresh)
                        (VNum (inject_Z (Z.of_nat (count_occ Z.eq_dec reachable_nodes (fst ud)))))
                        (snd ud))) (_node G);
          _adj := _adj G |}
  else Raise (ValueError "stacking must either be True or False!").

(** What a caller may pass as [bound] to [clip]. *)
Inductive bound_arg : Type :=
| PolygonObj
| MultiPolygonObj
| OtherGeometry.

Section Clip.
(** Lines 1753-1850 of [clip], the projection and the intersection of
    edge geometries with the boundary, are outside this embedding; they
    run after the two checks on a graph and a boundary that passed. *)
Variable clip_edges : MultiDiGraph -> bound_arg -> result MultiDiGraph.

(** The checks of [clip] (lines 1745-1751). The class of [bound] is
    compared with [shapely.geometry...], that of [G] with
    [networkx.classes...]: both are global names of core.py. *)
Definition clip (G : graph_arg) (bound : bound_arg) : result MultiDiGraph :=
  is_multipolygon <-
    (_ <- load_global "shapely" ;;
     Ok match bound with MultiPolygonObj => true | _ => false end) ;;
  is_polygon <-
    (if is_multipolygon then Ok true
     else _ <- load_global "shapely" ;;
          Ok match bound with PolygonObj => true | _ => false end) ;;
  if is_polygon then
    _ <- load_global "networkx" ;;
    match G with
    | MultiDiGraphObj g => clip_edges g bound
    | _ => Raise (ValueError "Graph object must be of type networkx.classes.multidigraph.MultiDiGraph!")
    end
  else Raise (ValueError "Bound input must be a Shapely Polygon or MultiPolygon object!").
End Clip.

Section Gravity.
(** [np.exp] has no rational model; it stays a parameter. A cell that is
    [None] holds no finite number (numpy's division by zero). *)
Variable np_exp : Q -> Q.

Definition np_div (x y : Q) : option Q :=
  if Qeq_bool y 0 then None else Some (x / y)%Q.

(** The body of the double loop of [gravity_demand] (lines 904-912). *)
Definition demand_cell (G : MultiDiGraph) (origins destinations : list node)
  (weight : key) (dist_decay : Q) (shortest_time : ndarray) (o d : nat)
  : result (option Q) :=
  if eqb origins destinations && (o =? d) then Ok (Some 0%Q)
  else
    t <- np_get shortest_time o d ;;
    longest <- np_max shortest_time ;;
    origin <- of_option IndexError (nth_error origins o) ;;
    destination <- of_option IndexError (nth_error destinations d) ;;
    wo <- getitem (_node G) origin ;;
    wo <- getitem wo weight ;;
    wo <- as_number wo ;;
    wd <- getitem (_node G) destination ;;
    wd <- getitem wd weight ;;
    wd <- as_number wd ;;
    Ok match np_div t longest with
       | Some normalized_dist =>
           Some ((wo * wd) * np_exp (- (1) * dist_decay * normalized_dist))%Q
       | None => None
       end.

(** [gravity_demand] (lines 883-916). The travel times come from a call
    of the global name [Calculate_OD]. *)
Definition gravity_demand (G : MultiDiGraph) (origins destinations : list node)
  (weight : key) (maxtrips dist_decay fail_value : Q)
  : result (list (list (option Z))) :=
  let maxtrips := 100%Q in
  let dist_decay := 1%Q in
  _ <- load_global "Calculate_OD" ;;
  shortest_time <-
    calculate_OD G (OriginsList origins) destinations fail_value
      (KStr "time") false ;;
  demand <-
    mapM (fun o =>
            mapM (fun d =>
                    demand_cell G origins destinations weight dist_decay
                      shortest_time o d)
              (seq 0 (length destinations)))
      (seq 0 (length origins)) ;;
  cells <-
    match concat demand with
    | [] => Raise (ValueError "zero-size array to reduction operation maximum")
    | c :: cs => Ok (c :: cs)
    end ;;
  let largest :=
    fold_left (fun m c =>
                 match m, c with
                 | Some m, Some c => Some (if Qltb m c then c else m)
                 | _, _ => None
                 end) (tl cells) (hd None cells) in
  Ok (map (map (fun c =>
                  match c, largest with
                  | Some c, Some m =>
                      match np_div c m with
                      | Some x => Some (Qceiling (x * maxtrips))
                      | None => None
                      end
                  | _, _ => None
                  end)) demand).
End Gravity.

(** [data['highway']], or its first element when it is a list (lines
    590-595 and 601-606). *)
Definition highway_class (data : attrs) : result value :=
  c <- getitem data (KStr "highway") ;;
  match c with
  | VList [] => Raise IndexError
  | VList (c0 :: _) => Ok c0
  | _ => Ok c
  end.

(** [find_hwy_distances_by_class] (lines 570-608): the classes in the
    order they are met, then for every class a pass over the edges that
    adds up the distances of the class. *)
Definition find_hwy_distances_by_class (G : graph_arg) (distance_tag : key)
  : result (list (value * Q)) :=
  match G with
  | MultiDiGraphObj g | DiGraphObj g =>
      let G_adj := g in
      class_list <-
        foldM (fun class_list e =>
                 c <- highway_class (edge_data e) ;;
                 Ok (if existsb (fun i => py_eq i c) class_list
                     then class_list else class_list ++ [c]))
          (edges G_adj) [] ;;
      class_dict <-
        foldM (fun class_dict i =>
                 if py_hashable i then Ok (vdict_set i 0%Q class_dict)
                 else Raise TypeError)
          class_list [] ;;
      foldM (fun class_dict i =>
               foldM (fun class_dict e =>
                        c <- highway_class (edge_data e) ;;
                        if py_eq c i then
                          total <- of_option KeyError (vdict_get i class_dict) ;;
                          len <- getitem (edge_data e) distance_tag ;;
                          len <- as_number len ;;
                          Ok (vdict_set i (total + len)%Q class_dict)
                        else Ok class_dict)
                 (edges G_adj) class_dict)
        class_list class_dict
  | OtherObj => Raise (ValueError "Expecting a graph or geodataframe for G!")
  end.

(** [find_graph_avg_speed] (lines 610-644) *)
Definition find_graph_avg_speed (G : graph_arg) (distance_tag time_tag : key)
  : result Q :=
  match G with
  | MultiDiGraphObj g | DiGraphObj g =>
      let G_adj := g in
      '(total_meters, total_sec) <-
        foldM (fun (acc : Q * Q) e =>
                 let '(total_meters, total_sec) := acc in
                 m <- getitem (edge_data e) distance_tag ;;
                 m <- as_number m ;;
                 s <- getitem (edge_data e) time_tag ;;
                 s <- as_number s ;;
                 Ok (total_meters + m, total_sec + s)%Q)
          (edges G_adj) (0%Q, 0%Q) ;;
      truediv (total_meters / 1000)%Q (total_sec / 3600)%Q
  | OtherObj => Raise (ValueError "Expecting a graph or geodataframe for G!")
  end.

Section Random.
(** [np.random.randint(low = 0, high = high, size = [n])]: the draw is a
    parameter. *)
Variable randint : Q -> nat -> result (list Z).

(** [randomly_disrupt_network] (lines 856-881). [math] in line 871 is a
    global name of core.py. *)
Definition randomly_disrupt_network (G : MultiDiGraph) (edge_frac : Q)
  (fail_value : value) : result (MultiDiGraph * list Z) :=
  edgeid <- mapM (fun e => getitem (edge_data e) (KStr "edge_id")) (edges G) ;;
  _ <- load_global "math" ;;
  let num_to_destroy :=
    Qfloor (inject_Z (Z.of_nat (length edgeid)) / 2 * (edge_frac / 100))%Q in
  ids <- mapM as_number edgeid ;;
  high <- py_max ids ;;
  destroy_list <- randint high (Z.to_nat num_to_destroy) ;;
  G_adj <-
    map_edge_data
      (fun _ _ data =>
         edge_id <- getitem data (KStr "edge_id") ;;
         Ok (if existsb (fun z => py_eq (VNum (inject_Z z)) edge_id) destroy_list
             then dict_set (KStr "time") fail_value data
             else data)) G ;;
  Ok (G_adj, destroy_list).
End Random.

End core.

(** ** networkx.DiGraph, as [osm_parser.py] uses it

    The graph of [read_osm] has the node ids of the document, which are
    strings, as its nodes. [_adj] is the successor dictionary [_succ]; the
    predecessor dictionary, which [read_osm] never reads, is left out. The
    methods are those of networkx 2.0 to 2.3, the releases that have both
    [Graph.add_path] and [G.node]. *)

Module networkx.

Record DiGraph : Type := {
  _node : dict string attrs;
  _adj : dict string (dict string attrs)
}.

(** [networkx.DiGraph()] *)
Definition empty : DiGraph := {| _node := []; _adj := [] |}.

(** [G.edges()]: the node pairs, in the iteration order of [_adj] *)
Definition edges (G : DiGraph) : list (string * string) :=
  flat_map (fun un => map (fun vd => (fst un, fst vd)) (snd un)) (_adj G).

(** [G.get_edge_data(u, v)]: the data of the edge, or [None] *)
Definition get_edge_data (G : DiGraph) (u v : string) : option attrs :=
  match dict_get u (_adj G) with
  | Some nbrs => dict_get v nbrs
  | None => None
  end.

(** A node that [add_edges_from] meets for the first time gets an empty
    successor dictionary and an empty attribute dictionary. *)
Definition ensure_node (G : DiGraph) (u : string) : DiGraph :=
  if dict_mem u (_adj G) then G
  else {| _node := dict_set u [] (_node G); _adj := dict_set u [] (_adj G) |}.

(** The body of the loop of [G.add_edges_from(ebunch, **attr)] for the
    triple [(u, v, dd)]; a pair [(u, v)] has [dd = {}]. *)
Definition add_edge_from (attr : attrs) (G : DiGraph) (e : string * string * attrs)
  : DiGraph :=
  let '(u, v, dd) := e in
  let G := ensure_node (ensure_node G u) v in
  let nbrs := match dict_get u (_adj G) with Some nbrs => nbrs | None => [] end in
  let datadict := match dict_get v nbrs with Some d => d | None => [] end in
  let datadict := dict_update (dict_update datadict attr) dd in
  {| _node := _node G; _adj := dict_set u (dict_set v datadict nbrs) (_adj G) |}.

Definition add_edges_from (G : DiGraph) (ebunch : list (string * string * attrs))
  (attr : attrs) : DiGraph :=
  fold_left (add_edge_from attr) ebunch G.

(** [G.add_path(nodes, **attr)]: the edges are
    [zip(nlist[:-1], nlist[1:])]. *)
Definition add_path (G : DiGraph) (nodes : list string) (attr : attrs) : DiGraph :=
  let nlist := nodes in
  let edges := combine (removelast nlist) (tl nlist) in
  add_edges_from G (map (fun uv => (fst uv, snd uv, [])) edges) attr.

(** [G.add_weighted_edges_from(ebunch, weight = weight)] *)
Definition add_weighted_edges_from (G : DiGraph)
  (ebunch : list (string * string * Q)) (weight : key) : DiGraph :=
  add_edges_from G
    (map (fun uvd => (fst (fst uvd), snd (fst uvd), [(weight, VNum (snd uvd))]))
       ebunch) [].

End networkx.

(** ** osm_parser.py *)

Module osm_parser.

Record Node : Type := {
  Node_id : string;
  lon : Q;
  lat : Q;
  Node_tags : dict string string
}.

Record Way : Type := {
  id : string;
  nds : list string;
  tags : dict string string
}.

(** An object the handler has built: [currElem] and the values of the two
    dictionaries refer to such objects, and may refer to the same one. *)
Inductive element : Type :=
| NodeElem (n : Node)
| WayElem (w : Way).

Definition element_id (e : element) : string :=
  match e with
  | NodeElem n => Node_id n
  | WayElem w => id w
  end.

(** [e.nds], which a [Node] does not have *)
Definition element_nds (e : element) : result (list string) :=
  match e with
  | WayElem w => Ok (nds w)
  | NodeElem _ => Raise AttributeError
  end.

Definition set_tag (k v : string) (e : element) : element :=
  match e with
  | NodeElem n =>
      NodeElem {| Node_id := Node_id n; lon := lon n; lat := lat n;
                  Node_tags := dict_set k v (Node_tags n) |}
  | WayElem w =>
      WayElem {| id := id w; nds := nds w; tags := dict_set k v (tags w) |}
  end.

Inductive sax_event : Type :=
| StartElement (name : string) (attrs : dict string string)
| EndElement (name : string).

(** The state the handler class and the enclosing [__init__] share. *)
Record handler : Type := {
  objects : list element;
  currElem : option nat;
  nodes : dict string nat;
  ways : dict string nat
}.

Definition object_at (objs : list element) (r : nat) : result element :=
  of_option (RuntimeError "dangling reference") (nth_error objs r).

Fixpoint object_set (r : nat) (e : element) (objs : list element) : list element :=
  match objs, r with
  | [], _ => []
  | _ :: objs', 0 => e :: objs'
  | e0 :: objs', S r' => e0 :: object_set r' e objs'
  end.

(** The slices of [Way.split]: the first index [i] of
    [range(1, len(ar) - 1)] with [dividers[ar[i]] > 1]. [l] holds
    [ar[i:len(ar) - 1]]. *)
Fixpoint first_divider (dividers : dict string Z) (l : list string) (i : nat)
  : result (option nat) :=
  match l with
  | [] => Ok None
  | x :: l' =>
      c <- getitem dividers x ;;
      if (1 <? c)%Z then Ok (Some i) else first_divider dividers l' (S i)
  end.

(** [ar[1:len(ar) - 1]] *)
Definition interior (ar : list string) : list string := removelast (tl ar).


Lemma first_divider_range (dividers : dict string Z) (l : list string) (i j : nat) :
  first_divider dividers l i = Ok (Some j) -> i <= j < i + length l.
Proof.
  revert i. induction l as [ | x l IH ]; intros i; simpl.
  - discriminate.
  - destruct (getitem dividers x) as [ c | e ]; simpl; [ | discriminate ].
    destruct (1 <? c)%Z.
    + intros Hj. injection Hj as <-. lia.
    + intros Hj. apply IH in Hj. lia.
Qed.

Lemma interior_length (ar : list string) : length (interior ar) = length ar - 2.
Proof.
  unfold interior. rewrite removelast_firstn_len, length_firstn.
  destruct ar as [ | x ar ]; simpl; lia.
Qed.

(** Matching on a computed value while remembering where it came from. *)
Definition inspect {A : Type} (x : A) : {y : A | x = y} := exist _ x eq_refl.

(** [slice_array] of [Way.split] (lines 171-180): the array is cut at its
    first interior divider and the right part, which starts at that
    divider, is sliced again. *)
Equations? slice_array (dividers : dict string Z) (ar : list string)
  : result (list (list string)) by wf (length ar) lt :=
  slice_array dividers ar with inspect (first_divider dividers (interior ar) 1) => {
    | exist _ (Raise e) _ := Raise e;
    | exist _ (Ok None) _ := Ok [ar];
    | exist _ (Ok (Some i)) Hi :=
        let left := firstn (i + 1) ar in
        let right := skipn i ar in
        rightsliced <- slice_array dividers right ;;
        Ok ([left] ++ rightsliced) }.
Proof.
  apply first_divider_range in Hi. rewrite interior_length in Hi.
  subst right. rewrite length_skipn. lia.
Qed.

Definition string_of_nat (n : nat) : string :=
  NilEmpty.string_of_uint (Nat.to_uint n).

(** [Way.split] (lines 169-194): one way per slice, its id suffixed with
    the index of the slice. *)
Definition split (self : Way) (dividers : dict string Z) : result (list Way) :=
  slices <- slice_array dividers (nds self) ;;
  Ok (map (fun islice =>
             {| id := id self ++ "-" ++ string_of_nat (fst islice);
                nds := snd islice;
                tags := tags self |})
        (combine (seq 0 (length slices)) slices)).

Section Handler.
(** [float] of an attribute string; decimal notation is not modelled. *)
Variable py_float : string -> result Q.

(** [OSMHandler.startElement] (lines 218-226) *)
Definition startElement (h : handler) (name : string) (attrs : dict string string)
  : result handler :=
  if String.eqb name "node" then
    i <- getitem attrs "id" ;;
    x <- getitem attrs "lon" ;;
    x <- py_float x ;;
    y <- getitem attrs "lat" ;;
    y <- py_float y ;;
    let n := {| Node_id := i; lon := x; lat := y; Node_tags := [] |} in
    Ok {| objects := objects h ++ [NodeElem n];
          currElem := Some (length (objects h));
          nodes := nodes h; ways := ways h |}
  else if String.eqb name "way" then
    i <- getitem attrs "id" ;;
    let w := {| id := i; nds := []; tags := [] |} in
    Ok {| objects := objects h ++ [WayElem w];
          currElem := Some (length (objects h));
          nodes := nodes h; ways := ways h |}
  else if String.eqb name "tag" then
    v <- getitem attrs "v" ;;
    r <- of_option AttributeError (currElem h) ;;
    e <- object_at (objects h) r ;;
    k <- getitem attrs "k" ;;
    Ok {| objects := object_set r (set_tag k v e) (objects h);
          currElem := currElem h; nodes := nodes h; ways := ways h |}
  else if String.eqb name "nd" then
    r <- of_option AttributeError (currElem h) ;;
    e <- object_at (objects h) r ;;
    match e with
    | NodeElem _ => Raise AttributeError
    | WayElem w =>
        ref <- getitem attrs "ref" ;;
        let w := {| id := id w; nds := nds w ++ [ref]; tags := tags w |} in
        Ok {| objects := object_set r (WayElem w) (objects h);
              currElem := currElem h; nodes := nodes h; ways := ways h |}
    end
  else Ok h.

(** [OSMHandler.endElement] (lines 229-233) *)
Definition endElement (h : handler) (name : string) : result handler :=
  if String.eqb name "node" then
    r <- of_option AttributeError (currElem h) ;;
    e <- object_at (objects h) r ;;
    Ok {| objects := objects h; currElem := currElem h;
          nodes := dict_set (element_id e) r (nodes h); ways := ways h |}
  else if String.eqb name "way" then
    r <- of_option AttributeError (currElem h) ;;
    e <- object_at (objects h) r ;;
    Ok {| objects := objects h; currElem := currElem h;
          nodes := nodes h; ways := dict_set (element_id e) r (ways h) |}
  else Ok h.

(** [xml.sax.parse(filename_or_stream, OSMHandler)] on the events of a
    document *)
Definition parse (events : list sax_event) : result handler :=
  foldM (fun h ev =>
           match ev with
           | StartElement name attrs => startElement h name attrs
           | EndElement name => endElement h name
           end) events
    {| objects := []; currElem := None; nodes := []; ways := [] |}.
End Handler.

(** The loop of lines 246-251 over the live view [self.ways.values()]:
    the iterator compares the size of the dictionary with the size it
    started from before it hands out the next way, or stops. *)
Fixpoint count_nodes (objs : list element) (size : nat) (pending : list nat)
  (ways : dict string nat) (node_histogram : dict string Z)
  : result (dict string nat * dict string Z) :=
  if negb (length ways =? size)
  then Raise (RuntimeError "dictionary changed size during iteration")
  else
    match pending with
    | [] => Ok (ways, node_histogram)
    | r :: pending' =>
        way <- object_at objs r ;;
        way_nds <- element_nds way ;;
        if length way_nds <? 2 then
          ways <- delitem ways (element_id way) ;;
          count_nodes objs size pending' ways node_histogram
        else
          node_histogram <-
            foldM (fun hist n =>
                     c <- getitem hist n ;;
                     Ok (dict_set n (c + 1)%Z hist)) way_nds node_histogram ;;
          count_nodes objs size pending' ways node_histogram
    end.

Record OSM : Type := {
  OSM_nodes : dict string element;
  OSM_ways : dict string Way
}.

(** [OSM.__init__] after the parse (lines 241-259) *)
Definition build (h : handler) : result OSM :=
  let node_histogram := map (fun kv => (fst kv, 0%Z)) (nodes h) in
  '(ways, node_histogram) <-
    count_nodes (objects h) (length (ways h)) (dict_values (ways h))
      (ways h) node_histogram ;;
  new_ways <-
    foldM (fun new_ways kv =>
             way <- object_at (objects h) (snd kv) ;;
             split_ways <-
               match way with
               | WayElem w => split w node_histogram
               | NodeElem _ => Raise AttributeError
               end ;;
             Ok (fold_left (fun acc split_way => dict_set (id split_way) split_way acc)
                   split_ways new_ways))
      ways [] ;;
  all_nodes <- dict_mapM (fun _ r => object_at (objects h) r) (nodes h) ;;
  Ok {| OSM_nodes := all_nodes; OSM_ways := new_ways |}.

(** [OSM(filename_or_stream)] *)
Definition OSM_init (py_float : string -> result Q) (events : list sax_event)
  : result OSM :=
  h <- parse py_float events ;;
  build h.

Section ReadOsm.
Variable py_float : string -> result Q.
(** [haversine] with [unit_m = True] on four numbers; its trigonometry is
    not modelled. *)
Variable haversine : Q -> Q -> Q -> Q -> result Q.

(** The keyword arguments [id = w.id, highway = w.tags['highway']] *)
Definition way_attr (w : Way) : result attrs :=
  highway <- getitem (tags w) "highway" ;;
  Ok [(KStr "id", VStr (id w)); (KStr "highway", VStr highway)].

(** [G.add_path(nodes, id = w.id, highway = w.tags['highway'])] *)
Definition add_way_path (G : networkx.DiGraph) (w : Way) (nodes : list string)
  : result networkx.DiGraph :=
  attr <- way_attr w ;;
  Ok (networkx.add_path G nodes attr).

(** The body of the loop over the ways (lines 118-133) *)
Definition add_way (only_roads : bool) (G : networkx.DiGraph) (w : Way)
  : result networkx.DiGraph :=
  if only_roads && negb (dict_mem "highway" (tags w)) then Ok G
  else if dict_mem "oneway" (tags w) then
    oneway <- getitem (tags w) "oneway" ;;
    if String.eqb oneway "yes" then add_way_path G w (nds w)
    else
      G <- add_way_path G w (nds w) ;;
      add_way_path G w (rev (nds w))
  else
    G <- add_way_path G w (nds w) ;;
    add_way_path G w (rev (nds w)).

(** The body of the loop over the nodes (lines 136-140), which writes
    into the dictionary of node [n_id] *)
Definition complete_node (osm : OSM) (n_id : string) (data : attrs) : result attrs :=
  n <- getitem (OSM_nodes osm) n_id ;;
  match n with
  | NodeElem n =>
      Ok (dict_set (KStr "id") (VStr (Node_id n))
            (dict_set (KStr "lon") (VNum (lon n))
               (dict_set (KStr "lat") (VNum (lat n)) data)))
  | WayElem _ => Raise AttributeError
  end.

(** [G.node[n][k]] *)
Definition node_item (G : networkx.DiGraph) (n : string) (k : key) : result value :=
  data <- getitem (networkx._node G) n ;;
  getitem data k.

(** The body of the loop over the edges (lines 143-146); [radians] takes
    numbers. *)
Definition estimate_length (G : networkx.DiGraph) (uv : string * string)
  : result networkx.DiGraph :=
  let '(u, v) := uv in
  lon1 <- node_item G u (KStr "lon") ;;
  lat1 <- node_item G u (KStr "lat") ;;
  lon2 <- node_item G v (KStr "lon") ;;
  lat2 <- node_item G v (KStr "lat") ;;
  lon1 <- as_number lon1 ;;
  lat1 <- as_number lat1 ;;
  lon2 <- as_number lon2 ;;
  lat2 <- as_number lat2 ;;
  distance <- haversine lon1 lat1 lon2 lat2 ;;
  Ok (networkx.add_weighted_edges_from G [(u, v, distance)] (KStr "length")).

(** [read_osm] (lines 99-148). The loop over the nodes rewrites every
    node dictionary in the order of [G.nodes]; the loop over [G.edges()]
    writes into edges that exist, so that it goes through the pairs the
    graph has when it starts. *)
Definition read_osm (events : list sax_event) (only_roads : bool)
  : result networkx.DiGraph :=
  osm <- OSM_init py_float events ;;
  let G := networkx.empty in
  G <- foldM (add_way only_roads) (dict_values (OSM_ways osm)) G ;;
  node <- dict_mapM (complete_node osm) (networkx._node G) ;;
  let G := {| networkx._node := node; networkx._adj := networkx._adj G |} in
  foldM estimate_length (networkx.edges G) G.
End ReadOsm.

End osm_parser.

(** ** Python's numbers and sequences

    The objects an edge attribute holds, with the two operators
    [convert_network_to_time] applies to them. An [int] is unbounded, a
    [float] an IEEE 754 double, and every operation on doubles rounds to
    the nearest double, ties to even. Attributes are objects of Python's
    built-in types; the limits of memory are left out. *)

Module py.

#[warnings="-register-all"]
Inductive object : Type :=
| PyNone
| PyBool (b : bool)
| PyInt (z : Z)
| PyFloat (f : float)
| PyStr (s : string)
| PyList (l : list object).

(** What an object is in arithmetic: an int, as a bool is, or a float. *)
Inductive number : Type :=
| Int (z : Z)
| Float (f : float).

Definition as_number (x : object) : option number :=
  match x with
  | PyBool true => Some (Int 1)
  | PyBool false => Some (Int 0)
  | PyInt z => Some (Int z)
  | PyFloat f => Some (Float f)
  | _ => None
  end.

(** The integers that round to a finite double: those of magnitude below
    2^1024 - 2^970, half way from the largest double to 2^1024. *)
Definition in_float_range (z : Z) : bool :=
  (Z.abs z <? 2 ^ 1024 - 2 ^ 970)%Z.

(** [float(z)]: the nearest double, or [OverflowError] *)
Definition float_of_int (z : Z) : result float :=
  if in_float_range z
  then Ok (SF2Prim (binary_normalize prec emax z 0 false))
  else Raise OverflowError.

Definition to_float (n : number) : result float :=
  match n with
  | Int z => float_of_int z
  | Float f => Ok f
  end.

Definition spec_of_int (z : Z) : spec_float :=
  match z with
  | Z0 => S754_zero false
  | Zpos p => S754_finite false p 0
  | Zneg p => S754_finite true p 0
  end.

(** [a / b] on two ints: the double nearest to the quotient, which is
    too large for a double from 2^1024 - 2^970 on. *)
Definition int_truediv (a b : Z) : result float :=
  if (b =? 0)%Z then Raise ZeroDivisionError
  else if (Z.abs a <? (2 ^ 1024 - 2 ^ 970) * Z.abs b)%Z
       then Ok (SF2Prim (SFdiv prec emax (spec_of_int a) (spec_of_int b)))
       else Raise OverflowError.

(** [x == 0] for a number. An int is zero as a double only if it is 0. *)
Definition is_zero (n : number) : bool :=
  match n with
  | Int z => (z =? 0)%Z
  | Float f => (f =? 0)%float
  end.

(** [x / y]: both operands are converted, then a zero divisor raises. *)
Definition truediv (x y : object) : result object :=
  match as_number x, as_number y with
  | Some (Int a), Some (Int b) => f <- int_truediv a b ;; Ok (PyFloat f)
  | Some n, Some m =>
      f <- to_float n ;;
      g <- to_float m ;;
      if is_zero m then Raise ZeroDivisionError else Ok (PyFloat (f / g)%float)
  | _, _ => Raise TypeError
  end.

(** The count of a repetition [seq * n]: an index, of 64 bits. *)
Definition repeat_count (n : Z) : result nat :=
  if ((- 2 ^ 63 <=? n) && (n <? 2 ^ 63))%Z then Ok (Z.to_nat n)
  else Raise OverflowError.

Definition repeat_string (s : string) (n : nat) : string :=
  String.concat "" (repeat s n).

Definition repeat_list {A : Type} (l : list A) (n : nat) : list A :=
  concat (repeat l n).

(** [seq * n] and [n * seq] for a string or a list: a result longer than
    an index counts is refused. *)
Definition repeat_sequence (x : object) (n : Z) : result object :=
  match x with
  | PyStr s =>
      count <- repeat_count n ;;
      if (Z.of_nat (String.length s) * Z.of_nat count <? 2 ^ 63)%Z
      then Ok (PyStr (repeat_string s count))
      else Raise OverflowError
  | PyList l =>
      count <- repeat_count n ;;
      if (Z.of_nat (length l) * Z.of_nat count <? 2 ^ 63)%Z
      then Ok (PyList (repeat_list l count))
      else Raise MemoryError
  | _ => Raise TypeError
  end.

(** [x * y] *)
Definition mul (x y : object) : result object :=
  match as_number x, as_number y with
  | Some (Int a), Some (Int b) => Ok (PyInt (a * b))
  | Some n, Some m =>
      f <- to_float n ;;
      g <- to_float m ;;
      Ok (PyFloat (f * g)%float)
  | None, Some (Int n) => repeat_sequence x n
  | Some (Int n), None => repeat_sequence y n
  | _, _ => Raise TypeError
  end.

End py.

(** ** core.py on Python's numbers

    [convert_network_to_time] (lines 646-742) on graphs whose edge
    attributes are Python objects. *)

Module pycore.

Definition attrs : Type := dict key py.object.

Record MultiDiGraph : Type := {
  _node : dict node attrs;
  _adj : dict node (dict node (dict Z attrs))
}.

Definition edge : Type := node * node * Z * attrs.

Definition edge_u (e : edge) : node := fst (fst (fst e)).
Definition edge_v (e : edge) : node := snd (fst (fst e)).
Definition edge_key (e : edge) : Z := snd (fst e).
Definition edge_data (e : edge) : attrs := snd e.

(** [G.edges(keys = True, data = True)] *)
Definition edges (G : MultiDiGraph) : list edge :=
  flat_map (fun un =>
    flat_map (fun vk =>
      map (fun kd => (fst un, fst vk, fst kd, snd kd)) (snd vk)) (snd un))
    (_adj G).

(** The loop [for u, v, data in G.edges(data = True)] whose body rewrites
    [data]. *)
Definition map_edge_data (f : node -> node -> attrs -> result attrs)
  (G : MultiDiGraph) : result MultiDiGraph :=
  adj <- dict_mapM (fun u nbrs =>
           dict_mapM (fun v keydict =>
             dict_mapM (fun _ data => f u v data) keydict) nbrs) (_adj G) ;;
  Ok {| _node := _node G; _adj := adj |}.

Inductive graph_arg : Type :=
| MultiDiGraphObj (G : MultiDiGraph)
| DiGraphObj (G : MultiDiGraph)
| OtherObj.

Definition default_speed_dict : dict string py.object :=
  [ ("residential", py.PyInt 20); ("primary", py.PyInt 40);
    ("primary_link", py.PyInt 35); ("motorway", py.PyInt 50);
    ("motorway_link", py.PyInt 45); ("trunk", py.PyInt 40);
    ("trunk_link", py.PyInt 35); ("secondary", py.PyInt 30);
    ("secondary_link", py.PyInt 25); ("tertiary", py.PyInt 30);
    ("tertiary_link", py.PyInt 25); ("unclassified", py.PyInt 20) ].

(** [highwayclass in speed_dict.keys()] followed by
    [speed_dict[highwayclass]], for a table keyed by strings: a string is
    looked up, another hashable object is no key of the table, a list is
    unhashable. *)
Definition lookup_class (speed_dict : dict string py.object)
  (highwayclass : py.object) : result (option py.object) :=
  match highwayclass with
  | py.PyStr s => Ok (dict_get s speed_dict)
  | py.PyList _ => Raise TypeError
  | _ => Ok None
  end.

(** The body of the loop (lines 689-740). *)
Definition convert_edge (distance_tag graph_type road_col : string)
  (speed_dict : option (dict string py.object)) (walk_speed factor : py.object)
  (default : option string) (data : attrs) : result attrs :=
  len <- getitem data (KStr distance_tag) ;;
  orig_len <- py.mul len factor ;;
  let data := dict_set (KStr "length") orig_len data in
  speed <-
    (if String.eqb graph_type "walk" then Ok walk_speed
     else if String.eqb graph_type "drive" then
       let speed_dict :=
         match speed_dict with
         | None => default_speed_dict
         | Some sd => sd
         end in
       highwayclass <- getitem data (KStr road_col) ;;
       highwayclass <-
         match highwayclass with
         | py.PyList [] => Raise IndexError
         | py.PyList (c :: _) => Ok c
         | c => Ok c
         end ;;
       found <- lookup_class speed_dict highwayclass ;;
       match found with
       | Some speed => Ok speed
       | None =>
           match default with
           | None => Ok (py.PyInt 20)
           | Some dflt => getitem speed_dict dflt
           end
       end
     else Raise (ValueError "Expecting either a graph_type of walk or drive!")) ;;
  km <- py.truediv orig_len (py.PyInt 1000) ;;
  kmph <- py.truediv km speed ;;
  minutes <- py.mul kmph (py.PyInt 60) ;;
  in_seconds <- py.mul minutes (py.PyInt 60) ;;
  let data := dict_set (KStr "time") in_seconds data in
  Ok (dict_set (KStr "mode") (py.PyStr graph_type) data).

Definition convert_network_to_time (G : graph_arg) (distance_tag : string)
  (graph_type road_col : string) (speed_dict : option (dict string py.object))
  (walk_speed factor : py.object) (default : option string)
  : result MultiDiGraph :=
  match G with
  | MultiDiGraphObj g | DiGraphObj g =>
      (* G_adj = G.copy(), then the loop over G_adj.edges(data = True) *)
      map_edge_data
        (fun _ _ data =>
           convert_edge distance_tag graph_type road_col speed_dict
             walk_speed factor default data) g
  | OtherObj => Raise (ValueError "Expecting a graph or geodataframe for G!")
  end.

End pycore.

(** * Specifications

    The vocabulary of the claims, and the inputs they are tried on. *)

(** ** Edges and travel times *)

(** Two edges at the same place of their graphs. *)
Definition same_edge (e e' : edge) : Prop :=
  edge_u e' = edge_u e /\ edge_v e' = edge_v e /\ edge_key e' = edge_key e.

(** The graph inside an argument that is one. *)
Definition graph_of (G : graph_arg) : option MultiDiGraph :=
  match G with
  | MultiDiGraphObj g | DiGraphObj g => Some g
  | OtherObj => None
  end.

(** *** Travel times in Python's numbers *)

(** Two edges at the same place of their graphs. *)
Definition same_place (e e' : pycore.edge) : Prop :=
  pycore.edge_u e' = pycore.edge_u e /\ pycore.edge_v e' = pycore.edge_v e /\
  pycore.edge_key e' = pycore.edge_key e.

Definition graph_in (G : pycore.graph_arg) : option pycore.MultiDiGraph :=
  match G with
  | pycore.MultiDiGraphObj g | pycore.DiGraphObj g => Some g
  | pycore.OtherObj => None
  end.

(** The road class of an edge: the value under [road_col], or its first
    element when that value is a list. *)
Definition road_class (road_col : string) (data : pycore.attrs)
  : option py.object :=
  match dict_get (KStr road_col) data with
  | Some (py.PyList []) => None
  | Some (py.PyList (c :: _)) => Some c
  | Some c => Some c
  | None => None
  end.

(** The speed of a class: its entry in the table; for a class that is
    absent from the table the entry of the default class, and 20 km/h
    when no default class is supplied. *)
Definition class_speed (table : dict string py.object) (default : option string)
  (cls : py.object) : option py.object :=
  let fallback :=
    match default with
    | None => Some (py.PyInt 20)
    | Some dflt => dict_get dflt table
    end in
  match cls with
  | py.PyStr s =>
      match dict_get s table with
      | Some speed => Some speed
      | None => fallback
      end
  | py.PyList _ => None
  | _ => fallback
  end.

Definition speed_table (speed_dict : option (dict string py.object))
  : dict string py.object :=
  match speed_dict with
  | None => pycore.default_speed_dict
  | Some sd => sd
  end.

(** The travel time in seconds of [metres] at [speed] km/h, as Python
    evaluates [(metres / 1000) / speed * 60 * 60]: from left to right,
    every operation rounded to a double. *)
Definition travel_time (metres speed : py.object) : result py.object :=
  km <- py.truediv metres (py.PyInt 1000) ;;
  kmph <- py.truediv km speed ;;
  minutes <- py.mul kmph (py.PyInt 60) ;;
  py.mul minutes (py.PyInt 60).

(** What the claim says of one edge [e] and the edge [e'] that takes its
    place in the result. *)
Definition drive_time_spec (distance_tag road_col : string)
  (speed_dict : option (dict string py.object)) (factor : py.object)
  (default : option string) (e e' : pycore.edge) : Prop :=
  same_place e e' /\
  exists len metres cls speed t,
    dict_get (KStr distance_tag) (pycore.edge_data e) = Some len /\
    py.mul len factor = Ok metres /\
    road_class road_col
      (dict_set (KStr "length") metres (pycore.edge_data e)) = Some cls /\
    class_speed (speed_table speed_dict) default cls = Some speed /\
    travel_time metres speed = Ok (py.PyFloat t) /\
    dict_get (KStr "time") (pycore.edge_data e') = Some (py.PyFloat t).

Definition walk_time_spec (distance_tag : string) (walk_speed factor : py.object)
  (e e' : pycore.edge) : Prop :=
  same_place e e' /\
  exists len metres t,
    dict_get (KStr distance_tag) (pycore.edge_data e) = Some len /\
    py.mul len factor = Ok metres /\
    travel_time metres walk_speed = Ok (py.PyFloat t) /\
    dict_get (KStr "time") (pycore.edge_data e') = Some (py.PyFloat t).

(** The times on the edges of [G]. *)
Definition edge_times (G : pycore.MultiDiGraph) : list (option py.object) :=
  map (fun e => dict_get (KStr "time") (pycore.edge_data e)) (pycore.edges G).

(** A number that no conversion to a double and no product of two of its
    kind overflows on: a float, a bool, or an int of magnitude below
    2^500. *)
Definition modest (x : py.object) : bool :=
  match x with
  | py.PyFloat _ | py.PyBool _ => true
  | py.PyInt z => (Z.abs z <? 2 ^ 500)%Z
  | _ => false
  end.

(** [x == 0] for a number. *)
Definition zero (x : py.object) : bool :=
  match py.as_number x with
  | Some n => py.is_zero n
  | None => false
  end.

(** A residential edge of 5000 m. *)
Definition road_5000_m : pycore.MultiDiGraph :=
  {| pycore._node := [(1%Z, []); (2%Z, [])];
     pycore._adj :=
       [(1%Z, [(2%Z, [(0%Z, [(KStr "length", py.PyInt 5000);
                              (KStr "highway", py.PyStr "residential")])])]);
        (2%Z, [])] |}.

(** ** Edges, paths and cost matrices *)

Definition edge_pair (e : edge) : node * node := (edge_u e, edge_v e).

(** The node pairs of [G.edges(data = False)]. *)
Definition edge_pairs (G : MultiDiGraph) : list (node * node) :=
  map edge_pair (edges G).

(** Every edge has an edge in the opposite direction. *)
Definition symmetric (G : MultiDiGraph) : Prop :=
  forall e, In e (edges G) ->
    exists e', In e' (edges G) /\ edge_u e' = edge_v e /\ edge_v e' = edge_u e.

(** [a] and [b] are joined by an edge: the adjacency holds a key
    dictionary for them that is not empty. *)
Definition linked (G : MultiDiGraph) (a b : node) : Prop :=
  exists nbrs keydict,
    In (a, nbrs) (_adj G) /\ In (b, keydict) nbrs /\ keydict <> [].

(** A connecting path from [s]: a walk along edges of the graph. *)
Inductive path (G : MultiDiGraph) (s : node) : node -> Prop :=
| path_nil : path G s s
| path_step (v u : node) : path G s v -> linked G v u -> path G s u.

(** Two arrays of the same shape whose cells are equal numbers. *)
Definition same_matrix (A B : ndarray) : Prop :=
  shape A = shape B /\ Forall2 (Forall2 Qeq) (rows A) (rows B).

(** An array whose rows agree with its shape. *)
Definition well_shaped (A : ndarray) : Prop :=
  length (rows A) = fst (shape A) /\
  Forall (fun row => length row = snd (shape A)) (rows A).

(** Two calls that fail alike, or return matrices that are transposes of
    one another. *)
Definition transposes (A B : result ndarray) : Prop :=
  match A, B with
  | Ok A, Ok B => same_matrix A (np_transpose B)
  | Raise e, Raise e' => e = e'
  | _, _ => False
  end.

(** A graph the search runs on without an error: every node has an
    adjacency dictionary, every successor has one too, and the weight of
    every node pair is a number that is not negative. *)
Definition well_formed (G : MultiDiGraph) (weight : key) : bool :=
  forallb (fun n => dict_mem (fst n) (_adj G)) (_node G)
  && forallb (fun un =>
       forallb (fun vk =>
                  dict_mem (fst vk) (_adj G)
                  && match weight_function weight (snd vk) with
                     | Ok cost => Qle_bool 0 cost
                     | Raise _ => false
                     end) (snd un)) (_adj G).

(** The key dictionaries a node has not pushed yet. *)
Definition unexpanded (dist : dict node Q)
  (adj : dict node (dict node (dict Z attrs))) : nat :=
  list_sum (map (fun un => if dict_mem (fst un) dist then 0 else length (snd un)) adj).

(** ** Disrupted nodes *)

(** The value of [property] on node [u] is a number at or below [thresh]. *)
Definition within_threshold (g : MultiDiGraph) (property : key) (thresh : Q)
  (u : node) : Prop :=
  forall data, In (u, data) (nodes g) ->
    exists v x, dict_get property data = Some v /\ as_number v = Ok x /\ (x <= thresh)%Q.

(** ** Ways and the nodes they reference *)

(** A node the histogram counts at most once: no divider. *)
Definition no_divider (dividers : dict string Z) (n : string) : Prop :=
  exists c, dict_get n dividers = Some c /\ (c <= 1)%Z.

(** The nodes the ways of a document reference, with repetition. *)
Definition way_nodes (objs : list osm_parser.element) (refs : list nat)
  : list string :=
  flat_map (fun r =>
              match nth_error objs r with
              | Some (osm_parser.WayElem w) => osm_parser.nds w
              | _ => []
              end) refs.

(** How often the parsed ways reference node [n]. *)
Definition references (h : osm_parser.handler) (n : string) : nat :=
  count_occ string_dec
    (way_nodes (osm_parser.objects h) (dict_values (osm_parser.ways h))) n.

(** ** Example graphs and documents *)

(** A graph of one residential edge of 5000 m. *)
Definition g5000 : MultiDiGraph :=
  {| _node := [(1%Z, []); (2%Z, [])];
     _adj := [(1%Z, [(2%Z, [(0%Z, [(KStr "length", VNum 5000%Q);
                                    (KStr "highway", VStr "residential")])])]);
              (2%Z, [])] |}.

(** Two parallel edges from node 1 to node 2, of the given lengths. *)
Definition parallel_pair (len0 len1 : Q) : MultiDiGraph :=
  {| _node := [(1%Z, []); (2%Z, [])];
     _adj := [(1%Z, [(2%Z, [(0%Z, [(KStr "length", VNum len0)]);
                            (1%Z, [(KStr "length", VNum len1)])])]);
              (2%Z, [])] |}.

(** One edge from node 1 to node 2; [ndata] on both nodes, [edata] on the
    edge. *)
Definition one_edge (ndata edata : attrs) : MultiDiGraph :=
  {| _node := [(1%Z, ndata); (2%Z, ndata)];
     _adj := [(1%Z, [(2%Z, [(0%Z, edata)])]); (2%Z, [])] |}.

(** Three nodes in a row; node 3 is flooded above any threshold below 5. *)
Definition flood_graph : MultiDiGraph :=
  {| _node := [(1%Z, [(KStr "flood", VNum 0)]); (2%Z, [(KStr "flood", VNum 0)]);
               (3%Z, [(KStr "flood", VNum 5)])];
     _adj := [(1%Z, [(2%Z, [(0%Z, [(KStr "time", VNum 10)])])]);
              (2%Z, [(3%Z, [(0%Z, [(KStr "time", VNum 20)])])]);
              (3%Z, [])] |}.

(** Nodes 1, 2, 3 and a single edge, from 1 to 2, of 7 seconds. *)
Definition one_way : MultiDiGraph :=
  {| _node := [(1%Z, []); (2%Z, []); (3%Z, [])];
     _adj := [(1%Z, [(2%Z, [(0%Z, [(KStr "time", VNum 7)])])]);
              (2%Z, []); (3%Z, [])] |}.

(** Nodes 1, 2; 1 second from 1 to 2, 5 seconds from 2 to 1. *)
Definition uphill : MultiDiGraph :=
  {| _node := [(1%Z, []); (2%Z, [])];
     _adj := [(1%Z, [(2%Z, [(0%Z, [(KStr "time", VNum 1)])])]);
              (2%Z, [(1%Z, [(0%Z, [(KStr "time", VNum 5)])])])] |}.

(** The two lists of two nodes each on a road that costs the same in both
    directions. *)
Definition two_way : MultiDiGraph :=
  {| _node := [(1%Z, []); (2%Z, []); (3%Z, [])];
     _adj := [(1%Z, [(2%Z, [(0%Z, [(KStr "time", VNum 4)])])]);
              (2%Z, [(1%Z, [(0%Z, [(KStr "time", VNum 4)])]);
                     (3%Z, [(0%Z, [(KStr "time", VNum 6)])])]);
              (3%Z, [(2%Z, [(0%Z, [(KStr "time", VNum 6)])])])] |}.

(** A document of one way that references one node. *)
Definition one_node_way : list osm_parser.sax_event :=
  [ osm_parser.StartElement "way" [("id", "w1")];
    osm_parser.StartElement "nd" [("ref", "n1")];
    osm_parser.EndElement "nd";
    osm_parser.EndElement "way" ].

(** ** Walks and least costs *)

(** A walk from [s] along the adjacency the search iterates over, with
    the sum of the weights of its node pairs: [G._adj[v]] is looked up,
    its entries are gone through. *)
Inductive walk (G : MultiDiGraph) (weight : key) (s : node) : node -> Q -> Prop :=
| walk_nil : walk G weight s s 0%Q
| walk_step (v u : node) (c : Q) (nbrs : dict node (dict Z attrs))
    (keydict : dict Z attrs) (cost : Q) :
    walk G weight s v c ->
    dict_get v (_adj G) = Some nbrs -> In (u, keydict) nbrs ->
    weight_function weight keydict = Ok cost ->
    walk G weight s u (c + cost)%Q.

(** A cost the cut-off of the search lets through. *)
Definition within (cutoff : option Q) (c : Q) : Prop :=
  match cutoff with
  | Some r => (c <= r)%Q
  | None => True
  end.

(** [x] is the least cost of a walk from [s] to [v]. *)
Definition least_cost (G : MultiDiGraph) (weight : key) (s v : node) (x : Q) : Prop :=
  walk G weight s v x /\ forall c, walk G weight s v c -> (x <= c)%Q.

(** Node [u] is settled, or waits in the heap at a distance of [bound] at
    most. *)
Definition covered (dist : dict node Q) (fringe : list entry) (u : node)
  (bound : Q) : Prop :=
  dict_mem u dist = true \/
  exists e, In e fringe /\ snd e = u /\ (fst (fst e) <= bound)%Q.

(** What the loop of the search keeps true of [dist], [seen], the counter
    and the heap. *)
Record search_inv (G : MultiDiGraph) (weight : key) (cutoff : option Q)
  (s : node) (dist seen : dict node Q) (c : nat) (fringe : list entry) : Prop := {
  inv_dist_walk :
    forall v x, dict_get v dist = Some x -> walk G weight s v x;
  inv_dist_least :
    forall v x, dict_get v dist = Some x ->
      forall c', walk G weight s v c' -> (x <= c')%Q;
  inv_dist_within :
    forall v x, dict_get v dist = Some x -> within cutoff x \/ (x <= 0)%Q;
  inv_fringe_walk :
    forall e, In e fringe -> walk G weight s (snd e) (fst (fst e));
  inv_fringe_within :
    forall e, In e fringe ->
      within cutoff (fst (fst e)) \/ (fst (fst e) <= 0)%Q;
  inv_counters_distinct : NoDup (map (fun e : entry => snd (fst e)) fringe);
  inv_counters_below : forall e, In e fringe -> snd (fst e) < c;
  inv_seen : forall u su, dict_get u seen = Some su -> covered dist fringe u su;
  inv_source : covered dist fringe s 0%Q
}.

(** The successors of the settled nodes are covered, for the node pairs
    that [ok] selects. *)
Definition closed_by (G : MultiDiGraph) (weight : key) (cutoff : option Q)
  (ok : node -> node * dict Z attrs -> Prop)
  (dist : dict node Q) (fringe : list entry) : Prop :=
  forall v dv nbrs u keydict cost,
    dict_get v dist = Some dv -> dict_get v (_adj G) = Some nbrs ->
    In (u, keydict) nbrs -> weight_function weight keydict = Ok cost ->
    within cutoff (dv + cost)%Q -> ok v (u, keydict) ->
    covered dist fringe u (dv + cost)%Q.

(** No weight of a node pair is negative. *)
Definition nonneg_weights (G : MultiDiGraph) (weight : key) : Prop :=
  forall v nbrs ue cost,
    dict_get v (_adj G) = Some nbrs -> In ue nbrs ->
    weight_function weight (snd ue) = Ok cost -> (0 <= cost)%Q.

(** The node the search behind a cell of [calculate_OD] starts at, and the
    node it looks up: the lists are swapped when the origins outnumber
    the destinations. *)
Definition search_from (origins destinations : list node) (o d : node) : node :=
  if length destinations <? length origins then d else o.

Definition search_to (origins destinations : list node) (o d : node) : node :=
  if length destinations <? length origins then o else d.

(** A two-way road of 4 seconds with a detour of 1 + 2 seconds. *)
Definition detour : MultiDiGraph :=
  {| _node := [(1%Z, []); (2%Z, []); (3%Z, [])];
     _adj := [(1%Z, [(2%Z, [(0%Z, [(KStr "time", VNum 4)])]);
                     (3%Z, [(0%Z, [(KStr "time", VNum 1)])])]);
              (2%Z, [(1%Z, [(0%Z, [(KStr "time", VNum 4)])])]);
              (3%Z, [(2%Z, [(0%Z, [(KStr "time", VNum 2)])])])] |}.

(** ** Isochrones *)

(** Node [u] lies within [thresh] of one of the origins. *)
Definition reached (G : MultiDiGraph) (weight : key) (origins : list node)
  (thresh : Z) (u : node) : Prop :=
  exists o c, In o origins /\ walk G weight o u c /\ (c <= inject_Z thresh)%Q.

(** The weight the isochrones are measured in. *)
Definition isochrone_weight (weight : option key) : key :=
  match weight with
  | Some w => w
  | None => KStr "time"
  end.

(** The mark [m] that [generate_isochrones] leaves on node [n], as [n']. *)
Definition marked (thresh : Z) (m : Q) (n n' : node * attrs) : Prop :=
  fst n' = fst n /\ snd n' = dict_set (KInt thresh) (VNum m) (snd n).

(** The value of [property] on node [u] is a number above [thresh]. *)
Definition above_threshold (g : MultiDiGraph) (property : key) (thresh : Q)
  (u : node) : Prop :=
  exists data v x,
    In (u, data) (nodes g) /\ dict_get property data = Some v /\
    as_number v = Ok x /\ (thresh < x)%Q.

(** ** Reflected edges *)

(** The number of edges between the pairs of one adjacency dictionary,
    and of the whole adjacency. *)
Definition pair_count (nbrs : dict node (dict Z attrs)) : nat :=
  list_sum (map (fun vk : node * dict Z attrs => length (snd vk)) nbrs).

Definition edge_count (adj : dict node (dict node (dict Z attrs))) : nat :=
  list_sum (map (fun un : node * dict node (dict Z attrs) => pair_count (snd un)) adj).

(** The edge has no edge in the opposite direction. *)
Definition lacks_reflection (G : MultiDiGraph) (e : edge) : bool :=
  negb (list_mem (edge_v e, edge_u e) (edge_pairs G)).

(** ** Lengths and totals *)

(** The distance an edge carries under [tag], when it is a number. *)
Definition edge_length (tag : key) (e : edge) : option Q :=
  match dict_get tag (edge_data e) with
  | Some v =>
      match as_number v with
      | Ok q => Some q
      | Raise _ => None
      end
  | None => None
  end.

Definition Qsum (l : list Q) : Q := fold_right Qplus 0%Q l.

(** One walkable edge of 5000 m that takes 4000 s. *)
Definition walked : MultiDiGraph :=
  {| _node := [(1%Z, []); (2%Z, [])];
     _adj := [(1%Z, [(2%Z, [(0%Z, [(KStr "length", VNum 5000);
                                    (KStr "highway", VStr "residential");
                                    (KStr "time", VNum (180000000 # 45000));
                                    (KStr "mode", VStr "walk")])])]);
              (2%Z, [])] |}.

(** The edge is of road class [i]. *)
Definition in_class (i : value) (e : edge) : bool :=
  match core.highway_class (edge_data e) with
  | Ok c => py_eq c i
  | Raise _ => false
  end.

Definition length_or_zero (tag : key) (e : edge) : Q :=
  match edge_length tag e with
  | Some q => q
  | None => 0%Q
  end.

(** No two classes of the list compare equal. *)
Definition distinct_classes (l : list value) : Prop :=
  ForallOrdPairs (fun i j => py_eq i j = false) l.

(** Three roads of two classes. *)
Definition three_roads : MultiDiGraph :=
  {| _node := [(1%Z, []); (2%Z, []); (3%Z, [])];
     _adj := [(1%Z, [(2%Z, [(0%Z, [(KStr "length", VNum 100);
                                    (KStr "highway", VStr "primary")])]);
                     (3%Z, [(0%Z, [(KStr "length", VNum 30);
                                    (KStr "highway",
                                     VList [VStr "residential"; VStr "service"])])])]);
              (2%Z, [(3%Z, [(0%Z, [(KStr "length", VNum 50);
                                    (KStr "highway", VStr "primary")])])]);
              (3%Z, [])] |}.

(** ** Networks that cost the same in both directions *)

(** Every node pair that an edge joins is joined in the opposite direction
    too, and the weight of the pair, the least among its parallel edges,
    is the same in both directions. *)
Definition reflected_twins (G : MultiDiGraph) (weight : key) : bool :=
  forallb (fun un =>
    forallb (fun vk =>
      match dict_get (fst vk) (_adj G) with
      | Some nbrs' =>
          match dict_get (fst un) nbrs' with
          | Some keydict' =>
              match weight_function weight keydict',
                    weight_function weight (snd vk) with
              | Ok back, Ok forth => Qeq_bool back forth
              | _, _ => false
              end
          | None => false
          end
      | None => false
      end) (snd un)) (_adj G).

(** A whole number. *)
Definition whole (c : Q) : bool := Qeq_bool c (inject_Z (Qfloor c)).

(** The weights of the node pairs of the graph. *)
Definition pair_weights (G : MultiDiGraph) (weight : key) : list Q :=
  flat_map (fun un =>
    flat_map (fun vk =>
      match weight_function weight (snd vk) with
      | Ok c => [c]
      | Raise _ => []
      end) (snd un)) (_adj G).

(** The weights are whole numbers that add up to less than 2^53. The sums
    the search forms along a path are then whole numbers below 2^53,
    which Python's integers and doubles alike hold exactly, in whatever
    order they are added. *)
Definition exact_sums (G : MultiDiGraph) (weight : key) : bool :=
  forallb whole (pair_weights G weight)
  && Qltb (Qsum (pair_weights G weight)) (inject_Z (2 ^ 53)).

(** The road class of the edge is a string. *)
Definition string_class (e : edge) : bool :=
  match core.highway_class (edge_data e) with
  | Ok (VStr _) => true
  | _ => false
  end.

(** The distances under [tag] are whole numbers, not negative, that add
    up to less than 2^53: the totals of any of them are whole numbers
    below 2^53, which Python's integers and doubles alike hold exactly. *)
Definition exact_lengths (tag : key) (g : MultiDiGraph) : bool :=
  forallb (fun e =>
             match edge_length tag e with
             | Some q => whole q && Qle_bool 0 q
             | None => false
             end) (edges g)
  && Qltb (Qsum (map (length_or_zero tag) (edges g))) (inject_Z (2 ^ 53)).

(** What a row of the matrix holds for node [n]: the distance the search
    found, or the fail value. *)
Definition cell (fail_value : Q) (results_dict : dict node Q) (n : node) : Q :=
  match dict_get n results_dict with
  | Some c => c
  | None => fail_value
  end.

(** ** Slices of a way *)

(** The slices put together again: each slice after the first starts at
    the node the slice before it ends at. *)
Definition join_slices (slices : list (list string)) : list string :=
  match slices with
  | [] => []
  | first :: rest => first ++ flat_map (fun slice => tl slice) rest
  end.

(** What [Way.split] makes of way [self] as its [k]-th way [w]. *)
Definition split_way (dividers : dict string Z) (self : osm_parser.Way)
  (k : nat) (w : osm_parser.Way) : Prop :=
  osm_parser.id w
  = (osm_parser.id self ++ "-" ++ osm_parser.string_of_nat k)%string /\
  osm_parser.tags w = osm_parser.tags self /\
  Forall (no_divider dividers) (osm_parser.interior (osm_parser.nds w)) /\
  (2 <= length (osm_parser.nds self) -> 2 <= length (osm_parser.nds w)).

(** A document of three nodes and two ways that meet at node n2. *)
Definition crossing : list osm_parser.sax_event :=
  [ osm_parser.StartElement "node" [("id", "n1"); ("lon", "0"); ("lat", "0")];
    osm_parser.EndElement "node";
    osm_parser.StartElement "node" [("id", "n2"); ("lon", "0"); ("lat", "0")];
    osm_parser.EndElement "node";
    osm_parser.StartElement "node" [("id", "n3"); ("lon", "0"); ("lat", "0")];
    osm_parser.EndElement "node";
    osm_parser.StartElement "way" [("id", "w1")];
    osm_parser.StartElement "nd" [("ref", "n1")];
    osm_parser.EndElement "nd";
    osm_parser.StartElement "nd" [("ref", "n2")];
    osm_parser.EndElement "nd";
    osm_parser.StartElement "nd" [("ref", "n3")];
    osm_parser.EndElement "nd";
    osm_parser.EndElement "way";
    osm_parser.StartElement "way" [("id", "w2")];
    osm_parser.StartElement "nd" [("ref", "n2")];
    osm_parser.EndElement "nd";
    osm_parser.StartElement "nd" [("ref", "n1")];
    osm_parser.EndElement "nd";
    osm_parser.EndElement "way" ].

(** What [convert_network_to_time] leaves of edge [e] in [e']: the mode,
    the length in metres, and every attribute it does not write. *)
Definition converted (distance_tag graph_type : string) (factor : Q)
  (e e' : edge) : Prop :=
  same_edge e e' /\
  dict_get (KStr "mode") (edge_data e') = Some (VStr graph_type) /\
  (exists v len,
     dict_get (KStr distance_tag) (edge_data e) = Some v /\ as_number v = Ok len /\
     dict_get (KStr "length") (edge_data e') = Some (VNum (len * factor)%Q)) /\
  (forall k, k <> KStr "length" -> k <> KStr "time" -> k <> KStr "mode" ->
     dict_get k (edge_data e') = dict_get k (edge_data e)).

(** ** The graph of a document *)

(** [v] comes next after [u] somewhere in the list. *)
Definition consecutive (u v : string) (l : list string) : Prop :=
  exists l1 l2, l = l1 ++ u :: v :: l2.

(** Way [w] is a road that leads from [u] to [v]: it has a [highway] tag,
    and [v] comes next after [u] on it, or [u] after [v] on a way that is
    not tagged [oneway = yes]. *)
Definition road_link (w : osm_parser.Way) (u v : string) : Prop :=
  dict_mem "highway" (osm_parser.tags w) = true /\
  (consecutive u v (osm_parser.nds w) \/
   (consecutive v u (osm_parser.nds w) /\
    dict_get "oneway" (osm_parser.tags w) <> Some "yes")).

(** The edge data carries the id and the class of road [w]. *)
Definition edge_of_way (w : osm_parser.Way) (data : attrs) : Prop :=
  exists highway,
    dict_get "highway" (osm_parser.tags w) = Some highway /\
    dict_get (KStr "id") data = Some (VStr (osm_parser.id w)) /\
    dict_get (KStr "highway") data = Some (VStr highway).

(** The node data carries the coordinates and the id of node [n_id] of
    the document. *)
Definition node_of (osm : osm_parser.OSM) (n_id : string) (data : attrs) : Prop :=
  exists n,
    dict_get n_id (osm_parser.OSM_nodes osm) = Some (osm_parser.NodeElem n) /\
    dict_get (KStr "lat") data = Some (VNum (osm_parser.lat n)) /\
    dict_get (KStr "lon") data = Some (VNum (osm_parser.lon n)) /\
    dict_get (KStr "id") data = Some (VStr (osm_parser.Node_id n)).

(** [d] is what [haversine] makes of the coordinates of nodes [u] and [v]
    of the document. *)
Definition distance_between (haversine : Q -> Q -> Q -> Q -> result Q)
  (osm : osm_parser.OSM) (u v : string) (d : Q) : Prop :=
  exists n1 n2,
    dict_get u (osm_parser.OSM_nodes osm) = Some (osm_parser.NodeElem n1) /\
    dict_get v (osm_parser.OSM_nodes osm) = Some (osm_parser.NodeElem n2) /\
    haversine (osm_parser.lon n1) (osm_parser.lat n1)
      (osm_parser.lon n2) (osm_parser.lat n2) = Ok d.

(** The keys of the successor dictionary are distinct, and they are the
    keys of the node dictionary. *)
Definition graph_keys (G : networkx.DiGraph) : Prop :=
  NoDup (dict_keys (networkx._adj G)) /\
  forall n, dict_mem n (networkx._node G) = dict_mem n (networkx._adj G).

(** Node [n] is at one end of an edge. *)
Definition on_edge (G : networkx.DiGraph) (n : string) : Prop :=
  exists v, networkx.get_edge_data G n v <> None \/
            networkx.get_edge_data G v n <> None.

(** What the loop over the ways of [read_osm] keeps true of the graph,
    for the ways [S] it has gone through: every edge comes from one of
    them, and every link of theirs is an edge. *)
Record ways_sound (S : osm_parser.Way -> Prop) (G : networkx.DiGraph) : Prop := {
  inv_keys : graph_keys G;
  inv_on_edge : forall n, dict_mem n (networkx._node G) = true -> on_edge G n;
  inv_edge_way :
    forall u v data, networkx.get_edge_data G u v = Some data ->
      exists w, S w /\ road_link w u v /\ edge_of_way w data
}.

Definition ways_complete (S : osm_parser.Way -> Prop) (G : networkx.DiGraph) : Prop :=
  forall w u v, S w -> road_link w u v -> networkx.get_edge_data G u v <> None.

(** The coordinate [k] of node [n], as [estimate_length] reads it. *)
Definition coordinate (G : networkx.DiGraph) (n : string) (k : key) (x : Q) : Prop :=
  exists v, osm_parser.node_item G n k = Ok v /\ as_number v = Ok x.

(** [d] is what [haversine] makes of the coordinates the nodes [u] and
    [v] have in the graph. *)
Definition measured (haversine : Q -> Q -> Q -> Q -> result Q)
  (G : networkx.DiGraph) (u v : string) (d : Q) : Prop :=
  exists lon1 lat1 lon2 lat2,
    coordinate G u (KStr "lon") lon1 /\ coordinate G u (KStr "lat") lat1 /\
    coordinate G v (KStr "lon") lon2 /\ coordinate G v (KStr "lat") lat2 /\
    haversine lon1 lat1 lon2 lat2 = Ok d.

(** What the loop over the edges of [read_osm] keeps true of the graph
    [G], which starts as [G0], for the pairs [D] it has gone through. *)
Record lengths_inv (haversine : Q -> Q -> Q -> Q -> result Q)
  (G0 : networkx.DiGraph) (D : string * string -> Prop) (G : networkx.DiGraph)
  : Prop := {
  inv_nodes : networkx._node G = networkx._node G0;
  inv_graph_keys : graph_keys G;
  inv_data :
    forall u v data, networkx.get_edge_data G u v = Some data ->
      exists data0,
        networkx.get_edge_data G0 u v = Some data0 /\
        forall k, k <> KStr "length" -> dict_get k data = dict_get k data0;
  inv_edges :
    forall u v, networkx.get_edge_data G0 u v <> None ->
      networkx.get_edge_data G u v <> None;
  inv_lengths :
    forall u v data, D (u, v) -> networkx.get_edge_data G u v = Some data ->
      exists d, measured haversine G0 u v d /\
                dict_get (KStr "length") data = Some (VNum d)
}.

(** [float] on the three numerals of the example. *)
Definition small_float (s : string) : result Q :=
  if String.eqb s "0" then Ok 0%Q
  else if String.eqb s "3" then Ok 3%Q
  else if String.eqb s "4" then Ok 4%Q
  else Raise (ValueError "could not convert string to float").

(** A distance that needs no trigonometry: the square of the straight
    line. *)
Definition squared_distance (lon1 lat1 lon2 lat2 : Q) : result Q :=
  Ok ((lon2 - lon1) * (lon2 - lon1) + (lat2 - lat1) * (lat2 - lat1))%Q.

(** A one-way residential street from n1 over n2 to n3, a primary road
    between n3 and n1, a footpath without a [highway] tag, and a node n4
    that only the footpath uses. *)
Definition two_roads : list osm_parser.sax_event :=
  [ osm_parser.StartElement "node" [("id", "n1"); ("lon", "0"); ("lat", "0")];
    osm_parser.EndElement "node";
    osm_parser.StartElement "node" [("id", "n2"); ("lon", "3"); ("lat", "0")];
    osm_parser.EndElement "node";
    osm_parser.StartElement "node" [("id", "n3"); ("lon", "3"); ("lat", "4")];
    osm_parser.EndElement "node";
    osm_parser.StartElement "node" [("id", "n4"); ("lon", "0"); ("lat", "4")];
    osm_parser.EndElement "node";
    osm_parser.StartElement "way" [("id", "w1")];
    osm_parser.StartElement "nd" [("ref", "n1")];
    osm_parser.EndElement "nd";
    osm_parser.StartElement "nd" [("ref", "n2")];
    osm_parser.EndElement "nd";
    osm_parser.StartElement "nd" [("ref", "n3")];
    osm_parser.EndElement "nd";
    osm_parser.StartElement "tag" [("k", "highway"); ("v", "residential")];
    osm_parser.EndElement "tag";
    osm_parser.StartElement "tag" [("k", "oneway"); ("v", "yes")];
    osm_parser.EndElement "tag";
    osm_parser.EndElement "way";
    osm_parser.StartElement "way" [("id", "w2")];
    osm_parser.StartElement "nd" [("ref", "n3")];
    osm_parser.EndElement "nd";
    osm_parser.StartElement "nd" [("ref", "n1")];
    osm_parser.EndElement "nd";
    osm_parser.StartElement "tag" [("k", "highway"); ("v", "primary")];
    osm_parser.EndElement "tag";
    osm_parser.EndElement "way";
    osm_parser.StartElement "way" [("id", "w3")];
    osm_parser.StartElement "nd" [("ref", "n3")];
    osm_parser.EndElement "nd";
    osm_parser.StartElement "nd" [("ref", "n4")];
    osm_parser.EndElement "nd";
    osm_parser.EndElement "way" ].

(** The graph of the roads of [two_roads], with [squared_distance] for
    the lengths. *)
Definition two_roads_graph : networkx.DiGraph :=
  {| networkx._node :=
       [("n1", [(KStr "lat", VNum 0); (KStr "lon", VNum 0); (KStr "id", VStr "n1")]);
        ("n2", [(KStr "lat", VNum 0); (KStr "lon", VNum 3); (KStr "id", VStr "n2")]);
        ("n3", [(KStr "lat", VNum 4); (KStr "lon", VNum 3); (KStr "id", VStr "n3")])];
     networkx._adj :=
       [("n1", [("n2", [(KStr "id", VStr "w1-0");
                        (KStr "highway", VStr "residential");
                        (KStr "length", VNum 9)]);
                ("n3", [(KStr "id", VStr "w2-0");
                        (KStr "highway", VStr "primary");
                        (KStr "length", VNum 25)])]);
        ("n2", [("n3", [(KStr "id", VStr "w1-0");
                        (KStr "highway", VStr "residential");
                        (KStr "length", VNum 16)])]);
        ("n3", [("n1", [(KStr "id", VStr "w2-0");
                        (KStr "highway", VStr "primary");
                        (KStr "length", VNum 25)])])] |}.

(** ** Documents and their events *)

(** An element of a document: a node with its coordinates as written, or
    a way with its node references, and the tags of either. *)
Inductive item : Type :=
| NodeItem (i lon lat : string) (tags : list (string * string))
| WayItem (i : string) (refs : list string) (tags : list (string * string)).

Definition tag_events (tags : list (string * string)) : list osm_parser.sax_event :=
  flat_map (fun kv => [ osm_parser.StartElement "tag" [("k", fst kv); ("v", snd kv)];
                        osm_parser.EndElement "tag" ]) tags.

Definition nd_events (refs : list string) : list osm_parser.sax_event :=
  flat_map (fun r => [ osm_parser.StartElement "nd" [("ref", r)];
                       osm_parser.EndElement "nd" ]) refs.

(** The events the SAX parser reports for an element and its children. *)
Definition item_events (it : item) : list osm_parser.sax_event :=
  match it with
  | NodeItem i lon lat tags =>
      osm_parser.StartElement "node" [("id", i); ("lon", lon); ("lat", lat)]
      :: tag_events tags ++ [osm_parser.EndElement "node"]
  | WayItem i refs tags =>
      osm_parser.StartElement "way" [("id", i)]
      :: nd_events refs ++ tag_events tags ++ [osm_parser.EndElement "way"]
  end.

Definition document_events (doc : list item) : list osm_parser.sax_event :=
  flat_map item_events doc.

(** The object an element stands for. *)
Definition item_element (py_float : string -> result Q) (it : item)
  : result osm_parser.element :=
  match it with
  | NodeItem i lon lat tags =>
      x <- py_float lon ;;
      y <- py_float lat ;;
      Ok (osm_parser.NodeElem
            {| osm_parser.Node_id := i; osm_parser.lon := x; osm_parser.lat := y;
               osm_parser.Node_tags := dict_update [] tags |})
  | WayItem i refs tags =>
      Ok (osm_parser.WayElem
            {| osm_parser.id := i; osm_parser.nds := refs;
               osm_parser.tags := dict_update [] tags |})
  end.

(** An element taken in as a whole: its object is the newest and the
    current one, and its id refers to it. *)
Definition load_item (py_float : string -> result Q) (h : osm_parser.handler)
  (it : item) : result osm_parser.handler :=
  e <- item_element py_float it ;;
  let r := length (osm_parser.objects h) in
  Ok {| osm_parser.objects := osm_parser.objects h ++ [e];
        osm_parser.currElem := Some r;
        osm_parser.nodes :=
          match it with
          | NodeItem i _ _ _ => dict_set i r (osm_parser.nodes h)
          | WayItem _ _ _ => osm_parser.nodes h
          end;
        osm_parser.ways :=
          match it with
          | NodeItem _ _ _ _ => osm_parser.ways h
          | WayItem i _ _ => dict_set i r (osm_parser.ways h)
          end |}.

(** What the handler does on one event. *)
Definition handle (py_float : string -> result Q) (h : osm_parser.handler)
  (ev : osm_parser.sax_event) : result osm_parser.handler :=
  match ev with
  | osm_parser.StartElement name attrs => osm_parser.startElement py_float h name attrs
  | osm_parser.EndElement name => osm_parser.endElement h name
  end.

(** The tags that the [tag] children of an element write into its
    object. *)
Definition with_tags (tags : list (string * string)) (e : osm_parser.element)
  : osm_parser.element :=
  fold_left (fun e kv => osm_parser.set_tag (fst kv) (snd kv) e) tags e.

(** * Properties *)

(** ** The result monad and its traversals *)

Lemma bind_Ok {A B : Type} (m : result A) (f : A -> result B) (b : B) :
  bind m f = Ok b -> exists a, m = Ok a /\ f a = Ok b.
Proof.
  destruct m as [ a | e ]; simpl; [ | discriminate ].
  intros Hf. exists a. split; [ reflexivity | exact Hf ].
Qed.

Tactic Notation "bind_inv" hyp(H) :=
  let a := fresh "a" in
  let Ha := fresh "H" a in
  apply bind_Ok in H; destruct H as (a & Ha & H).

Tactic Notation "bind_inv" hyp(H) "as" ident(x) ident(Hx) :=
  apply bind_Ok in H; destruct H as (x & Hx & H).

Lemma mapM_Forall2 {A B : Type} (f : A -> result B) (l : list A) (l' : list B) :
  mapM f l = Ok l' -> Forall2 (fun a b => f a = Ok b) l l'.
Proof.
  revert l'. induction l as [ | a l IH ]; intros l' Hm; simpl in Hm.
  - injection Hm as <-. constructor.
  - bind_inv Hm. bind_inv Hm. injection Hm as <-.
    constructor; [ assumption | apply IH; assumption ].
Qed.

(** The exceptions of the traversals come from the function they run. *)
Lemma mapM_Raise {A B : Type} (f : A -> result B) (l : list A) (e : exn) :
  mapM f l = Raise e -> exists a, In a l /\ f a = Raise e.
Proof.
  induction l as [ | a l IH ]; simpl; [ discriminate | ].
  destruct (f a) as [ b | e0 ] eqn:Hfa; simpl.
  - destruct (mapM f l) as [ bs | e1 ]; simpl; [ discriminate | ].
    intros Hm. destruct (IH Hm) as (a' & Ha' & Hfa').
    exists a'. split; [ right; exact Ha' | exact Hfa' ].
  - intros Hm. injection Hm as <-. exists a. split; [ left; reflexivity | exact Hfa ].
Qed.

Lemma foldM_Raise {A S : Type} (f : S -> A -> result S) (l : list A) (s : S)
  (e : exn) :
  foldM f l s = Raise e -> exists s' a, In a l /\ f s' a = Raise e.
Proof.
  revert s. induction l as [ | a l IH ]; intros s; simpl; [ discriminate | ].
  destruct (f s a) as [ s1 | e0 ] eqn:Hfa; simpl.
  - intros Hm. destruct (IH _ Hm) as (s' & a' & Ha' & Hfa').
    exists s', a'. split; [ right; exact Ha' | exact Hfa' ].
  - intros Hm. injection Hm as <-. exists s, a. split; [ left; reflexivity | exact Hfa ].
Qed.

Lemma mapM_length {A B : Type} (f : A -> result B) (l : list A) (l' : list B) :
  mapM f l = Ok l' -> length l' = length l.
Proof.
  intros Hm. apply mapM_Forall2 in Hm. symmetry. eapply Forall2_length. exact Hm.
Qed.

Lemma dict_mapM_Forall2 {K V W : Type} (f : K -> V -> result W)
  (d : dict K V) (d' : dict K W) :
  dict_mapM f d = Ok d' ->
  Forall2 (fun kv kw => fst kw = fst kv /\ f (fst kv) (snd kv) = Ok (snd kw)) d d'.
Proof.
  unfold dict_mapM. intros Hm. apply mapM_Forall2 in Hm.
  induction Hm as [ | kv kw d d' Hkv _ IH ]; constructor; [ | exact IH ].
  bind_inv Hkv. injection Hkv as <-. simpl. split; [ reflexivity | assumption ].
Qed.

Lemma Forall2_flat_map {A A' B B' : Type} (R : A -> A' -> Prop) (S : B -> B' -> Prop)
  (g : A -> list B) (g' : A' -> list B') (l : list A) (l' : list A') :
  Forall2 R l l' ->
  (forall a a', R a a' -> Forall2 S (g a) (g' a')) ->
  Forall2 S (flat_map g l) (flat_map g' l').
Proof.
  intros Hl Hg. induction Hl as [ | a a' l l' Ha _ IH ]; simpl.
  - constructor.
  - apply Forall2_app; [ apply Hg; exact Ha | exact IH ].
Qed.

Lemma Forall2_map {A A' B B' : Type} (R : A -> A' -> Prop) (S : B -> B' -> Prop)
  (g : A -> B) (g' : A' -> B') (l : list A) (l' : list A') :
  Forall2 R l l' ->
  (forall a a', R a a' -> S (g a) (g' a')) ->
  Forall2 S (map g l) (map g' l').
Proof.
  intros Hl Hg. induction Hl as [ | a a' l l' Ha _ IH ]; simpl; constructor; auto.
Qed.

Lemma mapM_total {A B : Type} (f : A -> result B) (l : list A) :
  (forall a, In a l -> exists b, f a = Ok b) -> exists l', mapM f l = Ok l'.
Proof.
  induction l as [ | a l IH ]; intros Hf; simpl.
  - exists []. reflexivity.
  - destruct (Hf a (or_introl eq_refl)) as (b & ->).
    destruct IH as (l' & ->); [ intros a' Ha'; apply Hf; right; exact Ha' | ].
    simpl. eexists. reflexivity.
Qed.

Lemma dict_mapM_total {K V W : Type} (f : K -> V -> result W) (d : dict K V) :
  (forall kv, In kv d -> exists w, f (fst kv) (snd kv) = Ok w) ->
  exists d', dict_mapM f d = Ok d'.
Proof.
  intros Hf. unfold dict_mapM. apply mapM_total. intros kv Hkv.
  destruct (Hf kv Hkv) as (w & ->). simpl. eexists. reflexivity.
Qed.

(** ** Comparison of rationals *)

Lemma Qltb_true (x y : Q) : Qltb x y = true -> ~ (y <= x)%Q.
Proof.
  unfold Qltb. intros Hlt Hle. apply Qle_bool_iff in Hle.
  rewrite Hle in Hlt. discriminate.
Qed.

Lemma Qltb_false (x y : Q) : Qltb x y = false -> (y <= x)%Q.
Proof.
  unfold Qltb. intros Hlt. apply Qle_bool_iff.
  destruct (Qle_bool y x); [ reflexivity | discriminate ].
Qed.

(** *** Lists read by index *)

Lemma map_nth_seq {A : Type} (d : A) (l : list A) :
  map (fun j => nth j l d) (seq 0 (length l)) = l.
Proof.
  induction l as [ | a l IH ]; [ reflexivity | ].
  simpl. f_equal. rewrite <- seq_shift, map_map. exact IH.
Qed.

Lemma Forall2_by_nth {A B : Type} (R : A -> B -> Prop) (da : A) (db : B)
  (l : list A) (l' : list B) :
  length l = length l' ->
  (forall i, i < length l -> R (nth i l da) (nth i l' db)) ->
  Forall2 R l l'.
Proof.
  revert l'. induction l as [ | a l IH ]; intros [ | b l' ] Hlen Hnth;
    simpl in Hlen; try discriminate; constructor.
  - apply (Hnth 0). simpl. lia.
  - apply IH; [ lia | ]. intros i Hi. apply (Hnth (S i)). simpl. lia.
Qed.

Lemma Forall2_nth_rel {A B : Type} (R : A -> B -> Prop) (da : A) (db : B)
  (l : list A) (l' : list B) (i : nat) :
  Forall2 R l l' -> i < length l -> R (nth i l da) (nth i l' db).
Proof.
  intros HF. revert i. induction HF as [ | a b l l' Hab _ IH ]; intros i Hi;
    simpl in Hi; [ lia | ].
  destruct i as [ | i ]; simpl; [ exact Hab | apply IH; lia ].
Qed.

Lemma Forall2_impl_In {A B : Type} (R S : A -> B -> Prop) (l : list A) (l' : list B) :
  Forall2 R l l' ->
  (forall a b, In a l -> R a b -> S a b) ->
  Forall2 S l l'.
Proof.
  induction 1 as [ | a b l l' Hab _ IH ]; intros HRS; constructor.
  - apply HRS; [ left; reflexivity | exact Hab ].
  - apply IH. intros a' b' Hin. apply HRS. right. exact Hin.
Qed.

Lemma Forall2_nth_error {A B : Type} (R : A -> B -> Prop) (l : list A)
  (l' : list B) (i : nat) (a : A) :
  Forall2 R l l' -> nth_error l i = Some a ->
  exists b, nth_error l' i = Some b /\ R a b.
Proof.
  intros HF. revert i. induction HF as [ | x y l l' Hxy _ IH ]; intros i Hi.
  - destruct i; discriminate.
  - destruct i as [ | i ]; simpl in *.
    + injection Hi as <-. exists y. auto.
    + apply IH. exact Hi.
Qed.

(** ** Dictionaries *)

Section DictFacts.
Context {K V : Type} `{EqDec K}.

Lemma dict_get_set_eq (k : K) (v : V) (d : dict K V) :
  dict_get k (dict_set k v d) = Some v.
Proof.
  induction d as [ | [k' v'] d IH ]; simpl.
  - destruct (eq_dec k k); [ reflexivity | congruence ].
  - destruct (eq_dec k k') as [ Hk | Hk ]; simpl.
    + destruct (eq_dec k k'); [ reflexivity | congruence ].
    + destruct (eq_dec k k'); [ congruence | exact IH ].
Qed.

Lemma dict_get_set_neq (k k' : K) (v : V) (d : dict K V) :
  k <> k' -> dict_get k' (dict_set k v d) = dict_get k' d.
Proof.
  intros Hne. induction d as [ | [k0 v0] d IH ]; simpl.
  - destruct (eq_dec k' k); [ congruence | reflexivity ].
  - destruct (eq_dec k k0) as [ Hk | Hk ]; simpl.
    + subst k0. destruct (eq_dec k' k); [ congruence | reflexivity ].
    + destruct (eq_dec k' k0); [ reflexivity | exact IH ].
Qed.

Lemma dict_get_In (k : K) (v : V) (d : dict K V) :
  dict_get k d = Some v -> In (k, v) d.
Proof.
  induction d as [ | [k' v'] d IH ]; simpl; [ discriminate | ].
  destruct (eq_dec k k') as [ <- | Hk ].
  - intros Hv. injection Hv as <-. left. reflexivity.
  - intros Hv. right. apply IH. exact Hv.
Qed.

Lemma In_dict_mem (k : K) (v : V) (d : dict K V) :
  In (k, v) d -> dict_mem k d = true.
Proof.
  unfold dict_mem. induction d as [ | [k' v'] d IH ]; simpl; [ tauto | ].
  intros [ Heq | Hin ].
  - injection Heq as -> ->. destruct (eq_dec k k); [ reflexivity | congruence ].
  - destruct (eq_dec k k'); [ reflexivity | apply IH; exact Hin ].
Qed.

Lemma dict_mem_In (k : K) (d : dict K V) :
  dict_mem k d = true -> exists v, dict_get k d = Some v /\ In (k, v) d.
Proof.
  unfold dict_mem. destruct (dict_get k d) as [ v | ] eqn:Hg; [ | discriminate ].
  intros _. exists v. split; [ reflexivity | apply dict_get_In; exact Hg ].
Qed.

(** What [d[k] = v] leaves in the dictionary. *)
Lemma In_dict_set (k : K) (v : V) (d : dict K V) (k' : K) (v' : V) :
  In (k', v') (dict_set k v d) -> (k' = k /\ v' = v) \/ In (k', v') d.
Proof.
  induction d as [ | [k0 v0] d IH ]; simpl.
  - intros [ Heq | [] ]. injection Heq as <- <-. left. split; reflexivity.
  - destruct (eq_dec k k0) as [ <- | Hk ]; simpl.
    + intros [ Heq | Hin ]; [ injection Heq as <- <-; left; split; reflexivity | right; right; exact Hin ].
    + intros [ Heq | Hin ]; [ right; left; exact Heq | ].
      destruct (IH Hin) as [ Hkv | Hd ]; [ left; exact Hkv | right; right; exact Hd ].
Qed.

Lemma In_dict_set_new (k : K) (v : V) (d : dict K V) : In (k, v) (dict_set k v d).
Proof.
  induction d as [ | [k0 v0] d IH ]; simpl.
  - left. reflexivity.
  - destruct (eq_dec k k0) as [ <- | Hk ]; simpl; [ left; reflexivity | right; exact IH ].
Qed.

Lemma In_dict_set_other (k : K) (v : V) (d : dict K V) (k' : K) (v' : V) :
  k' <> k -> In (k', v') d -> In (k', v') (dict_set k v d).
Proof.
  intros Hne. induction d as [ | [k0 v0] d IH ]; simpl; [ tauto | ].
  destruct (eq_dec k k0) as [ <- | Hk ]; simpl.
  - intros [ Heq | Hin ]; [ injection Heq as <- <-; congruence | right; exact Hin ].
  - intros [ Heq | Hin ]; [ left; exact Heq | right; apply IH; exact Hin ].
Qed.

(** The one entry that [d[k] = v] can take away is the one [d[k]] reads. *)
Lemma In_dict_set_cases (k : K) (v : V) (d : dict K V) (k' : K) (v' : V) :
  In (k', v') d ->
  In (k', v') (dict_set k v d) \/ (k' = k /\ dict_get k d = Some v').
Proof.
  induction d as [ | [k0 v0] d IH ]; simpl; [ tauto | ].
  destruct (eq_dec k k0) as [ <- | Hk ]; simpl.
  - intros [ Heq | Hin ]; [ | left; right; exact Hin ].
    injection Heq as <- <-. right. split; reflexivity.
  - intros [ Heq | Hin ]; [ left; left; exact Heq | ].
    destruct (IH Hin) as [ Hs | Hg ]; [ left; right; exact Hs | right; exact Hg ].
Qed.

Lemma dict_set_nonempty (k : K) (v : V) (d : dict K V) : dict_set k v d <> [].
Proof.
  destruct d as [ | [k0 v0] d ]; simpl; [ discriminate | ].
  destruct (eq_dec k k0); discriminate.
Qed.

Lemma dict_get_set_cases (k k' : K) (v v' : V) (d : dict K V) :
  dict_get k' (dict_set k v d) = Some v' ->
  (k' = k /\ v' = v) \/ dict_get k' d = Some v'.
Proof.
  destruct (eq_dec k k') as [ <- | Hne ].
  - rewrite dict_get_set_eq. intros Hv. injection Hv as <-. left. split; reflexivity.
  - rewrite dict_get_set_neq by exact Hne. intros Hv. right. exact Hv.
Qed.

Lemma dict_mem_set (k k' : K) (v : V) (d : dict K V) :
  dict_mem k' (dict_set k v d) = eqb k' k || dict_mem k' d.
Proof.
  unfold dict_mem, eqb. destruct (eq_dec k' k) as [ -> | Hne ].
  - rewrite dict_get_set_eq. reflexivity.
  - rewrite dict_get_set_neq by congruence. reflexivity.
Qed.
End DictFacts.

Lemma dict_remove_shorter {K V : Type} `{EqDec K} (k : K) (d : dict K V) :
  dict_mem k d = true -> S (length (dict_remove k d)) = length d.
Proof.
  unfold dict_mem. induction d as [ | [k' v] d IH ]; simpl; [ discriminate | ].
  destruct (eq_dec k k'); [ reflexivity | ].
  intros Hm. simpl. rewrite IH by exact Hm. reflexivity.
Qed.

Lemma list_mem_In {A : Type} `{EqDec A} (x : A) (l : list A) :
  list_mem x l = true <-> In x l.
Proof.
  unfold list_mem. rewrite existsb_exists. split.
  - intros (y & Hy & Hxy). unfold eqb in Hxy.
    destruct (eq_dec x y) as [ -> | ]; [ exact Hy | discriminate ].
  - intros Hx. exists x. split; [ exact Hx | ].
    unfold eqb. destruct (eq_dec x x); [ reflexivity | congruence ].
Qed.

(** ** Loops over the edges of a graph *)

Lemma map_edge_data_edges (f : node -> node -> attrs -> result attrs)
  (G G' : MultiDiGraph) :
  map_edge_data f G = Ok G' ->
  _node G' = _node G /\
  Forall2 (fun e e' =>
             same_edge e e' /\ f (edge_u e) (edge_v e) (edge_data e) = Ok (edge_data e'))
    (edges G) (edges G').
Proof.
  unfold map_edge_data. intros Hm. bind_inv Hm. injection Hm as <-. simpl.
  split; [ reflexivity | ].
  apply dict_mapM_Forall2 in Ha. unfold edges. simpl.
  eapply Forall2_flat_map; [ exact Ha | ].
  intros [u nbrs] [u' nbrs'] [Hu Hn]. simpl in *. subst u'.
  apply dict_mapM_Forall2 in Hn.
  eapply Forall2_flat_map; [ exact Hn | ].
  intros [v kd] [v' kd'] [Hv Hk]. simpl in *. subst v'.
  apply dict_mapM_Forall2 in Hk.
  eapply Forall2_map; [ exact Hk | ].
  intros [k d] [k' d'] [Hkk Hd]. simpl in *. subst k'.
  unfold same_edge, edge_u, edge_v, edge_key, edge_data. simpl. auto.
Qed.

Lemma In_edges (G : MultiDiGraph) (u v : node) (k : Z) (data : attrs)
  (nbrs : dict node (dict Z attrs)) (keydict : dict Z attrs) :
  In (u, nbrs) (_adj G) -> In (v, keydict) nbrs -> In (k, data) keydict ->
  In (u, v, k, data) (edges G).
Proof.
  intros Hu Hv Hk. unfold edges.
  apply in_flat_map. exists (u, nbrs). split; [ exact Hu | ].
  apply in_flat_map. exists (v, keydict). split; [ exact Hv | ].
  apply in_map_iff. exists (k, data). split; [ reflexivity | exact Hk ].
Qed.

(** A loop over the edges whose body succeeds on every edge succeeds. *)
Lemma map_edge_data_total (f : node -> node -> attrs -> result attrs)
  (G : MultiDiGraph) :
  (forall e, In e (edges G) ->
     exists data', f (edge_u e) (edge_v e) (edge_data e) = Ok data') ->
  exists G', map_edge_data f G = Ok G'.
Proof.
  intros Hf. unfold map_edge_data.
  match goal with
  | |- exists G', bind ?m _ = _ => assert (Hadj : exists adj, m = Ok adj)
  end.
  { apply dict_mapM_total. intros [u nbrs] Hu. simpl.
    apply dict_mapM_total. intros [v kd] Hv. simpl.
    apply dict_mapM_total. intros [k data] Hk. simpl.
    exact (Hf _ (In_edges G u v k data nbrs kd Hu Hv Hk)). }
  destruct Hadj as (adj & ->). simpl. eexists. reflexivity.
Qed.

(** ** convert_network_to_time *)

Lemma truediv_Ok (x y q : Q) :
  truediv x y = Ok q -> ~ (y == 0)%Q /\ q = (x / y)%Q.
Proof.
  unfold truediv. destruct (Qeq_bool y 0) eqn:Hy; [ discriminate | ].
  intros Hq. injection Hq as <-. split; [ | reflexivity ].
  intros Hz. apply Qeq_bool_iff in Hz. congruence.
Qed.

Lemma time_key_kept (data : attrs) (t m : value) :
  dict_get (KStr "time")
    (dict_set (KStr "mode") m (dict_set (KStr "time") t data)) = Some t.
Proof.
  rewrite dict_get_set_neq by discriminate. apply dict_get_set_eq.
Qed.

(** *** The loop over the edges, on Python's numbers *)

Lemma py_map_edge_data_edges (f : node -> node -> pycore.attrs -> result pycore.attrs)
  (G G' : pycore.MultiDiGraph) :
  pycore.map_edge_data f G = Ok G' ->
  pycore._node G' = pycore._node G /\
  Forall2 (fun e e' =>
             same_place e e' /\
             f (pycore.edge_u e) (pycore.edge_v e) (pycore.edge_data e)
             = Ok (pycore.edge_data e'))
    (pycore.edges G) (pycore.edges G').
Proof.
  unfold pycore.map_edge_data. intros Hm. bind_inv Hm. injection Hm as <-. simpl.
  split; [ reflexivity | ].
  apply dict_mapM_Forall2 in Ha. unfold pycore.edges. simpl.
  eapply Forall2_flat_map; [ exact Ha | ].
  intros [u nbrs] [u' nbrs'] [Hu Hn]. simpl in *. subst u'.
  apply dict_mapM_Forall2 in Hn.
  eapply Forall2_flat_map; [ exact Hn | ].
  intros [v kd] [v' kd'] [Hv Hk]. simpl in *. subst v'.
  apply dict_mapM_Forall2 in Hk.
  eapply Forall2_map; [ exact Hk | ].
  intros [k d] [k' d'] [Hkk Hd]. simpl in *. subst k'.
  unfold same_place, pycore.edge_u, pycore.edge_v, pycore.edge_key,
    pycore.edge_data. simpl. auto.
Qed.

Lemma py_In_edges (G : pycore.MultiDiGraph) (u v : node) (k : Z)
  (data : pycore.attrs) (nbrs : dict node (dict Z pycore.attrs))
  (keydict : dict Z pycore.attrs) :
  In (u, nbrs) (pycore._adj G) -> In (v, keydict) nbrs -> In (k, data) keydict ->
  In (u, v, k, data) (pycore.edges G).
Proof.
  intros Hu Hv Hk. unfold pycore.edges.
  apply in_flat_map. exists (u, nbrs). split; [ exact Hu | ].
  apply in_flat_map. exists (v, keydict). split; [ exact Hv | ].
  apply in_map_iff. exists (k, data). split; [ reflexivity | exact Hk ].
Qed.

Lemma py_map_edge_data_total (f : node -> node -> pycore.attrs -> result pycore.attrs)
  (G : pycore.MultiDiGraph) :
  (forall e, In e (pycore.edges G) ->
     exists data',
       f (pycore.edge_u e) (pycore.edge_v e) (pycore.edge_data e) = Ok data') ->
  exists G', pycore.map_edge_data f G = Ok G'.
Proof.
  intros Hf. unfold pycore.map_edge_data.
  match goal with
  | |- exists G', bind ?m _ = _ => assert (Hadj : exists adj, m = Ok adj)
  end.
  { apply dict_mapM_total. intros [u nbrs] Hu. simpl.
    apply dict_mapM_total. intros [v kd] Hv. simpl.
    apply dict_mapM_total. intros [k data] Hk. simpl.
    exact (Hf _ (py_In_edges G u v k data nbrs kd Hu Hv Hk)). }
  destruct Hadj as (adj & ->). simpl. eexists. reflexivity.
Qed.

(** *** The operators *)

(** A quotient is a float. *)
Lemma truediv_float (x y q : py.object) :
  py.truediv x y = Ok q -> exists f, q = py.PyFloat f.
Proof.
  unfold py.truediv.
  destruct (py.as_number x) as [ [ a | f ] | ]; [ | | discriminate ];
    (destruct (py.as_number y) as [ [ b | g ] | ]; [ | | discriminate ]);
    intros Hq; bind_inv Hq as r Hr;
    try (bind_inv Hq as r' Hr';
         match type of Hq with
         | (if ?c then _ else _) = _ => destruct c; [ discriminate | ]
         end);
    injection Hq as <-; eexists; reflexivity.
Qed.

Lemma float_of_int_60 : py.float_of_int 60 = Ok 60%float.
Proof. vm_compute. reflexivity. Qed.

Lemma float_of_int_1000 : py.float_of_int 1000 = Ok 1000%float.
Proof. vm_compute. reflexivity. Qed.

(** A float times the int 60. *)
Lemma mul_float_60 (f : float) :
  py.mul (py.PyFloat f) (py.PyInt 60) = Ok (py.PyFloat (f * 60)%float).
Proof.
  cbv [py.mul py.as_number py.to_float]. rewrite float_of_int_60. reflexivity.
Qed.

(** The travel time is a float. *)
Lemma travel_time_float (metres speed t : py.object) :
  travel_time metres speed = Ok t -> exists f, t = py.PyFloat f.
Proof.
  unfold travel_time. intros Ht.
  bind_inv Ht as km Hkm. bind_inv Ht as kmph Hkmph.
  bind_inv Ht as minutes Hmin.
  apply truediv_float in Hkmph as (f & ->).
  rewrite mul_float_60 in Hmin. injection Hmin as <-.
  rewrite mul_float_60 in Ht. injection Ht as <-.
  eexists. reflexivity.
Qed.

(** On floats at a speed other than zero the travel time is the
    expression of line 735 and 736 in doubles. *)
Lemma travel_time_floats (metres speed : float) :
  (speed =? 0)%float = false ->
  travel_time (py.PyFloat metres) (py.PyFloat speed)
  = Ok (py.PyFloat (metres / 1000 / speed * 60 * 60)%float).
Proof.
  intros Hspeed. unfold travel_time.
  assert (Hkm : py.truediv (py.PyFloat metres) (py.PyInt 1000)
                = Ok (py.PyFloat (metres / 1000)%float)).
  { cbv [py.truediv py.as_number py.to_float py.is_zero].
    rewrite float_of_int_1000. reflexivity. }
  rewrite Hkm. cbn [bind].
  assert (Hkmph : py.truediv (py.PyFloat (metres / 1000)%float) (py.PyFloat speed)
                  = Ok (py.PyFloat (metres / 1000 / speed)%float)).
  { cbv [py.truediv py.as_number py.to_float py.is_zero bind].
    rewrite Hspeed. reflexivity. }
  rewrite Hkmph. cbn [bind].
  rewrite mul_float_60. cbn [bind]. apply mul_float_60.
Qed.

Lemma py_time_key_kept (data : pycore.attrs) (t m : py.object) :
  dict_get (KStr "time")
    (dict_set (KStr "mode") m (dict_set (KStr "time") t data)) = Some t.
Proof.
  rewrite dict_get_set_neq by discriminate. apply dict_get_set_eq.
Qed.

(** *** The time of an edge *)

(** The loop body in drive mode: the time it writes. *)
Lemma convert_edge_drive (distance_tag road_col : string)
  (speed_dict : option (dict string py.object)) (walk_speed factor : py.object)
  (default : option string) (data data' : pycore.attrs) :
  pycore.convert_edge distance_tag "drive" road_col speed_dict walk_speed factor
    default data = Ok data' ->
  exists len metres cls speed t,
    dict_get (KStr distance_tag) data = Some len /\
    py.mul len factor = Ok metres /\
    road_class road_col (dict_set (KStr "length") metres data) = Some cls /\
    class_speed (speed_table speed_dict) default cls = Some speed /\
    travel_time metres speed = Ok (py.PyFloat t) /\
    dict_get (KStr "time") data' = Some (py.PyFloat t).
Proof.
  unfold pycore.convert_edge. intros Hc.
  bind_inv Hc as len Hlen. bind_inv Hc as metres Hmetres.
  unfold getitem in Hlen.
  destruct (dict_get (KStr distance_tag) data) as [ len0 | ] eqn:Hlen0;
    simpl in Hlen; [ injection Hlen as -> | discriminate ].
  simpl String.eqb in Hc. cbv iota in Hc.
  bind_inv Hc as speed Hspeed.
  bind_inv Hspeed as hc0 Hhc0. bind_inv Hspeed as cls Hcls.
  bind_inv Hspeed as found Hfound.
  bind_inv Hc as km Hkm. bind_inv Hc as kmph Hkmph.
  bind_inv Hc as minutes Hmin. bind_inv Hc as in_seconds Hsec.
  injection Hc as <-.
  assert (Ht : travel_time metres speed = Ok in_seconds).
  { unfold travel_time. rewrite Hkm. cbn [bind]. rewrite Hkmph. cbn [bind].
    rewrite Hmin. cbn [bind]. exact Hsec. }
  destruct (travel_time_float _ _ _ Ht) as (t & ->).
  exists len, metres, cls, speed, t.
  split; [ reflexivity | ]. split; [ exact Hmetres | ].
  split; [ | split; [ | split; [ exact Ht | apply py_time_key_kept ] ] ].
  - unfold road_class. unfold getitem in Hhc0.
    destruct (dict_get (KStr road_col) _) as [ c | ]; simpl in Hhc0;
      [ injection Hhc0 as -> | discriminate ].
    destruct hc0 as [ | | | | | [ | c l ] ]; try discriminate; congruence.
  - unfold class_speed, speed_table. unfold pycore.lookup_class in Hfound.
    unfold getitem in Hspeed.
    destruct cls; try discriminate; injection Hfound as <-;
      try (destruct default as [ dflt | ];
           [ destruct (dict_get dflt _); simpl in Hspeed; congruence | congruence ]).
    destruct (dict_get s _); [ congruence | ].
    destruct default as [ dflt | ];
      [ destruct (dict_get dflt _); simpl in Hspeed; congruence | congruence ].
Qed.

(** The loop body in walk mode. *)
Lemma convert_edge_walk (distance_tag road_col : string)
  (speed_dict : option (dict string py.object)) (walk_speed factor : py.object)
  (default : option string) (data data' : pycore.attrs) :
  pycore.convert_edge distance_tag "walk" road_col speed_dict walk_speed factor
    default data = Ok data' ->
  exists len metres t,
    dict_get (KStr distance_tag) data = Some len /\
    py.mul len factor = Ok metres /\
    travel_time metres walk_speed = Ok (py.PyFloat t) /\
    dict_get (KStr "time") data' = Some (py.PyFloat t).
Proof.
  unfold pycore.convert_edge. intros Hc.
  bind_inv Hc as len Hlen. bind_inv Hc as metres Hmetres.
  unfold getitem in Hlen.
  destruct (dict_get (KStr distance_tag) data) as [ len0 | ] eqn:Hlen0;
    simpl in Hlen; [ injection Hlen as -> | discriminate ].
  simpl String.eqb in Hc. cbv iota in Hc.
  bind_inv Hc as speed Hspeed. injection Hspeed as <-.
  bind_inv Hc as km Hkm. bind_inv Hc as kmph Hkmph.
  bind_inv Hc as minutes Hmin. bind_inv Hc as in_seconds Hsec.
  injection Hc as <-.
  assert (Ht : travel_time metres walk_speed = Ok in_seconds).
  { unfold travel_time. rewrite Hkm. cbn [bind]. rewrite Hkmph. cbn [bind].
    rewrite Hmin. cbn [bind]. exact Hsec. }
  destruct (travel_time_float _ _ _ Ht) as (t & ->).
  exists len, metres, t.
  split; [ reflexivity | ]. split; [ exact Hmetres | ].
  split; [ exact Ht | apply py_time_key_kept ].
Qed.

(** C1 fails as stated: the time that walk mode writes on the edge of
    5000 m at 4.5 km/h is the double 4000.0000000000005
    (0x1.f400000000001p+11), not 4000. Python divides 5000 by 1000 and
    by 4.5 and multiplies by 60 twice, rounding three times; the one
    multiplication by 3600 of the claim would give 4000. *)
Lemma convert_network_to_time_walk_5000_m :
  exists G' t,
    pycore.convert_network_to_time (pycore.MultiDiGraphObj road_5000_m) "length"
      "walk" "highway" None (py.PyFloat 4.5) (py.PyInt 1) None = Ok G' /\
    edge_times G' = [Some (py.PyFloat t)] /\
    t = 0x1.f400000000001p+11%float /\
    (t =? 4000)%float = false /\
    (5000 / 1000 / 4.5 * 3600 =? 4000)%float = true.
Proof.
  eexists. eexists. split; [ vm_compute; reflexivity | ].
  split; [ reflexivity | ]. split; [ reflexivity | ].
  split; vm_compute; reflexivity.
Qed.

(** C1, amended. Whenever [convert_network_to_time] returns, every edge
    has in drive mode the time that Python computes for
    (distance x factor / 1000) / speed x 60 x 60, from left to right
    and every operation rounded to a double, the speed being the
    table entry of the edge's class (of the first element when the
    class attribute is a list), or the fallback: the default class when
    one is given, 20 km/h when none is; in walk mode every edge has
    that time at the walk speed. *)
Theorem convert_network_to_time_sets_time (G : pycore.graph_arg)
  (g G' : pycore.MultiDiGraph) (distance_tag graph_type road_col : string)
  (speed_dict : option (dict string py.object)) (walk_speed factor : py.object)
  (default : option string) :
  graph_in G = Some g ->
  pycore.convert_network_to_time G distance_tag graph_type road_col speed_dict
    walk_speed factor default = Ok G' ->
  (graph_type = "drive" ->
   Forall2 (drive_time_spec distance_tag road_col speed_dict factor default)
     (pycore.edges g) (pycore.edges G')) /\
  (graph_type = "walk" ->
   Forall2 (walk_time_spec distance_tag walk_speed factor)
     (pycore.edges g) (pycore.edges G')).
Proof.
  intros Hg Hc.
  assert (Hm : pycore.map_edge_data
                 (fun _ _ data =>
                    pycore.convert_edge distance_tag graph_type road_col
                      speed_dict walk_speed factor default data) g = Ok G').
  { destruct G; simpl in Hg; try discriminate; injection Hg as <-; exact Hc. }
  apply py_map_edge_data_edges in Hm as [_ Hm].
  split; intros ->.
  - eapply Forall2_impl; [ | exact Hm ].
    intros e e' [Hsame He]. split; [ exact Hsame | ].
    apply convert_edge_drive in He. exact He.
  - eapply Forall2_impl; [ | exact Hm ].
    intros e e' [Hsame He]. split; [ exact Hsame | ].
    apply convert_edge_walk in He. exact He.
Qed.

(** C1, amended, at the edge of the claim: 900 s in drive mode with the
    default table, 4000.0000000000005 s in walk mode at 4.5 km/h. *)
Lemma convert_network_to_time_5000_m :
  (exists G',
     pycore.convert_network_to_time (pycore.MultiDiGraphObj road_5000_m) "length"
       "drive" "highway" None (py.PyFloat 4.5) (py.PyInt 1) None = Ok G' /\
     Forall2 (drive_time_spec "length" "highway" None (py.PyInt 1) None)
       (pycore.edges road_5000_m) (pycore.edges G') /\
     edge_times G' = [Some (py.PyFloat 900)]) /\
  (exists G',
     pycore.convert_network_to_time (pycore.MultiDiGraphObj road_5000_m) "length"
       "walk" "highway" None (py.PyFloat 4.5) (py.PyInt 1) None = Ok G' /\
     Forall2 (walk_time_spec "length" (py.PyFloat 4.5) (py.PyInt 1))
       (pycore.edges road_5000_m) (pycore.edges G') /\
     edge_times G' = [Some (py.PyFloat 0x1.f400000000001p+11)]).
Proof.
  split.
  - eexists. split; [ vm_compute; reflexivity | ]. split; [ | reflexivity ].
    apply (convert_network_to_time_sets_time
             (pycore.MultiDiGraphObj road_5000_m) road_5000_m _
             "length" "drive" "highway" None (py.PyFloat 4.5) (py.PyInt 1) None);
      [ reflexivity | vm_compute; reflexivity | reflexivity ].
  - eexists. split; [ vm_compute; reflexivity | ]. split; [ | reflexivity ].
    apply (convert_network_to_time_sets_time
             (pycore.MultiDiGraphObj road_5000_m) road_5000_m _
             "length" "walk" "highway" None (py.PyFloat 4.5) (py.PyInt 1) None);
      [ reflexivity | vm_compute; reflexivity | reflexivity ].
Defined.

(** *** convert_network_to_time returns *)

Lemma float_of_int_below (z : Z) :
  (Z.abs z < 2 ^ 1000)%Z -> exists f, py.float_of_int z = Ok f.
Proof.
  intros Hz. unfold py.float_of_int, py.in_float_range.
  assert (Hrange : (Z.abs z <? 2 ^ 1024 - 2 ^ 970)%Z = true).
  { apply Z.ltb_lt. eapply Z.lt_trans; [ exact Hz | vm_compute; reflexivity ]. }
  rewrite Hrange. eexists. reflexivity.
Qed.

(** A modest number is a float, or an int below 2^500. *)
Lemma modest_number (x : py.object) :
  modest x = true ->
  (exists f, py.as_number x = Some (py.Float f)) \/
  (exists z, py.as_number x = Some (py.Int z) /\ (Z.abs z < 2 ^ 500)%Z).
Proof.
  destruct x as [ | [ | ] | z | f | s | l ]; simpl; try discriminate; intros Hx.
  - right. exists 1%Z. split; [ reflexivity | vm_compute; reflexivity ].
  - right. exists 0%Z. split; [ reflexivity | vm_compute; reflexivity ].
  - right. exists z. split; [ reflexivity | apply Z.ltb_lt; exact Hx ].
  - left. exists f. reflexivity.
Qed.

Lemma to_float_modest (x : py.object) (n : py.number) :
  modest x = true -> py.as_number x = Some n -> exists f, py.to_float n = Ok f.
Proof.
  intros Hx Hn. destruct (modest_number x Hx) as [ (f & Hf) | (z & Hz & Hlt) ].
  - assert (n = py.Float f) by congruence. subst n. exists f. reflexivity.
  - assert (n = py.Int z) by congruence. subst n. simpl.
    apply float_of_int_below.
    eapply Z.lt_trans; [ exact Hlt | vm_compute; reflexivity ].
Qed.

(** The product of two modest numbers: a float, or an int below 2^1000. *)
Lemma mul_modest (x y : py.object) :
  modest x = true -> modest y = true ->
  exists m, py.mul x y = Ok m /\
    ((exists f, m = py.PyFloat f) \/
     (exists z, m = py.PyInt z /\ (Z.abs z < 2 ^ 1000)%Z)).
Proof.
  intros Hx Hy. unfold py.mul.
  destruct (modest_number x Hx) as [ (f & Hf) | (a & Ha & Hlta) ];
    destruct (modest_number y Hy) as [ (g & Hg) | (b & Hb & Hltb) ].
  - rewrite Hf, Hg. simpl. eexists. split; [ reflexivity | ].
    left. eexists. reflexivity.
  - rewrite Hf, Hb. cbn [py.to_float bind].
    destruct (to_float_modest y _ Hy Hb) as (g & Hg). simpl in Hg.
    rewrite Hg. simpl. eexists. split; [ reflexivity | ].
    left. eexists. reflexivity.
  - rewrite Ha, Hg. cbn [py.to_float bind].
    destruct (to_float_modest x _ Hx Ha) as (f & Hf). simpl in Hf.
    rewrite Hf. simpl. eexists. split; [ reflexivity | ].
    left. eexists. reflexivity.
  - rewrite Ha, Hb. eexists. split; [ reflexivity | ].
    right. exists (a * b)%Z. split; [ reflexivity | ].
    rewrite Z.abs_mul.
    change (2 ^ 1000)%Z with (2 ^ 500 * 2 ^ 500)%Z.
    apply Z.mul_lt_mono_nonneg; [ apply Z.abs_nonneg | exact Hlta
                                | apply Z.abs_nonneg | exact Hltb ].
Qed.

(** Such a product divided by 1000. *)
Lemma truediv_1000 (m : py.object) :
  (exists f, m = py.PyFloat f) \/
  (exists z, m = py.PyInt z /\ (Z.abs z < 2 ^ 1000)%Z) ->
  exists km, py.truediv m (py.PyInt 1000) = Ok (py.PyFloat km).
Proof.
  intros [ (f & ->) | (z & -> & Hz) ].
  - cbv [py.truediv py.as_number py.to_float py.is_zero].
    rewrite float_of_int_1000. eexists. reflexivity.
  - cbv [py.truediv py.as_number py.int_truediv].
    change (1000 =? 0)%Z with false. cbv iota.
    assert (Hrange : (Z.abs z <? (2 ^ 1024 - 2 ^ 970) * Z.abs 1000)%Z = true).
    { apply Z.ltb_lt. eapply Z.lt_trans; [ exact Hz | vm_compute; reflexivity ]. }
    rewrite Hrange. eexists. reflexivity.
Qed.

(** A float divided by a modest number other than zero. *)
Lemma truediv_modest (f : float) (speed : py.object) :
  modest speed = true -> zero speed = false ->
  exists q, py.truediv (py.PyFloat f) speed = Ok (py.PyFloat q).
Proof.
  intros Hmod Hzero. unfold zero in Hzero. unfold py.truediv.
  change (py.as_number (py.PyFloat f)) with (Some (py.Float f)).
  destruct (py.as_number speed) as [ n | ] eqn:Hn.
  - destruct (to_float_modest speed n Hmod Hn) as (g & Hg).
    cbn [py.to_float bind]. rewrite Hg, Hzero.
    destruct n; eexists; reflexivity.
  - destruct (modest_number speed Hmod) as [ (g & Hg) | (z & Hz & _) ];
      congruence.
Qed.

(** The travel time of a modest distance at a modest speed other than
    zero. *)
Lemma travel_time_total (metres speed : py.object) :
  (exists f, metres = py.PyFloat f) \/
  (exists z, metres = py.PyInt z /\ (Z.abs z < 2 ^ 1000)%Z) ->
  modest speed = true -> zero speed = false ->
  exists km kmph,
    py.truediv metres (py.PyInt 1000) = Ok (py.PyFloat km) /\
    py.truediv (py.PyFloat km) speed = Ok (py.PyFloat kmph) /\
    travel_time metres speed = Ok (py.PyFloat (kmph * 60 * 60)%float).
Proof.
  intros Hmetres Hmod Hzero.
  destruct (truediv_1000 metres Hmetres) as (km & Hkm).
  destruct (truediv_modest km speed Hmod Hzero) as (kmph & Hkmph).
  exists km, kmph. split; [ exact Hkm | ]. split; [ exact Hkmph | ].
  unfold travel_time. rewrite Hkm. cbn [bind]. rewrite Hkmph. cbn [bind].
  rewrite mul_float_60. cbn [bind]. apply mul_float_60.
Qed.

(** The loop body in walk mode returns on a modest distance. *)
Lemma convert_edge_walk_total (distance_tag road_col : string)
  (speed_dict : option (dict string py.object)) (walk_speed factor : py.object)
  (default : option string) (data : pycore.attrs) (len : py.object) :
  dict_get (KStr distance_tag) data = Some len ->
  modest len = true -> modest factor = true ->
  modest walk_speed = true -> zero walk_speed = false ->
  exists data',
    pycore.convert_edge distance_tag "walk" road_col speed_dict walk_speed factor
      default data = Ok data'.
Proof.
  intros Hlen Hmod Hfactor Hspeed Hzero. unfold pycore.convert_edge, getitem.
  rewrite Hlen. cbn [of_option bind].
  destruct (mul_modest len factor Hmod Hfactor) as (metres & Hmul & Hmetres).
  rewrite Hmul. cbn [bind]. simpl String.eqb. cbv iota. cbn [bind].
  destruct (travel_time_total metres walk_speed Hmetres Hspeed Hzero)
    as (km & kmph & Hkm & Hkmph & _).
  rewrite Hkm. cbn [bind]. rewrite Hkmph. cbn [bind].
  rewrite mul_float_60. cbn [bind]. rewrite mul_float_60. cbn [bind].
  eexists. reflexivity.
Qed.

(** The loop body in drive mode returns on a modest distance and a class
    whose speed is modest and not zero. *)
Lemma convert_edge_drive_total (distance_tag road_col : string)
  (speed_dict : option (dict string py.object)) (walk_speed factor : py.object)
  (default : option string) (data : pycore.attrs) (len metres cls speed : py.object) :
  dict_get (KStr distance_tag) data = Some len ->
  modest len = true -> modest factor = true ->
  py.mul len factor = Ok metres ->
  road_class road_col (dict_set (KStr "length") metres data) = Some cls ->
  class_speed (speed_table speed_dict) default cls = Some speed ->
  modest speed = true -> zero speed = false ->
  exists data',
    pycore.convert_edge distance_tag "drive" road_col speed_dict walk_speed factor
      default data = Ok data'.
Proof.
  intros Hlen Hmod Hfactor Hmul Hcls Hspeed Hsmod Hzero.
  unfold pycore.convert_edge, getitem.
  rewrite Hlen. cbn [of_option bind].
  destruct (mul_modest len factor Hmod Hfactor) as (metres' & Hmul' & Hmetres).
  assert (metres' = metres) by congruence. subst metres'.
  rewrite Hmul. cbn [bind]. simpl String.eqb. cbv iota.
  unfold road_class in Hcls.
  destruct (dict_get (KStr road_col) _) as [ c | ]; [ | discriminate ].
  cbn [of_option bind].
  assert (Hc : match c with
               | py.PyList [] => Raise IndexError
               | py.PyList (c0 :: _) => Ok c0
               | _ => Ok c
               end = Ok cls).
  { destruct c as [ | | | | | [ | c0 l ] ]; congruence. }
  rewrite Hc. cbn [bind].
  assert (Hs : (found <- pycore.lookup_class
                            match speed_dict with
                            | Some sd => sd
                            | None => pycore.default_speed_dict
                            end cls ;;
                match found with
                | Some speed0 => Ok speed0
                | None =>
                    match default with
                    | Some dflt =>
                        of_option KeyError
                          (dict_get dflt
                             match speed_dict with
                             | Some sd => sd
                             | None => pycore.default_speed_dict
                             end)
                    | None => Ok (py.PyInt 20)
                    end
                end) = Ok speed).
  { unfold class_speed, speed_table in Hspeed. unfold pycore.lookup_class.
    destruct cls; try discriminate; cbn [bind];
      try (destruct default as [ dflt | ];
           [ rewrite Hspeed; reflexivity | congruence ]).
    destruct (dict_get s _); [ congruence | ].
    destruct default as [ dflt | ]; [ rewrite Hspeed; reflexivity | congruence ]. }
  rewrite Hs. cbn [bind].
  destruct (travel_time_total metres speed Hmetres Hsmod Hzero)
    as (km & kmph & Hkm & Hkmph & _).
  rewrite Hkm. cbn [bind]. rewrite Hkmph. cbn [bind].
  rewrite mul_float_60. cbn [bind]. rewrite mul_float_60. cbn [bind].
  eexists. reflexivity.
Qed.

(** X19. In drive mode [convert_network_to_time] returns a graph when
    the factor is a modest number and every edge has a modest distance
    and a class whose speed is a modest number other than zero; a modest
    number is a float, a bool, or an int of magnitude below 2^500. *)
Theorem convert_network_to_time_drive_returns (G : pycore.graph_arg)
  (g : pycore.MultiDiGraph) (distance_tag road_col : string)
  (speed_dict : option (dict string py.object)) (walk_speed factor : py.object)
  (default : option string) :
  graph_in G = Some g -> modest factor = true ->
  (forall e, In e (pycore.edges g) ->
     exists len metres cls speed,
       dict_get (KStr distance_tag) (pycore.edge_data e) = Some len /\
       modest len = true /\
       py.mul len factor = Ok metres /\
       road_class road_col
         (dict_set (KStr "length") metres (pycore.edge_data e)) = Some cls /\
       class_speed (speed_table speed_dict) default cls = Some speed /\
       modest speed = true /\ zero speed = false) ->
  exists G',
    pycore.convert_network_to_time G distance_tag "drive" road_col speed_dict
      walk_speed factor default = Ok G'.
Proof.
  intros Hg Hfactor Hedges.
  assert (Hm : exists G',
            pycore.map_edge_data
              (fun _ _ data =>
                 pycore.convert_edge distance_tag "drive" road_col speed_dict
                   walk_speed factor default data) g = Ok G').
  { apply py_map_edge_data_total. intros e He.
    destruct (Hedges e He)
      as (len & metres & cls & speed & Hlen & Hmod & Hmul & Hcls & Hsp & Hsmod & Hz).
    eapply convert_edge_drive_total; eassumption. }
  destruct G; simpl in Hg; try discriminate; injection Hg as <-; exact Hm.
Qed.

(** X19 on [road_5000_m]. *)
Lemma convert_network_to_time_drive_returns_5000_m :
  exists G',
    pycore.convert_network_to_time (pycore.MultiDiGraphObj road_5000_m) "length"
      "drive" "highway" None (py.PyFloat 4.5) (py.PyInt 1) None = Ok G'.
Proof.
  apply (convert_network_to_time_drive_returns
           (pycore.MultiDiGraphObj road_5000_m) road_5000_m).
  - reflexivity.
  - reflexivity.
  - intros e [ <- | [] ].
    exists (py.PyInt 5000), (py.PyInt 5000), (py.PyStr "residential"), (py.PyInt 20).
    repeat split; reflexivity.
Defined.

(** X20. In walk mode [convert_network_to_time] returns a graph when the
    factor is a modest number, the walk speed a modest number other than
    zero, and every edge has a modest distance. *)
Theorem convert_network_to_time_walk_returns (G : pycore.graph_arg)
  (g : pycore.MultiDiGraph) (distance_tag road_col : string)
  (speed_dict : option (dict string py.object)) (walk_speed factor : py.object)
  (default : option string) :
  graph_in G = Some g -> modest factor = true ->
  modest walk_speed = true -> zero walk_speed = false ->
  (forall e, In e (pycore.edges g) ->
     exists len,
       dict_get (KStr distance_tag) (pycore.edge_data e) = Some len /\
       modest len = true) ->
  exists G',
    pycore.convert_network_to_time G distance_tag "walk" road_col speed_dict
      walk_speed factor default = Ok G'.
Proof.
  intros Hg Hfactor Hspeed Hzero Hedges.
  assert (Hm : exists G',
            pycore.map_edge_data
              (fun _ _ data =>
                 pycore.convert_edge distance_tag "walk" road_col speed_dict
                   walk_speed factor default data) g = Ok G').
  { apply py_map_edge_data_total. intros e He.
    destruct (Hedges e He) as (len & Hlen & Hmod).
    eapply convert_edge_walk_total; eassumption. }
  destruct G; simpl in Hg; try discriminate; injection Hg as <-; exact Hm.
Qed.

(** X20 on [road_5000_m]. *)
Lemma convert_network_to_time_walk_returns_5000_m :
  exists G',
    pycore.convert_network_to_time (pycore.MultiDiGraphObj road_5000_m) "length"
      "walk" "highway" None (py.PyFloat 4.5) (py.PyInt 1) None = Ok G'.
Proof.
  apply (convert_network_to_time_walk_returns
           (pycore.MultiDiGraphObj road_5000_m) road_5000_m).
  - reflexivity.
  - reflexivity.
  - reflexivity.
  - reflexivity.
  - intros e [ <- | [] ]. exists (py.PyInt 5000). split; reflexivity.
Defined.

(** ** calculate_OD *)

(** *** The matrix and its transpose *)

Lemma np_transpose_involutive (A : ndarray) :
  well_shaped A -> np_transpose (np_transpose A) = A.
Proof.
  destruct A as [[m n] rs]. unfold well_shaped, np_transpose. simpl.
  intros [Hm Hn]. f_equal. subst m.
  rewrite <- (map_nth_seq [] rs) at 2.
  apply map_ext_in. intros i Hi. apply in_seq in Hi.
  rewrite map_map.
  assert (Hrow : length (nth i rs []) = n).
  { rewrite Forall_forall in Hn. apply Hn. apply nth_In. lia. }
  rewrite <- (map_nth_seq 0%Q (nth i rs [])), Hrow.
  apply map_ext. intros j.
  etransitivity;
    [ | exact (map_nth (fun row : list Q => nth j row 0%Q) rs [] i) ].
  apply nth_indep. rewrite length_map. lia.
Qed.

Lemma same_matrix_refl (A : ndarray) : same_matrix A A.
Proof.
  split; [ reflexivity | ].
  induction (rows A) as [ | r rs IH ]; constructor; [ | exact IH ].
  induction r as [ | x r IHr ]; constructor; [ reflexivity | exact IHr ].
Qed.

Lemma od_row_Ok (G : MultiDiGraph) (weight : key) (fail_value : Q)
  (destinations : list node) (origin : node) (row : list Q) :
  core.od_row G weight fail_value destinations origin = Ok row ->
  exists results_dict,
    single_source_dijkstra_path_length G origin None weight = Ok results_dict /\
    row = map (fun destination =>
                 match dict_get destination results_dict with
                 | Some c => c
                 | None => fail_value
                 end) destinations.
Proof.
  unfold core.od_row. intros Hr. bind_inv Hr as r Hs. injection Hr as <-.
  exists r. split; [ exact Hs | reflexivity ].
Qed.

Lemma od_rows_well_shaped (G : MultiDiGraph) (weight : key) (fail_value : Q)
  (origins destinations : list node) (OD : list (list Q)) :
  mapM (core.od_row G weight fail_value destinations) origins = Ok OD ->
  well_shaped {| shape := (length origins, length destinations); rows := OD |}.
Proof.
  intros Hm. split; simpl.
  - eapply mapM_length. exact Hm.
  - apply mapM_Forall2 in Hm.
    induction Hm as [ | o row os OD Hrow _ IH ]; constructor; [ | exact IH ].
    apply od_row_Ok in Hrow as (r & _ & ->). apply length_map.
Qed.

Lemma od_rows_total (G : MultiDiGraph) (weight : key) (fail_value : Q)
  (origins destinations : list node) :
  (forall o, In o origins ->
     exists r, single_source_dijkstra_path_length G o None weight = Ok r) ->
  exists OD, mapM (core.od_row G weight fail_value destinations) origins = Ok OD.
Proof.
  intros Hsearch. apply mapM_total. intros o Ho.
  destruct (Hsearch o Ho) as (r & Hr).
  unfold core.od_row. rewrite Hr. simpl. eexists. reflexivity.
Qed.

(** Rows computed from the origins and rows computed from the
    destinations are transposes when the searches agree on every pair. *)
Lemma od_rows_transposed (G : MultiDiGraph) (weight : key) (fail_value : Q)
  (origins destinations : list node) (A B : list (list Q)) :
  (forall o d rA rB, In o origins -> In d destinations ->
     single_source_dijkstra_path_length G o None weight = Ok rA ->
     single_source_dijkstra_path_length G d None weight = Ok rB ->
     (cell fail_value rA d == cell fail_value rB o)%Q) ->
  mapM (core.od_row G weight fail_value destinations) origins = Ok A ->
  mapM (core.od_row G weight fail_value origins) destinations = Ok B ->
  Forall2 (Forall2 Qeq) A
    (map (fun j => map (fun row => nth j row 0%Q) B) (seq 0 (length origins))).
Proof.
  intros Hsym HA HB.
  pose proof (mapM_length _ _ _ HA) as HlenA.
  apply mapM_Forall2 in HA. apply mapM_Forall2 in HB.
  apply (Forall2_by_nth _ [] []).
  - rewrite length_map, length_seq. exact HlenA.
  - intros i Hi. rewrite HlenA in Hi.
    pose proof (Forall2_nth_rel _ (0%Z : node) [] _ _ i HA Hi) as Hrow.
    cbv beta in Hrow.
    apply od_row_Ok in Hrow as (rA & HrA & ->).
    set (col := fun j => map (fun row : list Q => nth j row 0%Q) B).
    assert (Hcol : nth i (map col (seq 0 (length origins))) [] = col i).
    { rewrite (nth_indep _ [] (col 0)) by (rewrite length_map, length_seq; exact Hi).
      rewrite map_nth, seq_nth by exact Hi. reflexivity. }
    rewrite Hcol. unfold col.
    assert (Ho : In (nth i origins (0%Z : node)) origins) by (apply nth_In; exact Hi).
    eapply Forall2_map;
      [ eapply Forall2_impl_In; [ exact HB | ] | intros a b Hab; exact Hab ].
    intros d rowB Hd HrowB. simpl.
    apply od_row_Ok in HrowB as (rB & HrB & ->).
    set (cellB := fun destination =>
                    match dict_get destination rB with
                    | Some c => c
                    | None => fail_value
                    end).
    assert (Hcell : nth i (map cellB origins) 0%Q
                    = cellB (nth i origins (0%Z : node))).
    { rewrite (nth_indep _ 0%Q (cellB (0%Z : node))) by (rewrite length_map; exact Hi).
      apply map_nth. }
    rewrite Hcell. unfold cellB.
    exact (Hsym _ _ rA rB Ho Hd HrA HrB).
Qed.


(** *** The search *)

Lemma entry_ltb_le (a b : entry) :
  entry_ltb a b = true -> (fst (fst a) <= fst (fst b))%Q.
Proof.
  unfold entry_ltb. intros Hlt. apply orb_true_iff in Hlt as [ Hlt | Heq ].
  - unfold Qltb in Hlt. apply negb_true_iff in Hlt.
    destruct (Qlt_le_dec (fst (fst a)) (fst (fst b))) as [ Hab | Hba ].
    + apply Qlt_le_weak. exact Hab.
    + apply Qle_bool_iff in Hba. congruence.
  - apply andb_true_iff in Heq as [Heq _]. apply Qeq_bool_iff in Heq.
    rewrite Heq. apply Qle_refl.
Qed.

Lemma entry_ltb_ge (a b : entry) :
  entry_ltb a b = false -> (fst (fst b) <= fst (fst a))%Q.
Proof.
  unfold entry_ltb. intros Hlt. apply orb_false_iff in Hlt as [Hlt _].
  apply Qltb_false. exact Hlt.
Qed.

Lemma min_entry_In (l : list entry) (e : entry) : In (min_entry e l) (e :: l).
Proof.
  revert e. induction l as [ | x l IH ]; intros e; simpl.
  - left. reflexivity.
  - destruct (IH (if entry_ltb x e then x else e)) as [ Heq | Hin ].
    + rewrite <- Heq. destruct (entry_ltb x e); auto.
    + right. right. exact Hin.
Qed.

Lemma min_entry_le (l : list entry) (e x : entry) :
  In x (e :: l) -> (fst (fst (min_entry e l)) <= fst (fst x))%Q.
Proof.
  revert e x. induction l as [ | y l IH ]; intros e x Hx; simpl.
  - destruct Hx as [ <- | [] ]. apply Qle_refl.
  - destruct (entry_ltb y e) eqn:Hlt.
    + destruct Hx as [ <- | [ <- | Hx ] ].
      * eapply Qle_trans; [ apply IH; left; reflexivity | ].
        apply entry_ltb_le. exact Hlt.
      * apply IH. left. reflexivity.
      * apply IH. right. exact Hx.
    + destruct Hx as [ <- | [ <- | Hx ] ].
      * apply IH. left. reflexivity.
      * eapply Qle_trans; [ apply IH; left; reflexivity | ].
        apply entry_ltb_ge. exact Hlt.
      * apply IH. right. exact Hx.
Qed.

Lemma In_remove_entry (c : nat) (l : list entry) (x : entry) :
  In x (remove_entry c l) -> In x l.
Proof.
  induction l as [ | y l IH ]; simpl; [ tauto | ].
  destruct (snd (fst y) =? c); [ auto | ].
  intros [ <- | Hx ]; auto.
Qed.

Lemma length_remove_entry (l : list entry) (m : entry) :
  In m l -> S (length (remove_entry (snd (fst m)) l)) = length l.
Proof.
  induction l as [ | y l IH ]; simpl; [ tauto | ].
  intros Hm. destruct (snd (fst y) =? snd (fst m)) eqn:Hc; [ reflexivity | ].
  destruct Hm as [ -> | Hm ].
  - rewrite Nat.eqb_refl in Hc. discriminate.
  - simpl. rewrite IH by exact Hm. reflexivity.
Qed.

Lemma weight_function_nonempty (weight : key) (keydict : dict Z attrs) (cost : Q) :
  weight_function weight keydict = Ok cost -> keydict <> [].
Proof.
  intros Hw ->. discriminate Hw.
Qed.

(** What one turn of the inner loop does to the heap. *)
Lemma relax_Ok (weight : key) (cutoff : option Q) (dist : dict node Q) (dv : Q)
  (seen seen' : dict node Q) (c c' : nat) (fringe fringe' : list entry)
  (ue : node * dict Z attrs) :
  relax weight cutoff dist dv (seen, c, fringe) ue = Ok (seen', c', fringe') ->
  fringe' = fringe \/
  exists cost,
    weight_function weight (snd ue) = Ok cost /\
    fringe' = ((dv + cost)%Q, c, fst ue) :: fringe.
Proof.
  unfold relax. intros Hr. bind_inv Hr as cost Hcost.
  destruct (match cutoff with Some r => Qltb r (dv + cost) | None => false end).
  - injection Hr as _ _ <-. left. reflexivity.
  - destruct (dict_get (fst ue) dist) as [ u_dist | ].
    + destruct (Qltb (dv + cost) u_dist); [ discriminate | ].
      injection Hr as _ _ <-. left. reflexivity.
    + destruct (match dict_get (fst ue) seen with
                | Some s => Qltb (dv + cost) s
                | None => true
                end).
      * injection Hr as _ _ <-. right. exists cost. split; [ exact Hcost | reflexivity ].
      * injection Hr as _ _ <-. left. reflexivity.
Qed.

(** One turn succeeds when the weight is a number that is not negative
    and no final distance exceeds the distance of the node at hand. *)
Lemma relax_total (weight : key) (cutoff : option Q) (dist : dict node Q) (dv : Q)
  (st : frontier) (ue : node * dict Z attrs) (cost : Q) :
  weight_function weight (snd ue) = Ok cost -> (0 <= cost)%Q ->
  (forall du, dict_get (fst ue) dist = Some du -> (du <= dv)%Q) ->
  exists st', relax weight cutoff dist dv st ue = Ok st'.
Proof.
  intros Hcost Hpos Hdist. destruct st as [[seen c] fringe].
  unfold relax. rewrite Hcost. simpl.
  destruct (match cutoff with Some r => Qltb r (dv + cost) | None => false end);
    [ eexists; reflexivity | ].
  destruct (dict_get (fst ue) dist) as [ u_dist | ].
  - destruct (Qltb (dv + cost) u_dist) eqn:Hlt; [ exfalso | eexists; reflexivity ].
    apply Qltb_true in Hlt. apply Hlt.
    apply Qle_trans with dv; [ apply Hdist; reflexivity | ].
    rewrite <- (Qplus_0_r dv) at 1. apply Qplus_le_r. exact Hpos.
  - destruct (match dict_get (fst ue) seen with
              | Some s => Qltb (dv + cost) s
              | None => true
              end); eexists; reflexivity.
Qed.

Lemma relax_loop_Ok (weight : key) (cutoff : option Q) (dist : dict node Q) (dv : Q)
  (succ : dict node (dict Z attrs)) (seen seen' : dict node Q) (c c' : nat)
  (fringe fringe' : list entry) :
  foldM (relax weight cutoff dist dv) succ (seen, c, fringe)
    = Ok (seen', c', fringe') ->
  length fringe' <= length fringe + length succ /\
  forall e, In e fringe' ->
    In e fringe \/
    exists ue cost,
      In ue succ /\ weight_function weight (snd ue) = Ok cost /\
      snd e = fst ue /\ fst (fst e) = (dv + cost)%Q.
Proof.
  revert seen c fringe.
  induction succ as [ | ue succ IH ]; intros seen c fringe Hf; simpl in Hf.
  - injection Hf as _ _ <-. split; [ simpl; lia | auto ].
  - bind_inv Hf as st1 Hst1. destruct st1 as [[seen1 c1] fringe1].
    apply relax_Ok in Hst1. apply IH in Hf as [Hlen Hin].
    split.
    + destruct Hst1 as [ -> | (cost & _ & ->) ]; simpl in *; lia.
    + intros e He. destruct (Hin e He) as [ He1 | (ue' & cost & Hue & Hw & Hs & Hd) ].
      * destruct Hst1 as [ -> | (cost & Hw & ->) ]; [ left; exact He1 | ].
        destruct He1 as [ <- | He1 ]; [ | left; exact He1 ].
        right. exists ue, cost. simpl. auto.
      * right. exists ue', cost. simpl. auto.
Qed.

Lemma relax_loop_total (weight : key) (cutoff : option Q) (dist : dict node Q)
  (dv : Q) (succ : dict node (dict Z attrs)) (st : frontier) :
  (forall ue, In ue succ ->
     (exists cost, weight_function weight (snd ue) = Ok cost /\ (0 <= cost)%Q) /\
     (forall du, dict_get (fst ue) dist = Some du -> (du <= dv)%Q)) ->
  exists st', foldM (relax weight cutoff dist dv) succ st = Ok st'.
Proof.
  revert st. induction succ as [ | ue succ IH ]; intros st Hsucc; simpl.
  - eexists. reflexivity.
  - destruct (Hsucc ue (or_introl eq_refl)) as [(cost & Hw & Hpos) Hdist].
    destruct (relax_total weight cutoff dist dv st ue cost Hw Hpos Hdist)
      as (st1 & ->).
    simpl. apply IH. intros ue' Hue'. apply Hsucc. right. exact Hue'.
Qed.

Lemma dijkstra_loop_step (fuel : nat) (G : MultiDiGraph) (weight : key)
  (cutoff : option Q) (target : option node) (dist seen : dict node Q) (c : nat)
  (e : entry) (rest : list entry) :
  dijkstra_loop (S fuel) G weight cutoff target dist (seen, c, e :: rest) =
  let m := min_entry e rest in
  let fringe := remove_entry (snd (fst m)) (e :: rest) in
  if dict_mem (snd m) dist
  then dijkstra_loop fuel G weight cutoff target dist (seen, c, fringe)
  else
    let dist := dict_set (snd m) (fst (fst m)) dist in
    if match target with Some t => eqb (snd m) t | None => false end
    then Ok dist
    else
      succ <- getitem (_adj G) (snd m) ;;
      st <- foldM (relax weight cutoff dist (fst (fst m))) succ (seen, c, fringe) ;;
      dijkstra_loop fuel G weight cutoff target dist st.
Proof. reflexivity. Qed.

(** The exceptions of the inner loop are Python's: a weight that is not
    a number, an empty key dictionary, or contradictory paths. *)
Lemma weight_function_Raise (weight : key) (keydict : dict Z attrs) (e : exn) :
  weight_function weight keydict = Raise e ->
  e = TypeError \/ e = ValueError "min() arg is an empty sequence".
Proof.
  unfold weight_function.
  match goal with
  | |- context [ mapM ?f (dict_values keydict) ] =>
      destruct (mapM f (dict_values keydict)) as [ ws | e0 ] eqn:Hm; simpl
  end.
  - destruct ws; [ | discriminate ]. intros He. injection He as <-. right. reflexivity.
  - intros He. injection He as <-. left.
    apply mapM_Raise in Hm as (attr & _ & Hattr).
    destruct (dict_get weight attr) as [ w | ]; [ | discriminate ].
    destruct w as [ | [ | ] | | | ]; simpl in Hattr; try discriminate;
      injection Hattr as <-; reflexivity.
Qed.

Lemma relax_Raise (weight : key) (cutoff : option Q) (dist : dict node Q) (dv : Q)
  (st : frontier) (ue : node * dict Z attrs) (e : exn) :
  relax weight cutoff dist dv st ue = Raise e ->
  forall msg, e <> RuntimeError msg.
Proof.
  destruct st as [[seen c] fringe]. unfold relax.
  destruct (weight_function weight (snd ue)) as [ cost | e0 ] eqn:Hw; simpl.
  - destruct (match cutoff with Some r => Qltb r (dv + cost) | None => false end);
      [ discriminate | ].
    destruct (dict_get (fst ue) dist) as [ u_dist | ].
    + destruct (Qltb (dv + cost) u_dist); [ | discriminate ].
      intros He msg. injection He as <-. discriminate.
    + destruct (match dict_get (fst ue) seen with
                | Some s => Qltb (dv + cost) s
                | None => true
                end); discriminate.
  - intros He msg. injection He as <-.
    apply weight_function_Raise in Hw as [ -> | -> ]; discriminate.
Qed.

Section Search.
Variable G : MultiDiGraph.
Variable weight : key.
Variable cutoff : option Q.
Variable target : option node.

(** Soundness: a node the search gives a distance to is connected to
    the source. *)
Lemma dijkstra_loop_sound (s : node) (fuel : nat) :
  forall (dist seen : dict node Q) (c : nat) (fringe : list entry)
    (r : dict node Q),
    (forall v x, dict_get v dist = Some x -> path G s v) ->
    (forall e, In e fringe -> path G s (snd e)) ->
    dijkstra_loop fuel G weight cutoff target dist (seen, c, fringe) = Ok r ->
    forall v x, dict_get v r = Some x -> path G s v.
Proof.
  induction fuel as [ | fuel IH ]; intros dist seen c fringe r Hdist Hfringe Hr.
  - destruct fringe; simpl in Hr; [ | discriminate ].
    injection Hr as <-. exact Hdist.
  - destruct fringe as [ | e rest ]; [ simpl in Hr; injection Hr as <-; exact Hdist | ].
    rewrite dijkstra_loop_step in Hr. cbv zeta in Hr.
    set (m := min_entry e rest) in *.
    assert (Hm : In m (e :: rest)) by apply min_entry_In.
    assert (Hsub : forall x, In x (remove_entry (snd (fst m)) (e :: rest)) ->
                             path G s (snd x)).
    { intros x Hx. apply Hfringe. eapply In_remove_entry. exact Hx. }
    destruct (dict_mem (snd m) dist).
    + eapply IH; [ exact Hdist | exact Hsub | exact Hr ].
    + assert (Hdist' : forall v x,
                dict_get v (dict_set (snd m) (fst (fst m)) dist) = Some x ->
                path G s v).
      { intros v x Hv. apply dict_get_set_cases in Hv as [ [-> _] | Hv ].
        - apply Hfringe. exact Hm.
        - eapply Hdist. exact Hv. }
      destruct (match target with Some t => eqb (snd m) t | None => false end).
      * injection Hr as <-. exact Hdist'.
      * bind_inv Hr as succ Hsucc. bind_inv Hr as st Hst.
        destruct st as [[seen' c'] fringe'].
        apply relax_loop_Ok in Hst as [_ Hin].
        eapply IH; [ exact Hdist' | | exact Hr ].
        intros x Hx. destruct (Hin x Hx) as [ Hold | (ue & cost & Hue & Hw & Hs & _) ].
        -- apply Hsub. exact Hold.
        -- rewrite Hs. apply path_step with (snd m); [ apply Hfringe; exact Hm | ].
           unfold getitem in Hsucc.
           destruct (dict_get (snd m) (_adj G)) as [ succ0 | ] eqn:Hg;
             simpl in Hsucc; [ injection Hsucc as -> | discriminate ].
           exists succ, (snd ue). split; [ apply dict_get_In; exact Hg | ].
           split; [ destruct ue; exact Hue | ].
           eapply weight_function_nonempty. exact Hw.
Qed.

Lemma unexpanded_mono (v : node) (d : Q) (dist : dict node Q)
  (adj : dict node (dict node (dict Z attrs))) :
  unexpanded (dict_set v d dist) adj <= unexpanded dist adj.
Proof.
  unfold unexpanded. induction adj as [ | [u n] adj IH ]; simpl; [ lia | ].
  rewrite dict_mem_set. destruct (eqb u v); simpl; [ lia | ].
  destruct (dict_mem u dist); lia.
Qed.

Lemma unexpanded_set (v : node) (d : Q) (dist : dict node Q)
  (adj : dict node (dict node (dict Z attrs))) (succ : dict node (dict Z attrs)) :
  dict_mem v dist = false -> dict_get v adj = Some succ ->
  unexpanded (dict_set v d dist) adj + length succ <= unexpanded dist adj.
Proof.
  intros Hv. induction adj as [ | [u n] adj IH ]; simpl; [ discriminate | ].
  destruct (eq_dec v u) as [ <- | Hne ].
  - intros Hs. injection Hs as ->. unfold unexpanded. simpl.
    rewrite dict_mem_set, Hv. unfold eqb.
    destruct (eq_dec v v); [ simpl | congruence ].
    pose proof (unexpanded_mono v d dist adj) as Hmono. unfold unexpanded in Hmono.
    lia.
  - intros Hs. apply IH in Hs. unfold unexpanded in *. simpl.
    rewrite dict_mem_set. unfold eqb.
    destruct (eq_dec u v); [ congruence | simpl ].
    destruct (dict_mem u dist); lia.
Qed.

(** The fuel of the model never runs out: with fuel for every heap entry
    and every push still to come, an exception of the loop is one of
    Python's. *)
Lemma dijkstra_loop_fuel (fuel : nat) :
  forall (dist seen : dict node Q) (c : nat) (fringe : list entry) (e : exn),
    length fringe + unexpanded dist (_adj G) <= fuel ->
    dijkstra_loop fuel G weight cutoff target dist (seen, c, fringe) = Raise e ->
    forall msg, e <> RuntimeError msg.
Proof.
  induction fuel as [ | fuel IH ]; intros dist seen c fringe e Hfuel Hr.
  - destruct fringe; [ discriminate Hr | simpl in Hfuel; lia ].
  - destruct fringe as [ | e0 rest ]; [ discriminate Hr | ].
    rewrite dijkstra_loop_step in Hr. cbv zeta in Hr.
    set (m := min_entry e0 rest) in *.
    assert (Hm : In m (e0 :: rest)) by apply min_entry_In.
    pose proof (length_remove_entry (e0 :: rest) m Hm) as Hlen.
    set (fringe1 := remove_entry (snd (fst m)) (e0 :: rest)) in *.
    destruct (dict_mem (snd m) dist) eqn:Hseen.
    + eapply IH; [ | exact Hr ]. lia.
    + destruct (match target with Some t => eqb (snd m) t | None => false end);
        [ discriminate Hr | ].
      unfold getitem in Hr.
      destruct (dict_get (snd m) (_adj G)) as [ succ | ] eqn:Hsucc; simpl in Hr;
        [ | injection Hr as <-; discriminate ].
      match type of Hr with
      | context [ foldM ?f succ ?st0 ] =>
          destruct (foldM f succ st0) as [ st | e1 ] eqn:Hst; simpl in Hr
      end.
      * destruct st as [[seen' c'] fringe'].
        apply relax_loop_Ok in Hst as [Hlen' _].
        pose proof (unexpanded_set (snd m) (fst (fst m)) dist (_adj G) succ
                      Hseen Hsucc) as Hexp.
        eapply IH; [ | exact Hr ]. simpl in Hfuel, Hlen. lia.
      * injection Hr as <-.
        apply foldM_Raise in Hst as (st & ue & _ & Hue).
        eapply relax_Raise. exact Hue.
Qed.

(** Every successor has an adjacency dictionary of its own and a weight
    that is a number and not negative. *)
Hypothesis successors_ok :
  forall v succ ue, dict_get v (_adj G) = Some succ -> In ue succ ->
    dict_mem (fst ue) (_adj G) = true /\
    exists cost, weight_function weight (snd ue) = Ok cost /\ (0 <= cost)%Q.

(** Termination and absence of errors: with fuel for every heap entry
    and every push still to come, the loop returns a dictionary. *)
Lemma dijkstra_loop_total (fuel : nat) :
  forall (dist seen : dict node Q) (c : nat) (fringe : list entry),
    length fringe + unexpanded dist (_adj G) <= fuel ->
    (forall e, In e fringe -> dict_mem (snd e) (_adj G) = true) ->
    (forall u du e, dict_get u dist = Some du -> In e fringe ->
                    (du <= fst (fst e))%Q) ->
    exists r, dijkstra_loop fuel G weight cutoff target dist (seen, c, fringe) = Ok r.
Proof.
  induction fuel as [ | fuel IH ]; intros dist seen c fringe Hfuel Hadj Hmin.
  - destruct fringe; [ | simpl in Hfuel; lia ]. eexists. reflexivity.
  - destruct fringe as [ | e rest ]; [ eexists; reflexivity | ].
    rewrite dijkstra_loop_step. cbv zeta.
    set (m := min_entry e rest).
    assert (Hm : In m (e :: rest)) by apply min_entry_In.
    pose proof (length_remove_entry (e :: rest) m Hm) as Hlen.
    set (fringe1 := remove_entry (snd (fst m)) (e :: rest)) in *.
    assert (Hsub : forall x, In x fringe1 -> In x (e :: rest)).
    { intros x Hx. eapply In_remove_entry. exact Hx. }
    destruct (dict_mem (snd m) dist) eqn:Hseen.
    + apply IH.
      * lia.
      * intros x Hx. apply Hadj, Hsub, Hx.
      * intros u du x Hu Hx. eapply Hmin; [ exact Hu | apply Hsub, Hx ].
    + destruct (match target with Some t => eqb (snd m) t | None => false end);
        [ eexists; reflexivity | ].
      destruct (dict_mem_In _ _ (Hadj m Hm)) as (succ & Hsucc & _).
      unfold getitem. rewrite Hsucc. simpl.
      assert (Hfinal : forall u du,
                dict_get u (dict_set (snd m) (fst (fst m)) dist) = Some du ->
                (du <= fst (fst m))%Q).
      { intros u du Hu. apply dict_get_set_cases in Hu as [ [_ ->] | Hu ].
        - apply Qle_refl.
        - eapply Hmin; [ exact Hu | exact Hm ]. }
      destruct (relax_loop_total weight cutoff
                  (dict_set (snd m) (fst (fst m)) dist) (fst (fst m)) succ
                  (seen, c, fringe1)) as (st & Hst).
      { intros ue Hue. split.
        - apply (successors_ok _ _ _ Hsucc Hue).
        - intros du Hdu. eapply Hfinal. exact Hdu. }
      rewrite Hst. simpl. destruct st as [[seen' c'] fringe'].
      apply relax_loop_Ok in Hst as [Hlen' Hin].
      pose proof (unexpanded_set (snd m) (fst (fst m)) dist (_adj G) succ
                    Hseen Hsucc) as Hexp.
      apply IH.
      * simpl in Hfuel, Hlen. lia.
      * intros x Hx. destruct (Hin x Hx) as [ Hold | (ue & cost & Hue & _ & Hs & _) ].
        -- apply Hadj, Hsub, Hold.
        -- rewrite Hs. apply (successors_ok _ _ _ Hsucc Hue).
      * intros u du x Hu Hx.
        apply Qle_trans with (fst (fst m)); [ eapply Hfinal; exact Hu | ].
        destruct (Hin x Hx) as [ Hold | (ue & cost & Hue & Hw & _ & ->) ].
        -- apply min_entry_le. apply Hsub. exact Hold.
        -- destruct (successors_ok _ _ _ Hsucc Hue) as (_ & cost' & Hw' & Hpos).
           assert (cost' = cost) by congruence. subst cost'.
           rewrite <- (Qplus_0_r (fst (fst m))) at 1.
           apply Qplus_le_r. exact Hpos.
Qed.
End Search.

Lemma well_formed_successors (G : MultiDiGraph) (weight : key) :
  well_formed G weight = true ->
  forall v succ ue, dict_get v (_adj G) = Some succ -> In ue succ ->
    dict_mem (fst ue) (_adj G) = true /\
    exists cost, weight_function weight (snd ue) = Ok cost /\ (0 <= cost)%Q.
Proof.
  unfold well_formed. intros Hwf v succ ue Hv Hue.
  apply andb_true_iff in Hwf as [_ Hwf].
  rewrite forallb_forall in Hwf. apply dict_get_In in Hv.
  specialize (Hwf _ Hv). simpl in Hwf.
  rewrite forallb_forall in Hwf. specialize (Hwf _ Hue).
  apply andb_true_iff in Hwf as [Hmem Hw]. split; [ exact Hmem | ].
  destruct (weight_function weight (snd ue)) as [ cost | ]; [ | discriminate ].
  exists cost. split; [ reflexivity | apply Qle_bool_iff; exact Hw ].
Qed.

Lemma well_formed_source (G : MultiDiGraph) (weight : key) (s : node) :
  well_formed G weight = true -> dict_mem s (_node G) = true ->
  dict_mem s (_adj G) = true.
Proof.
  unfold well_formed. intros Hwf Hs.
  apply andb_true_iff in Hwf as [Hwf _].
  rewrite forallb_forall in Hwf.
  apply dict_mem_In in Hs as (data & _ & Hin).
  exact (Hwf _ Hin).
Qed.

Lemma unexpanded_empty (adj : dict node (dict node (dict Z attrs))) :
  unexpanded [] adj = list_sum (map (fun un => length (snd un)) adj).
Proof.
  unfold unexpanded. induction adj as [ | un adj IH ]; simpl in *; lia.
Qed.

(** The search raises Python's exceptions only: [dijkstra_fuel] is fuel
    enough on every graph. *)
Lemma dijkstra_fuel_enough (G : MultiDiGraph) (weight : key) (cutoff : option Q)
  (target : option node) (s : node) (e : exn) :
  dijkstra G s weight cutoff target = Raise e -> forall msg, e <> RuntimeError msg.
Proof.
  unfold dijkstra. destruct (dict_mem s (_node G)).
  - apply dijkstra_loop_fuel.
    rewrite unexpanded_empty. unfold dijkstra_fuel. simpl. lia.
  - intros He msg. injection He as <-. discriminate.
Qed.

(** The search from a node of a well-formed graph returns. *)
Lemma single_source_dijkstra_path_length_total (G : MultiDiGraph) (weight : key)
  (cutoff : option Q) (s : node) :
  well_formed G weight = true -> dict_mem s (_node G) = true ->
  exists r, single_source_dijkstra_path_length G s cutoff weight = Ok r.
Proof.
  intros Hwf Hs. unfold single_source_dijkstra_path_length, dijkstra.
  rewrite Hs. apply dijkstra_loop_total.
  - apply well_formed_successors. exact Hwf.
  - rewrite unexpanded_empty. unfold dijkstra_fuel. simpl. lia.
  - intros e [ <- | [] ]. simpl. eapply well_formed_source; eassumption.
  - intros u du e Hu. discriminate Hu.
Qed.

(** The nodes it gives a distance to are connected to the source. *)
Lemma single_source_dijkstra_path_length_sound (G : MultiDiGraph) (weight : key)
  (cutoff : option Q) (s : node) (r : dict node Q) (v : node) (x : Q) :
  single_source_dijkstra_path_length G s cutoff weight = Ok r ->
  dict_get v r = Some x -> path G s v.
Proof.
  unfold single_source_dijkstra_path_length, dijkstra.
  destruct (dict_mem s (_node G)); [ | discriminate ].
  intros Hr Hv.
  eapply dijkstra_loop_sound; [ | | exact Hr | exact Hv ].
  - intros v' x' Hv'. discriminate Hv'.
  - intros e [ <- | [] ]. apply path_nil.
Qed.

Lemma one_way_no_path_back : ~ path one_way 2%Z 1%Z.
Proof.
  assert (Hstay : forall x, path one_way 2%Z x -> x = 2%Z).
  { induction 1 as [ | v u _ IH Hl ]; [ reflexivity | ]. subst v.
    destruct Hl as (nbrs & kd & Hn & Hk & _). simpl in Hn.
    destruct Hn as [ Hn | [ Hn | [ Hn | [] ] ] ]; try discriminate Hn.
    injection Hn as <-. destruct Hk. }
  intros Hp. apply Hstay in Hp. discriminate.
Qed.

(** C2. On [one_way] no path leads from node 2 to node 1. Asked for the
    origins 2, 3 and the destination 1, [calculate_OD] swaps the two lists
    (lines 799-803), searches from node 1 and transposes: the cell of
    origin 2 and destination 1 holds the 7 seconds from 1 to 2, not the
    fail value 999. Asked for the same trip alone, origin 2 and
    destination 1, it does not swap, and the cell holds 999. *)
Theorem calculate_OD_one_way_back :
  ~ path one_way 2%Z 1%Z /\
  (exists OD,
     core.calculate_OD one_way (core.OriginsList [2%Z; 3%Z]) [1%Z] 999
       (KStr "time") false = Ok OD /\
     shape OD = (2, 1) /\
     np_get OD 0 0 = Ok 7%Q /\ ~ (7 == 999)%Q) /\
  (exists OD,
     core.calculate_OD one_way (core.OriginsList [2%Z]) [1%Z] 999
       (KStr "time") false = Ok OD /\
     shape OD = (1, 1) /\
     np_get OD 0 0 = Ok 999%Q).
Proof.
  split; [ exact one_way_no_path_back | ]. split.
  - eexists. split; [ vm_compute; reflexivity | ].
    split; [ reflexivity | ].
    split; [ reflexivity | ]. intros Heq. discriminate Heq.
  - eexists. split; [ vm_compute; reflexivity | ].
    split; reflexivity.
Qed.

(** ** remove_duplicate_edges *)

(** C4. With [max_ratio = 1.5] the two parallel edges of length 100 and
    160 are both kept; of the two of length 100 and 140 none is left:
    the loop visits the pair once per parallel edge and lists it for
    deletion each time. *)
Theorem remove_duplicate_edges_parallel_pair :
  core.remove_duplicate_edges (parallel_pair 100 140) (3 # 2)
    = Ok {| _node := [(1%Z, []); (2%Z, [])]; _adj := [(1%Z, []); (2%Z, [])] |}
  /\ core.remove_duplicate_edges (parallel_pair 100 160) (3 # 2)
    = Ok (parallel_pair 100 160).
Proof.
  split; vm_compute; reflexivity.
Qed.

(** A pair joined by one edge only loses that edge as well. *)
Example remove_duplicate_edges_single_edge :
  core.remove_duplicate_edges
    {| _node := [(1%Z, []); (2%Z, [])];
       _adj := [(1%Z, [(2%Z, [(0%Z, [(KStr "length", VNum 100)])])]); (2%Z, [])] |}
    (3 # 2)
  = Ok {| _node := [(1%Z, []); (2%Z, [])]; _adj := [(1%Z, []); (2%Z, [])] |}.
Proof. vm_compute. reflexivity. Qed.

(** ** generate_isochrones *)

(** The check of line 459 reads the dictionary of the first node. *)
Lemma generate_isochrones_time_check (G : MultiDiGraph) (u : node) (ddict : attrs)
  (rest : list (node * attrs)) (o : node) (os : list node) (thresh : Z)
  (stacking : value) :
  nodes G = (u, ddict) :: rest ->
  dict_mem (KStr "time") ddict = false ->
  core.generate_isochrones G (core.PyList (o :: os)) thresh None stacking
  = Raise (ValueError "need time key in edge value dictionary!").
Proof.
  intros Hn Ht. unfold core.generate_isochrones. simpl.
  rewrite Hn. simpl. rewrite Ht. reflexivity.
Qed.

(** C5. Without a weight argument, a graph whose edges all carry [time]
    is rejected when its first node carries none, and a graph whose edges
    carry no [time] is accepted when its first node does; [stacking = 0]
    is no boolean and is accepted; an [origins] that is no list, or an
    empty one, is rejected. *)
Theorem generate_isochrones_checks :
  core.generate_isochrones (one_edge [] [(KStr "time", VNum 7)])
    (core.PyList [1%Z]) 10 None (VBool false)
    = Raise (ValueError "need time key in edge value dictionary!")
  /\ core.generate_isochrones (one_edge [(KStr "time", VNum 7)] [])
       (core.PyList [1%Z]) 10 None (VBool false)
     = Ok {| _node := [(1%Z, [(KStr "time", VNum 7); (KInt 10, VNum 1)]);
                       (2%Z, [(KStr "time", VNum 7); (KInt 10, VNum 1)])];
             _adj := [(1%Z, [(2%Z, [(0%Z, [])])]); (2%Z, [])] |}
  /\ core.generate_isochrones (one_edge [(KStr "time", VNum 7)] [(KStr "time", VNum 7)])
       (core.PyList [1%Z]) 10 None (VNum 0)
     = Ok {| _node := [(1%Z, [(KStr "time", VNum 7); (KInt 10, VNum 1)]);
                       (2%Z, [(KStr "time", VNum 7); (KInt 10, VNum 1)])];
             _adj := [(1%Z, [(2%Z, [(0%Z, [(KStr "time", VNum 7)])])]); (2%Z, [])] |}
  /\ (forall G thresh weight stacking,
        core.generate_isochrones G (core.PyList []) thresh weight stacking
        = Raise (ValueError "Ensure isochrone centers (origins object) is a list containing at least one node ID!"))
  /\ (forall G thresh weight stacking,
        core.generate_isochrones G core.PyOther thresh weight stacking
        = Raise (ValueError "Ensure isochrone centers (origins object) is a list containing at least one node ID!")).
Proof.
  split; [ vm_compute; reflexivity | ].
  split; [ vm_compute; reflexivity | ].
  split; [ vm_compute; reflexivity | ].
  split; reflexivity.
Qed.

(** ** clip *)

(** C6. The first check of [clip] evaluates the name [shapely], which
    core.py does not bind: every call ends in a [NameError], whatever the
    boundary and the graph. *)
Theorem clip_raises_NameError
  (clip_edges : MultiDiGraph -> core.bound_arg -> result MultiDiGraph)
  (G : graph_arg) (bound : core.bound_arg) :
  core.clip clip_edges G bound = Raise (NameError "shapely").
Proof. reflexivity. Qed.

(** ** gravity_demand *)

(** C7. [gravity_demand] calls [Calculate_OD]; the module defines
    [calculate_OD]. Every call ends in a [NameError]. *)
Theorem gravity_demand_raises_NameError (np_exp : Q -> Q) (G : MultiDiGraph)
  (origins destinations : list node) (weight : key)
  (maxtrips dist_decay fail_value : Q) :
  core.gravity_demand np_exp G origins destinations weight maxtrips dist_decay
    fail_value = Raise (NameError "Calculate_OD").
Proof. reflexivity. Qed.

(** ** OSM.__init__ *)

(** C8. A way of one node is deleted from the dictionary the loop is
    iterating over, and the iterator raises at its next step. *)
Theorem OSM_init_one_node_way (py_float : string -> result Q) :
  osm_parser.OSM_init py_float one_node_way
  = Raise (RuntimeError "dictionary changed size during iteration").
Proof. reflexivity. Qed.

(** *** Way.split on documents that [OSM.__init__] gets through *)

Lemma first_divider_None (dividers : dict string Z) (l : list string) (i : nat) :
  osm_parser.first_divider dividers l i = Ok None ->
  Forall (no_divider dividers) l.
Proof.
  revert i. induction l as [ | x l IH ]; intros i Hf; simpl in Hf; constructor.
  - unfold getitem in Hf. destruct (dict_get x dividers) as [ c | ] eqn:Hx;
      simpl in Hf; [ | discriminate ].
    exists c. split; [ exact Hx | ].
    destruct (1 <? c)%Z eqn:Hc; [ discriminate | ]. apply Z.ltb_ge. exact Hc.
  - unfold getitem in Hf. destruct (dict_get x dividers) as [ c | ];
      simpl in Hf; [ | discriminate ].
    destruct (1 <? c)%Z; [ discriminate | ]. eapply IH. exact Hf.
Qed.

Lemma first_divider_Some (dividers : dict string Z) (l : list string) (i j : nat) :
  osm_parser.first_divider dividers l i = Ok (Some j) ->
  Forall (no_divider dividers) (firstn (j - i) l).
Proof.
  revert i. induction l as [ | x l IH ]; intros i Hf; simpl in Hf; [ discriminate | ].
  unfold getitem in Hf. destruct (dict_get x dividers) as [ c | ] eqn:Hx;
    simpl in Hf; [ | discriminate ].
  destruct (1 <? c)%Z eqn:Hc.
  - injection Hf as <-. rewrite Nat.sub_diag. constructor.
  - pose proof (osm_parser.first_divider_range _ _ _ _ Hf) as Hr.
    apply IH in Hf.
    replace (j - i) with (S (j - S i)) by lia. simpl. constructor; [ | exact Hf ].
    exists c. split; [ exact Hx | apply Z.ltb_ge; exact Hc ].
Qed.

(** The left slice ends at the first divider: its interior is the part of
    the interior of the array before that divider. *)
Lemma interior_firstn (ar : list string) (i : nat) :
  1 <= i < length ar - 1 ->
  osm_parser.interior (firstn (i + 1) ar) = firstn (i - 1) (osm_parser.interior ar).
Proof.
  intros Hi. unfold osm_parser.interior.
  destruct ar as [ | a ar ]; [ simpl in Hi; lia | ].
  simpl in Hi. replace (i + 1) with (S i) by lia. simpl.
  destruct i as [ | i ]; [ lia | ].
  rewrite removelast_firstn by lia.
  rewrite firstn_removelast by lia.
  replace (S i - 1) with i by lia. reflexivity.
Qed.

(** No slice of [slice_array] has a divider in its interior, and every
    slice of an array of two nodes or more has two nodes or more. *)
Lemma slice_array_interior (dividers : dict string Z) (ar : list string)
  (slices : list (list string)) :
  osm_parser.slice_array dividers ar = Ok slices ->
  Forall (fun slice =>
            Forall (no_divider dividers) (osm_parser.interior slice) /\
            (2 <= length ar -> 2 <= length slice)) slices.
Proof.
  revert slices. funelim (osm_parser.slice_array dividers ar); intros slices Hs.
  - match goal with
    | Hd : osm_parser.first_divider _ _ _ = Ok (Some _) |- _ =>
        pose proof (osm_parser.first_divider_range _ _ _ _ Hd) as Hrange;
        pose proof (first_divider_Some _ _ _ _ Hd) as Hbefore
    end.
    rewrite osm_parser.interior_length in Hrange.
    bind_inv Hs as rightsliced Hright. injection Hs as <-.
    constructor.
    + split.
      * rewrite interior_firstn by lia. exact Hbefore.
      * intros _. rewrite length_firstn. lia.
    + match goal with
      | IH : forall slices, _ -> Forall _ slices |- _ =>
          specialize (IH _ Hright)
      end.
      eapply Forall_impl; [ | eassumption ].
      intros slice [Hint Hlen]. split; [ exact Hint | ].
      intros _. apply Hlen. rewrite length_skipn. lia.
  - injection Hs as <-. constructor; [ | constructor ].
    split; [ | auto ]. eapply first_divider_None.
    match goal with Hd : osm_parser.first_divider _ _ _ = Ok None |- _ => exact Hd end.
  - discriminate Hs.
Qed.

(** The histogram after the nodes of one way are counted. *)
Lemma count_one_way (way_nds : list string) (hist hist' : dict string Z) :
  foldM (fun hist n => c <- getitem hist n ;; Ok (dict_set n (c + 1)%Z hist))
    way_nds hist = Ok hist' ->
  forall n,
    dict_get n hist' =
    match dict_get n hist with
    | Some c => Some (c + Z.of_nat (count_occ string_dec way_nds n))%Z
    | None => None
    end.
Proof.
  revert hist. induction way_nds as [ | x l IH ]; intros hist Hf n; simpl in Hf.
  - injection Hf as <-. destruct (dict_get n hist); [ | reflexivity ].
    simpl. f_equal. lia.
  - bind_inv Hf as hist1 Hh. bind_inv Hh as c Hc. injection Hh as <-.
    unfold getitem in Hc. destruct (dict_get x hist) as [ c0 | ] eqn:Hx;
      simpl in Hc; [ injection Hc as -> | discriminate ].
    rewrite (IH _ Hf n). simpl count_occ.
    destruct (string_dec x n) as [ -> | Hne ].
    + rewrite dict_get_set_eq, Hx. f_equal. lia.
    + rewrite dict_get_set_neq by exact Hne. reflexivity.
Qed.

(** The loop of lines 246-251 comes to its end on ways of two nodes or
    more only; it then leaves the ways as they are and has counted every
    reference. *)
Lemma count_nodes_Ok (objs : list osm_parser.element) (size : nat)
  (pending : list nat) (ways ways' : dict string nat) (hist hist' : dict string Z) :
  length ways = size ->
  osm_parser.count_nodes objs size pending ways hist = Ok (ways', hist') ->
  ways' = ways /\
  Forall (fun r => exists w, nth_error objs r = Some (osm_parser.WayElem w) /\
                             2 <= length (osm_parser.nds w)) pending /\
  forall n,
    dict_get n hist' =
    match dict_get n hist with
    | Some c => Some (c + Z.of_nat (count_occ string_dec (way_nodes objs pending) n))%Z
    | None => None
    end.
Proof.
  intros Hsize. revert hist.
  induction pending as [ | r pending IH ]; intros hist Hc; simpl in Hc;
    rewrite Hsize, Nat.eqb_refl in Hc; simpl in Hc.
  - injection Hc as <- <-. split; [ reflexivity | ]. split; [ constructor | ].
    intros n. destruct (dict_get n hist); [ | reflexivity ]. simpl. f_equal. lia.
  - bind_inv Hc as way Hway. bind_inv Hc as way_nds Hnds.
    unfold osm_parser.object_at in Hway.
    destruct (nth_error objs r) as [ way0 | ] eqn:Hr; simpl in Hway;
      [ injection Hway as -> | discriminate ].
    destruct way as [ nd | w ]; simpl in Hnds; [ discriminate | ].
    injection Hnds as <-.
    destruct (length (osm_parser.nds w) <? 2) eqn:Hshort.
    + exfalso. bind_inv Hc as ways1 Hdel.
      unfold delitem in Hdel.
      destruct (dict_mem (osm_parser.element_id (osm_parser.WayElem w)) ways) eqn:Hm;
        [ injection Hdel as <- | discriminate ].
      apply dict_remove_shorter in Hm. simpl in Hm.
      destruct pending; simpl in Hc;
        match type of Hc with
        | context [ length ?d =? size ] =>
            assert (Hne : (length d =? size) = false) by (apply Nat.eqb_neq; lia)
        end;
        rewrite Hne in Hc; discriminate Hc.
    + bind_inv Hc as hist1 Hh.
      apply IH in Hc as (-> & Hall & Hcount).
      split; [ reflexivity | ]. split.
      * constructor; [ | exact Hall ].
        exists w. split; [ exact Hr | ]. apply Nat.ltb_ge. exact Hshort.
      * intros n. rewrite Hcount, (count_one_way _ _ _ Hh n).
        destruct (dict_get n hist); [ | reflexivity ].
        unfold way_nodes. simpl flat_map. rewrite Hr. rewrite count_occ_app.
        f_equal. lia.
Qed.

Lemma In_fold_dict_set (split_ways : list osm_parser.Way)
  (acc : dict string osm_parser.Way) (k : string) (w : osm_parser.Way) :
  In (k, w)
    (fold_left (fun acc split_way => dict_set (osm_parser.id split_way) split_way acc)
       split_ways acc) ->
  In (k, w) acc \/ In w split_ways.
Proof.
  revert acc. induction split_ways as [ | sw l IH ]; intros acc Hin; simpl in Hin.
  - left. exact Hin.
  - apply IH in Hin as [ Hin | Hin ]; [ | right; right; exact Hin ].
    apply In_dict_set in Hin as [ [_ ->] | Hin ]; [ right; left; reflexivity | left; exact Hin ].
Qed.

(** The ways of [Way.split] carry the slices of [slice_array]. *)
Lemma split_nds (self w : osm_parser.Way) (dividers : dict string Z)
  (split_ways : list osm_parser.Way) :
  osm_parser.split self dividers = Ok split_ways -> In w split_ways ->
  exists slices,
    osm_parser.slice_array dividers (osm_parser.nds self) = Ok slices /\
    In (osm_parser.nds w) slices.
Proof.
  unfold osm_parser.split. intros Hs Hw. bind_inv Hs as slices Hsl.
  injection Hs as <-. exists slices. split; [ exact Hsl | ].
  apply in_map_iff in Hw as ([i slice] & <- & Hin). simpl.
  eapply in_combine_r. exact Hin.
Qed.

(** X18. When [OSM.__init__] gets through a document, every way of the
    result has two nodes or more, and no node in its interior is
    referenced more than once by the parsed ways. *)
Lemma build_splits_ways (h : osm_parser.handler) (osm : osm_parser.OSM)
  (k : string) (w : osm_parser.Way) :
  osm_parser.build h = Ok osm ->
  In (k, w) (osm_parser.OSM_ways osm) ->
  2 <= length (osm_parser.nds w) /\
  Forall (fun n => references h n <= 1) (osm_parser.interior (osm_parser.nds w)).
Proof.
  unfold osm_parser.build. intros Hb Hw.
  bind_inv Hb as counted Hcount. destruct counted as [ways hist].
  apply count_nodes_Ok in Hcount as (-> & Hways & Hhist); [ | reflexivity ].
  bind_inv Hb as new_ways Hnew. bind_inv Hb as all_nodes Hnodes.
  injection Hb as <-. simpl in Hw.
  assert (Hgen : forall (l : dict string nat) acc,
            (forall kr, In kr l -> In (snd kr) (dict_values (osm_parser.ways h))) ->
            foldM (fun new_ways kv =>
                     way <- osm_parser.object_at (osm_parser.objects h) (snd kv) ;;
                     split_ways <-
                       match way with
                       | osm_parser.WayElem w => osm_parser.split w hist
                       | osm_parser.NodeElem _ => Raise AttributeError
                       end ;;
                     Ok (fold_left
                           (fun acc split_way =>
                              dict_set (osm_parser.id split_way) split_way acc)
                           split_ways new_ways)) l acc = Ok new_ways ->
            In (k, w) new_ways ->
            In (k, w) acc \/
            exists self slices,
              2 <= length (osm_parser.nds self) /\
              osm_parser.slice_array hist (osm_parser.nds self) = Ok slices /\
              In (osm_parser.nds w) slices).
  { induction l as [ | [k0 r] l IH ]; intros acc Hsub Hf Hin; simpl in Hf.
    - injection Hf as <-. left. exact Hin.
    - bind_inv Hf as acc1 Hacc. bind_inv Hacc as way Hway.
      bind_inv Hacc as split_ways Hsplit. injection Hacc as <-.
      destruct (IH _ (fun kr Hkr => Hsub kr (or_intror Hkr)) Hf Hin)
        as [ Hacc | Hdone ]; [ | right; exact Hdone ].
      apply In_fold_dict_set in Hacc as [ Hacc | Hsw ]; [ left; exact Hacc | right ].
      destruct way as [ nd | self ]; [ discriminate | ].
      destruct (split_nds _ _ _ _ Hsplit Hsw) as (slices & Hsl & Hnds).
      exists self, slices. split; [ | auto ].
      rewrite Forall_forall in Hways.
      destruct (Hways r (Hsub (k0, r) (or_introl eq_refl))) as (w0 & Hw0 & Hlen).
      unfold osm_parser.object_at in Hway. simpl in Hway. rewrite Hw0 in Hway.
      simpl in Hway. injection Hway as <-. exact Hlen. }
  destruct (Hgen _ _ (fun kr Hkr => in_map snd _ _ Hkr) Hnew Hw)
    as [ [] | (self & slices & Hlen & Hsl & Hnds) ].
  apply slice_array_interior in Hsl. rewrite Forall_forall in Hsl.
  destruct (Hsl _ Hnds) as [Hint Htwo]. split; [ apply Htwo; exact Hlen | ].
  eapply Forall_impl; [ | exact Hint ].
  intros n (c & Hc & Hle). unfold references.
  rewrite Hhist in Hc.
  destruct (dict_get n (map (fun kv => (fst kv, 0%Z)) (osm_parser.nodes h)))
    as [ c0 | ] eqn:Hc0; [ | discriminate ].
  assert (c0 = 0%Z) as ->.
  { clear - Hc0. induction (osm_parser.nodes h) as [ | [k0 r0] l IH ];
      simpl in Hc0; [ discriminate | ].
    destruct (eq_dec n k0); [ congruence | auto ]. }
  injection Hc as <-. lia.
Qed.

(** ** add_missing_reflected_edges *)

Lemma edge_pairs_linked (G : MultiDiGraph) (a b : node) :
  In (a, b) (edge_pairs G) <-> linked G a b.
Proof.
  unfold edge_pairs, edges, linked. rewrite in_map_iff. split.
  - intros (e & Hp & He).
    apply in_flat_map in He as ([u nbrs] & Hu & He).
    apply in_flat_map in He as ([v kd] & Hv & He).
    apply in_map_iff in He as ([k d] & <- & Hk).
    simpl in *. injection Hp as <- <-.
    exists nbrs, kd. repeat split; try assumption.
    intros ->. contradiction.
  - intros (nbrs & kd & Hu & Hv & Hne).
    destruct kd as [ | [k d] kd ]; [ congruence | ].
    exists (a, b, k, d). split; [ reflexivity | ].
    apply in_flat_map. exists (a, nbrs). split; [ exact Hu | ].
    apply in_flat_map. exists (b, (k, d) :: kd). split; [ exact Hv | ].
    simpl. left. reflexivity.
Qed.

Lemma linked_ensure_node (G : MultiDiGraph) (x a b : node) :
  linked (ensure_node G x) a b <-> linked G a b.
Proof.
  unfold ensure_node. destruct (dict_mem x (_adj G)) eqn:Hx; [ reflexivity | ].
  unfold linked. simpl. split.
  - intros (nbrs & kd & Hu & Hv & Hne).
    apply In_dict_set in Hu as [ [_ ->] | Hu ]; [ contradiction | ].
    exists nbrs, kd. auto.
  - intros (nbrs & kd & Hu & Hv & Hne).
    exists nbrs, kd. repeat split; try assumption.
    apply In_dict_set_other; [ | exact Hu ].
    intros ->. apply In_dict_mem in Hu. congruence.
Qed.

(** [add_edge] joins [u] and [v] and leaves every other pair as it was. *)
Lemma linked_add_edge (G : MultiDiGraph) (u v : node) (attr : attrs) (a b : node) :
  linked (add_edge G u v attr) a b <-> (a = u /\ b = v) \/ linked G a b.
Proof.
  unfold add_edge.
  set (G1 := ensure_node (ensure_node G u) v).
  assert (HG1 : linked G1 a b <-> linked G a b).
  { unfold G1. rewrite linked_ensure_node. apply linked_ensure_node. }
  rewrite <- HG1. clearbody G1. clear HG1.
  set (k := new_edge_key G1 u v). clearbody k.
  set (nbrs := match dict_get u (_adj G1) with Some n => n | None => [] end).
  assert (Hnbrs : forall bk, In bk nbrs -> In (u, nbrs) (_adj G1)).
  { unfold nbrs. destruct (dict_get u (_adj G1)) as [ n | ] eqn:Hn.
    - intros _ _. apply dict_get_In. exact Hn.
    - intros bk []. }
  assert (Hfirst : forall n, dict_get u (_adj G1) = Some n -> n = nbrs).
  { unfold nbrs. intros n ->. reflexivity. }
  clearbody nbrs.
  unfold linked. simpl.
  match goal with
  | |- context [ dict_set v ?kd nbrs ] => set (keydict := kd)
  end.
  assert (Hkd : keydict <> []).
  { unfold keydict. destruct (dict_get v nbrs);
      [ apply dict_set_nonempty | discriminate ]. }
  clearbody keydict.
  split.
  - intros (n & kd & Hu & Hv & Hne).
    apply In_dict_set in Hu as [ [-> ->] | Hu ].
    + apply In_dict_set in Hv as [ [-> ->] | Hv ]; [ left; split; reflexivity | ].
      right. exists nbrs, kd. repeat split; try assumption.
      eapply Hnbrs. exact Hv.
    + right. exists n, kd. auto.
  - intros [ [-> ->] | (n & kd & Hu & Hv & Hne) ].
    + exists (dict_set v keydict nbrs), keydict.
      repeat split; [ apply In_dict_set_new | apply In_dict_set_new | exact Hkd ].
    + apply (In_dict_set_cases u (dict_set v keydict nbrs)) in Hu
        as [ Hu | [-> Hu] ].
      * exists n, kd. auto.
      * apply Hfirst in Hu. subst n.
        apply (In_dict_set_cases v keydict) in Hv as [ Hv | [-> Hv] ].
        -- exists (dict_set v keydict nbrs), kd.
           repeat split; [ apply In_dict_set_new | exact Hv | exact Hne ].
        -- exists (dict_set v keydict nbrs), keydict.
           repeat split; [ apply In_dict_set_new | apply In_dict_set_new | exact Hkd ].
Qed.

Lemma linked_add_edges_from (ebunch : list (node * node * attrs)) (G : MultiDiGraph)
  (a b : node) :
  linked (add_edges_from G ebunch) a b
  <-> linked G a b \/ In (a, b) (map fst ebunch).
Proof.
  unfold add_edges_from. revert G.
  induction ebunch as [ | [[u v] attr] ebunch IH ]; intros G; simpl.
  - tauto.
  - rewrite IH, linked_add_edge. split.
    + intros [ [ [-> ->] | HG ] | Hin ]; auto.
    + intros [ HG | [ Heq | Hin ] ]; auto.
      injection Heq as -> ->. auto.
Qed.

(** The pairs [add_missing_reflected_edges] lists as missing. *)
Lemma missing_edges_pairs (G : MultiDiGraph) (a b : node) :
  In (a, b)
    (map fst
       (flat_map
          (fun e =>
             if list_mem (edge_v e, edge_u e) (map (fun e => (edge_u e, edge_v e)) (edges G))
             then []
             else [(edge_v e, edge_u e, edge_data e)]) (edges G)))
  <-> In (b, a) (edge_pairs G) /\ ~ In (a, b) (edge_pairs G).
Proof.
  rewrite in_map_iff. split.
  - intros ([[a' b'] attr] & Hp & Hin). simpl in Hp. injection Hp as -> ->.
    apply in_flat_map in Hin as (e & He & Hin).
    destruct (list_mem _ _) eqn:Hmem; [ contradiction | ].
    destruct Hin as [ Heq | [] ]. injection Heq as <- <- _.
    split.
    + unfold edge_pairs. apply in_map_iff. exists e. split; [ reflexivity | exact He ].
    + intros Hab. apply list_mem_In in Hab. unfold edge_pairs, edge_pair in Hab.
      congruence.
  - intros [Hba Hab]. unfold edge_pairs in Hba.
    apply in_map_iff in Hba as (e & Hp & He). injection Hp as <- <-.
    exists (edge_v e, edge_u e, edge_data e). split; [ reflexivity | ].
    apply in_flat_map. exists e. split; [ exact He | ].
    destruct (list_mem _ _) eqn:Hmem; [ | left; reflexivity ].
    apply list_mem_In in Hmem. contradiction.
Qed.

Lemma symmetric_pairs (G : MultiDiGraph) :
  symmetric G <-> forall a b, In (a, b) (edge_pairs G) -> In (b, a) (edge_pairs G).
Proof.
  unfold symmetric, edge_pairs. split.
  - intros Hs a b Hab. apply in_map_iff in Hab as (e & Hp & He).
    injection Hp as <- <-. destruct (Hs e He) as (e' & He' & Hu & Hv).
    apply in_map_iff. exists e'. split; [ | exact He' ].
    unfold edge_pair. congruence.
  - intros Hs e He.
    assert (Hp : In (edge_u e, edge_v e) (map edge_pair (edges G))).
    { apply in_map_iff. exists e. split; [ reflexivity | exact He ]. }
    apply Hs in Hp. apply in_map_iff in Hp as (e' & Hp' & He').
    injection Hp' as Hu Hv. exists e'. auto.
Qed.

(** On a graph that is symmetric already nothing is missing. *)
Lemma add_missing_reflected_edges_symmetric (G : MultiDiGraph) :
  symmetric G -> core.add_missing_reflected_edges G = G.
Proof.
  intros Hs. unfold core.add_missing_reflected_edges.
  assert (Hnone : forall l : list edge,
            (forall e, In e l -> In e (edges G)) ->
            flat_map
              (fun e =>
                 if list_mem (edge_v e, edge_u e)
                      (map (fun e => (edge_u e, edge_v e)) (edges G))
                 then []
                 else [(edge_v e, edge_u e, edge_data e)]) l = []).
  { induction l as [ | e l IH ]; intros Hl; simpl; [ reflexivity | ].
    rewrite IH by (intros e' He'; apply Hl; right; exact He').
    destruct (list_mem _ _) eqn:Hmem; [ reflexivity | exfalso ].
    destruct (Hs e (Hl e (or_introl eq_refl))) as (e' & He' & Hu & Hv).
    assert (Hin : In (edge_v e, edge_u e)
                    (map (fun e => (edge_u e, edge_v e)) (edges G))).
    { apply in_map_iff. exists e'. split; [ congruence | exact He' ]. }
    apply list_mem_In in Hin. congruence. }
  rewrite Hnone by auto. reflexivity.
Qed.

(** C9. The output of [add_missing_reflected_edges] is symmetric, and the
    function applied to its own output returns that output: the same
    nodes, the same edges. *)
Theorem add_missing_reflected_edges_idempotent (G : MultiDiGraph) :
  symmetric (core.add_missing_reflected_edges G) /\
  core.add_missing_reflected_edges (core.add_missing_reflected_edges G)
  = core.add_missing_reflected_edges G.
Proof.
  assert (Hs : symmetric (core.add_missing_reflected_edges G)).
  { apply symmetric_pairs. intros a b.
    rewrite !edge_pairs_linked. unfold core.add_missing_reflected_edges.
    rewrite !linked_add_edges_from, !missing_edges_pairs, <- !edge_pairs_linked.
    intros [ Hab | [Hba _] ].
    - destruct (in_dec eq_dec (b, a) (edge_pairs G)) as [ Hin | Hout ]; auto.
    - auto. }
  split; [ exact Hs | ].
  apply add_missing_reflected_edges_symmetric. exact Hs.
Qed.

(** ** disrupt_network *)

(** The nodes the first loop of [disrupt_network] collects. *)
Lemma broken_nodes_above (property : key) (thresh : Q)
  (ns : list (node * attrs)) (acc broken : list node) :
  foldM (fun broken_nodes ud =>
           x <- getitem (snd ud) property ;;
           x <- as_number x ;;
           Ok (if Qltb thresh x then broken_nodes ++ [fst ud] else broken_nodes))
    ns acc = Ok broken ->
  forall u, In u broken ->
    In u acc \/
    exists data v x, In (u, data) ns /\ dict_get property data = Some v /\
                     as_number v = Ok x /\ ~ (x <= thresh)%Q.
Proof.
  revert acc. induction ns as [ | [n data] ns IH ]; intros acc Hf u Hu; simpl in Hf.
  - injection Hf as <-. left. exact Hu.
  - bind_inv Hf as acc' Hacc. simpl in Hacc.
    bind_inv Hacc as v Hv. bind_inv Hacc as x Hx. injection Hacc as <-.
    unfold getitem in Hv. destruct (dict_get property data) as [ v0 | ] eqn:Hg;
      simpl in Hv; [ injection Hv as -> | discriminate ].
    destruct (IH _ Hf u Hu) as [ Hin | (d & v' & x' & Hin & Hrest) ].
    + destruct (Qltb thresh x) eqn:Hlt; [ | left; exact Hin ].
      apply in_app_or in Hin as [ Hin | [ <- | [] ] ]; [ left; exact Hin | ].
      right. exists data, v, x. repeat split; try assumption.
      * left. reflexivity.
      * apply Qltb_true. exact Hlt.
    + right. exists d, v', x'. split; [ right; exact Hin | exact Hrest ].
Qed.

Lemma nth_error_store_set_other (r r' : ref) (g : MultiDiGraph) (st : store) :
  r' <> r -> nth_error (store_set r g st) r' = nth_error st r'.
Proof.
  revert r r'. induction st as [ | g0 st IH ]; intros r r' Hne.
  - destruct r; reflexivity.
  - destruct r as [ | r ]; destruct r' as [ | r' ]; simpl; try reflexivity.
    + congruence.
    + apply IH. congruence.
Qed.

Lemma nth_error_store_set_same (r : ref) (g : MultiDiGraph) (st : store) :
  r < length st -> nth_error (store_set r g st) r = Some g.
Proof.
  revert r. induction st as [ | g0 st IH ]; intros r Hr; simpl in Hr; [ lia | ].
  destruct r as [ | r ]; simpl; [ reflexivity | apply IH; lia ].
Qed.

Lemma deref_Ok (r : ref) (st : store) (g : MultiDiGraph) :
  deref r st = Ok g <-> nth_error st r = Some g.
Proof.
  unfold deref. destruct (nth_error st r); simpl; split; congruence.
Qed.

(** C10. [disrupt_network] returns a new graph object and leaves every
    object of the caller's store, the input graph among them, as it was;
    the nodes of the result carry the attributes of the input; an edge of
    the result differs from the input edge in its [time] at most, and not
    at all when both end nodes are at or below the threshold. *)
Theorem disrupt_network_frame (G G_copy : ref) (property : key) (thresh : Q)
  (fail_value : value) (st st' : store) :
  core.disrupt_network G property thresh fail_value st = Ok (G_copy, st') ->
  exists g g',
    deref G st = Ok g /\ deref G_copy st' = Ok g' /\
    G_copy = length st /\
    (forall r, r < length st -> nth_error st' r = nth_error st r) /\
    nodes g' = nodes g /\
    Forall2 (fun e e' =>
               same_edge e e' /\
               (forall k, k <> KStr "time" ->
                  dict_get k (edge_data e') = dict_get k (edge_data e)) /\
               (within_threshold g property thresh (edge_u e) ->
                within_threshold g property thresh (edge_v e) ->
                edge_data e' = edge_data e))
      (edges g) (edges g').
Proof.
  unfold core.disrupt_network. intros Hd.
  bind_inv Hd as cp Hcp. destruct cp as [r st1].
  unfold copy in Hcp. bind_inv Hcp as g Hg. injection Hcp as <- <-.
  bind_inv Hd as g1 Hg1.
  assert (g1 = g) as ->.
  { apply deref_Ok in Hg1. rewrite nth_error_app2 in Hg1 by lia.
    rewrite Nat.sub_diag in Hg1. simpl in Hg1. congruence. }
  bind_inv Hd as broken Hbroken. bind_inv Hd as g' Hg'.
  injection Hd as <- <-.
  apply map_edge_data_edges in Hg' as [Hnodes Hedges].
  exists g, g'. split; [ exact Hg | ].
  split; [ apply deref_Ok, nth_error_store_set_same; rewrite length_app; simpl; lia | ].
  split; [ reflexivity | ].
  split.
  { intros r Hr. rewrite nth_error_store_set_other by lia.
    apply nth_error_app1. exact Hr. }
  split; [ exact Hnodes | ].
  eapply Forall2_impl; [ | exact Hedges ].
  intros e e' [Hsame He]. split; [ exact Hsame | ].
  injection He as He. split.
  - intros k Hk. rewrite <- He.
    destruct (_ || _); [ | reflexivity ].
    apply dict_get_set_neq. congruence.
  - intros Hu Hv. rewrite <- He.
    destruct (list_mem (edge_u e) broken) eqn:Hbu.
    + exfalso. apply list_mem_In in Hbu.
      destruct (broken_nodes_above _ _ _ _ _ Hbroken _ Hbu)
        as [ [] | (data & v & x & Hin & Hv1 & Hx & Hgt) ].
      destruct (Hu data Hin) as (v' & x' & Hv' & Hx' & Hle).
      apply Hgt. congruence.
    + destruct (list_mem (edge_v e) broken) eqn:Hbv; [ exfalso | reflexivity ].
      apply list_mem_In in Hbv.
      destruct (broken_nodes_above _ _ _ _ _ Hbroken _ Hbv)
        as [ [] | (data & v & x & Hin & Hv1 & Hx & Hgt) ].
      destruct (Hv data Hin) as (v' & x' & Hv' & Hx' & Hle).
      apply Hgt. congruence.
Qed.

(** C10 on [flood_graph] with threshold 1: the call returns a second
    object, the first is the input as before, and the copy has the nodes
    of the input. *)
Lemma disrupt_network_flood_graph :
  exists st' g',
    core.disrupt_network 0 (KStr "flood") 1 (VNum 99999) [flood_graph]
      = Ok (1, st') /\
    nth_error st' 0 = Some flood_graph /\
    nth_error st' 1 = Some g' /\
    nodes g' = nodes flood_graph /\
    length (edges g') = 2.
Proof.
  eexists.
  destruct (disrupt_network_frame 0 1 (KStr "flood") 1 (VNum 99999)
              [flood_graph] _ eq_refl)
    as (g & g' & Hg & Hg' & _ & Hst & Hn & He).
  exists g'.
  apply deref_Ok in Hg. simpl in Hg. injection Hg as <-.
  split; [ reflexivity | ].
  split; [ exact (Hst 0 (Nat.lt_0_succ 0)) | ].
  split; [ apply deref_Ok; exact Hg' | ].
  split; [ exact Hn | ].
  apply Forall2_length in He. rewrite <- He. reflexivity.
Defined.

(** * Further properties *)

(** ** The search finds least costs *)

Lemma within_le (cutoff : option Q) (a b : Q) :
  within cutoff b -> (a <= b)%Q -> within cutoff a.
Proof.
  destruct cutoff as [ r | ]; simpl; [ | trivial ].
  intros Hb Hab. eapply Qle_trans; eassumption.
Qed.

Lemma within_dec (cutoff : option Q) (c : Q) :
  within cutoff c \/ exists r, cutoff = Some r /\ (r < c)%Q.
Proof.
  destruct cutoff as [ r | ]; simpl; [ | left; trivial ].
  destruct (Qlt_le_dec r c) as [ Hlt | Hle ]; [ right | left; exact Hle ].
  exists r. split; [ reflexivity | exact Hlt ].
Qed.

Lemma Qle_plus_nonneg (a b : Q) : (0 <= b)%Q -> (a <= a + b)%Q.
Proof.
  intros Hb. rewrite <- (Qplus_0_r a) at 1. apply Qplus_le_r. exact Hb.
Qed.

Lemma well_formed_nonneg (G : MultiDiGraph) (weight : key) :
  well_formed G weight = true -> nonneg_weights G weight.
Proof.
  intros Hwf v nbrs ue cost Hv Hue Hcost.
  destruct (well_formed_successors G weight Hwf v nbrs ue Hv Hue)
    as (_ & cost' & Hcost' & Hpos).
  congruence.
Qed.

Lemma walk_nonneg (G : MultiDiGraph) (weight : key) (s v : node) (c : Q) :
  nonneg_weights G weight -> walk G weight s v c -> (0 <= c)%Q.
Proof.
  intros Hpos. induction 1 as [ | v u c nbrs keydict cost _ IH Hv Hu Hcost ].
  - apply Qle_refl.
  - eapply Qle_trans; [ exact IH | ]. apply Qle_plus_nonneg.
    exact (Hpos v nbrs (u, keydict) cost Hv Hu Hcost).
Qed.

(** A walk is a connecting path. *)
Lemma walk_path (G : MultiDiGraph) (weight : key) (s v : node) (c : Q) :
  walk G weight s v c -> path G s v.
Proof.
  induction 1 as [ | v u c nbrs keydict cost _ IH Hv Hu Hcost ].
  - apply path_nil.
  - apply path_step with v; [ exact IH | ].
    exists nbrs, keydict. split; [ apply dict_get_In; exact Hv | ].
    split; [ exact Hu | eapply weight_function_nonempty; exact Hcost ].
Qed.

Lemma covered_incl (dist : dict node Q) (fringe fringe' : list entry) (u : node)
  (b : Q) :
  incl fringe fringe' -> covered dist fringe u b -> covered dist fringe' u b.
Proof.
  intros Hincl [ Hd | (e & He & Hu & Hb) ]; [ left; exact Hd | right ].
  exists e. split; [ apply Hincl; exact He | split; assumption ].
Qed.

Lemma covered_le (dist : dict node Q) (fringe : list entry) (u : node) (b b' : Q) :
  (b <= b')%Q -> covered dist fringe u b -> covered dist fringe u b'.
Proof.
  intros Hbb [ Hd | (e & He & Hu & Hb) ]; [ left; exact Hd | right ].
  exists e. split; [ exact He | split; [ exact Hu | ] ].
  eapply Qle_trans; eassumption.
Qed.

(** Counters tell the entries of the heap apart. *)
Lemma counters_inj (l : list entry) (a b : entry) :
  NoDup (map (fun e : entry => snd (fst e)) l) -> In a l -> In b l ->
  snd (fst a) = snd (fst b) -> a = b.
Proof.
  induction l as [ | x l IH ]; simpl; [ tauto | ].
  intros Hnd Ha Hb Hab. inversion Hnd as [ | c cs Hx Hnd' ]; subst.
  destruct Ha as [ -> | Ha ]; destruct Hb as [ -> | Hb ].
  - reflexivity.
  - exfalso. apply Hx. rewrite Hab.
    exact (in_map (fun e : entry => snd (fst e)) l b Hb).
  - exfalso. apply Hx. rewrite <- Hab.
    exact (in_map (fun e : entry => snd (fst e)) l a Ha).
  - apply IH; assumption.
Qed.

Lemma In_remove_entry_other (c : nat) (l : list entry) (x : entry) :
  In x l -> snd (fst x) <> c -> In x (remove_entry c l).
Proof.
  induction l as [ | y l IH ]; simpl; [ tauto | ].
  intros Hx Hc. destruct (snd (fst y) =? c) eqn:Hy.
  - apply Nat.eqb_eq in Hy. destruct Hx as [ -> | Hx ]; [ congruence | exact Hx ].
  - destruct Hx as [ -> | Hx ]; [ left; reflexivity | right; apply IH; assumption ].
Qed.

Lemma remove_entry_cases (l : list entry) (m e : entry) :
  NoDup (map (fun e : entry => snd (fst e)) l) -> In m l -> In e l ->
  e = m \/ In e (remove_entry (snd (fst m)) l).
Proof.
  intros Hnd Hm He.
  destruct (Nat.eq_dec (snd (fst e)) (snd (fst m))) as [ Heq | Hne ].
  - left. eapply counters_inj; eassumption.
  - right. apply In_remove_entry_other; assumption.
Qed.

Lemma remove_entry_NoDup (c : nat) (l : list entry) :
  NoDup (map (fun e : entry => snd (fst e)) l) ->
  NoDup (map (fun e : entry => snd (fst e)) (remove_entry c l)).
Proof.
  induction l as [ | y l IH ]; simpl; [ trivial | ].
  intros Hnd. inversion Hnd as [ | c' cs Hy Hnd' ]; subst.
  destruct (snd (fst y) =? c); [ exact Hnd' | ].
  simpl. constructor; [ | apply IH; exact Hnd' ].
  intros Hin. apply Hy. apply in_map_iff in Hin as (x & Hx & Hin).
  apply in_map_iff. exists x. split; [ exact Hx | ].
  eapply In_remove_entry. exact Hin.
Qed.

Section LeastCost.
Variable G : MultiDiGraph.
Variable weight : key.
Variable cutoff : option Q.
Variable s : node.
Hypothesis weights_nonneg : nonneg_weights G weight.

(** An entry that leaves the heap leaves its node covered, when the node
    is settled. *)
Lemma covered_pop (dist dist' : dict node Q) (fringe : list entry) (m : entry)
  (u : node) (b : Q) :
  NoDup (map (fun e : entry => snd (fst e)) fringe) -> In m fringe ->
  (forall k, dict_mem k dist = true -> dict_mem k dist' = true) ->
  dict_mem (snd m) dist' = true ->
  covered dist fringe u b ->
  covered dist' (remove_entry (snd (fst m)) fringe) u b.
Proof.
  intros Hnd Hm Hmono Hsettled [ Hd | (e & He & Hu & Hb) ].
  - left. apply Hmono. exact Hd.
  - destruct (remove_entry_cases fringe m e Hnd Hm He) as [ -> | Hin ].
    + left. rewrite <- Hu. exact Hsettled.
    + right. exists e. split; [ exact Hin | split; assumption ].
Qed.

(** The end of a walk within the cut-off is settled, or the heap holds
    an entry that costs no more than the walk. *)
Lemma search_inv_reach (dist seen : dict node Q) (c : nat) (fringe : list entry) :
  search_inv G weight cutoff s dist seen c fringe ->
  closed_by G weight cutoff (fun _ _ => True) dist fringe ->
  forall u c', walk G weight s u c' -> within cutoff c' ->
    dict_mem u dist = true \/
    exists e, In e fringe /\ (fst (fst e) <= c')%Q.
Proof.
  intros Hinv Hclosed u c' Hwalk.
  induction Hwalk as [ | v u c0 nbrs keydict cost Hw IH Hv Hu Hcost ]; intros Hin.
  - destruct (inv_source _ _ _ _ _ _ _ _ Hinv) as [ Hd | (e & He & _ & Hb) ];
      [ left; exact Hd | right; exists e; split; assumption ].
  - assert (Hpos : (0 <= cost)%Q)
      by exact (weights_nonneg v nbrs (u, keydict) cost Hv Hu Hcost).
    destruct IH as [ Hd | (e & He & Hb) ].
    + eapply within_le; [ exact Hin | apply Qle_plus_nonneg; exact Hpos ].
    + apply dict_mem_In in Hd as (dv & Hdv & _).
      assert (Hle : (dv <= c0)%Q)
        by exact (inv_dist_least _ _ _ _ _ _ _ _ Hinv v dv Hdv c0 Hw).
      assert (Hle' : (dv + cost <= c0 + cost)%Q)
        by (apply Qplus_le_l; exact Hle).
      destruct (Hclosed v dv nbrs u keydict cost Hdv Hv Hu Hcost
                  (within_le _ _ _ Hin Hle') I)
        as [ Hd | (e & He & _ & Hb) ]; [ left; exact Hd | right ].
      exists e. split; [ exact He | eapply Qle_trans; eassumption ].
    + right. exists e. split; [ exact He | ].
      eapply Qle_trans; [ exact Hb | apply Qle_plus_nonneg; exact Hpos ].
Qed.

(** An entry of a settled node is dropped. *)
Lemma search_inv_skip (dist seen : dict node Q) (c : nat) (fringe : list entry)
  (m : entry) :
  search_inv G weight cutoff s dist seen c fringe ->
  closed_by G weight cutoff (fun _ _ => True) dist fringe ->
  In m fringe -> dict_mem (snd m) dist = true ->
  search_inv G weight cutoff s dist seen c (remove_entry (snd (fst m)) fringe) /\
  closed_by G weight cutoff (fun _ _ => True) dist
    (remove_entry (snd (fst m)) fringe).
Proof.
  intros Hinv Hclosed Hm Hsettled.
  pose proof (inv_counters_distinct _ _ _ _ _ _ _ _ Hinv) as Hnd.
  assert (Hpop : forall u b, covered dist fringe u b ->
                   covered dist (remove_entry (snd (fst m)) fringe) u b).
  { intros u b. apply covered_pop; auto. }
  split.
  - constructor.
    + exact (inv_dist_walk _ _ _ _ _ _ _ _ Hinv).
    + exact (inv_dist_least _ _ _ _ _ _ _ _ Hinv).
    + exact (inv_dist_within _ _ _ _ _ _ _ _ Hinv).
    + intros e He. apply (inv_fringe_walk _ _ _ _ _ _ _ _ Hinv).
      eapply In_remove_entry. exact He.
    + intros e He. apply (inv_fringe_within _ _ _ _ _ _ _ _ Hinv).
      eapply In_remove_entry. exact He.
    + apply remove_entry_NoDup. exact Hnd.
    + intros e He. apply (inv_counters_below _ _ _ _ _ _ _ _ Hinv).
      eapply In_remove_entry. exact He.
    + intros u su Hu. apply Hpop. exact (inv_seen _ _ _ _ _ _ _ _ Hinv u su Hu).
    + apply Hpop. exact (inv_source _ _ _ _ _ _ _ _ Hinv).
  - intros v dv nbrs u keydict cost Hdv Hv Hu Hcost Hin _.
    apply Hpop. exact (Hclosed v dv nbrs u keydict cost Hdv Hv Hu Hcost Hin I).
Qed.

(** The least entry of the heap settles its node at its least cost. *)
Lemma search_inv_settle (dist seen : dict node Q) (c : nat) (e : entry)
  (rest : list entry) :
  let m := min_entry e rest in
  search_inv G weight cutoff s dist seen c (e :: rest) ->
  closed_by G weight cutoff (fun _ _ => True) dist (e :: rest) ->
  dict_mem (snd m) dist = false ->
  search_inv G weight cutoff s (dict_set (snd m) (fst (fst m)) dist) seen c
    (remove_entry (snd (fst m)) (e :: rest)) /\
  closed_by G weight cutoff (fun v x => v = snd m -> In x [])
    (dict_set (snd m) (fst (fst m)) dist)
    (remove_entry (snd (fst m)) (e :: rest)).
Proof.
  intros m Hinv Hclosed Hnew.
  assert (Hm : In m (e :: rest)) by apply min_entry_In.
  pose proof (inv_counters_distinct _ _ _ _ _ _ _ _ Hinv) as Hnd.
  assert (Hmono : forall k, dict_mem k dist = true ->
                    dict_mem k (dict_set (snd m) (fst (fst m)) dist) = true).
  { intros k Hk. rewrite dict_mem_set, Hk. apply orb_true_r. }
  assert (Hsettled : dict_mem (snd m) (dict_set (snd m) (fst (fst m)) dist) = true).
  { rewrite dict_mem_set. unfold eqb.
    destruct (eq_dec (snd m) (snd m)); [ reflexivity | congruence ]. }
  assert (Hpop : forall u b, covered dist (e :: rest) u b ->
                   covered (dict_set (snd m) (fst (fst m)) dist)
                     (remove_entry (snd (fst m)) (e :: rest)) u b).
  { intros u b. apply covered_pop; auto. }
  split.
  - constructor.
    + intros v x Hv. apply dict_get_set_cases in Hv as [ [-> ->] | Hv ].
      * exact (inv_fringe_walk _ _ _ _ _ _ _ _ Hinv m Hm).
      * exact (inv_dist_walk _ _ _ _ _ _ _ _ Hinv v x Hv).
    + intros v x Hv. apply dict_get_set_cases in Hv as [ [-> ->] | Hv ].
      * intros c' Hwalk.
        destruct (within_dec cutoff c') as [ Hin | (r & -> & Hlt) ].
        -- destruct (search_inv_reach dist seen c (e :: rest) Hinv Hclosed
                       (snd m) c' Hwalk Hin) as [ Hd | (x & Hx & Hb) ];
             [ congruence | ].
           eapply Qle_trans; [ apply min_entry_le; exact Hx | exact Hb ].
        -- destruct (inv_fringe_within _ _ _ _ _ _ _ _ Hinv m Hm) as [ Hr | Hz ].
           ++ simpl in Hr. eapply Qle_trans; [ exact Hr | ].
              apply Qlt_le_weak. exact Hlt.
           ++ eapply Qle_trans; [ exact Hz | ].
              eapply walk_nonneg; [ exact weights_nonneg | exact Hwalk ].
      * exact (inv_dist_least _ _ _ _ _ _ _ _ Hinv v x Hv).
    + intros v x Hv. apply dict_get_set_cases in Hv as [ [-> ->] | Hv ].
      * exact (inv_fringe_within _ _ _ _ _ _ _ _ Hinv m Hm).
      * exact (inv_dist_within _ _ _ _ _ _ _ _ Hinv v x Hv).
    + intros x Hx. apply (inv_fringe_walk _ _ _ _ _ _ _ _ Hinv).
      eapply In_remove_entry. exact Hx.
    + intros x Hx. apply (inv_fringe_within _ _ _ _ _ _ _ _ Hinv).
      eapply In_remove_entry. exact Hx.
    + apply remove_entry_NoDup. exact Hnd.
    + intros x Hx. apply (inv_counters_below _ _ _ _ _ _ _ _ Hinv).
      eapply In_remove_entry. exact Hx.
    + intros u su Hu. apply Hpop. exact (inv_seen _ _ _ _ _ _ _ _ Hinv u su Hu).
    + apply Hpop. exact (inv_source _ _ _ _ _ _ _ _ Hinv).
  - intros v dv nbrs u keydict cost Hdv Hv Hu Hcost Hin Hok.
    apply dict_get_set_cases in Hdv as [ [-> ->] | Hdv ].
    + destruct (Hok eq_refl).
    + apply Hpop. exact (Hclosed v dv nbrs u keydict cost Hdv Hv Hu Hcost Hin I).
Qed.

(** One turn of the inner loop covers the successor it looks at. *)
Lemma relax_inv (dist seen seen' : dict node Q) (c c' : nat)
  (fringe fringe' : list entry) (v0 : node) (dv : Q)
  (done : list (node * dict Z attrs)) (ue : node * dict Z attrs) :
  relax weight cutoff dist dv (seen, c, fringe) ue = Ok (seen', c', fringe') ->
  dict_get v0 dist = Some dv ->
  (forall cost, weight_function weight (snd ue) = Ok cost ->
     walk G weight s (fst ue) (dv + cost)%Q) ->
  search_inv G weight cutoff s dist seen c fringe ->
  closed_by G weight cutoff (fun v x => v = v0 -> In x done) dist fringe ->
  search_inv G weight cutoff s dist seen' c' fringe' /\
  closed_by G weight cutoff (fun v x => v = v0 -> In x (done ++ [ue])) dist fringe'.
Proof.
  intros Hr Hdv Hwalk Hinv Hclosed.
  assert (Hkeep : fringe' = fringe -> seen' = seen -> c' = c ->
            covered dist fringe (fst ue)
              (dv + match weight_function weight (snd ue) with
                    | Ok cost => cost
                    | Raise _ => 0
                    end)%Q \/
            (forall cost, weight_function weight (snd ue) = Ok cost ->
               ~ within cutoff (dv + cost)%Q) ->
            search_inv G weight cutoff s dist seen' c' fringe' /\
            closed_by G weight cutoff (fun v x => v = v0 -> In x (done ++ [ue]))
              dist fringe').
  { intros -> -> -> Hcov. split; [ exact Hinv | ].
    intros v dv' nbrs u keydict cost Hdv' Hv Hu Hcost Hin Hok.
    destruct (Z.eq_dec v v0) as [ -> | Hne ].
    - assert (dv' = dv) by congruence. subst dv'.
      destruct (in_app_or _ _ _ (Hok eq_refl)) as [ Hdone | [ Hue | [] ] ].
      + apply (Hclosed v0 dv nbrs u keydict cost Hdv Hv Hu Hcost Hin).
        intros _. exact Hdone.
      + subst ue. simpl in Hcov. rewrite Hcost in Hcov.
        destruct Hcov as [ Hcov | Hout ]; [ exact Hcov | ].
        exfalso. exact (Hout cost eq_refl Hin).
    - apply (Hclosed v dv' nbrs u keydict cost Hdv' Hv Hu Hcost Hin).
      intros Heq. congruence. }
  unfold relax in Hr. bind_inv Hr as cost Hcost.
  destruct (match cutoff with Some r => Qltb r (dv + cost) | None => false end)
    eqn:Hcut.
  - injection Hr as <- <- <-. apply Hkeep; try reflexivity. right.
    intros cost' Hcost' Hin. assert (cost' = cost) by congruence. subst cost'.
    destruct cutoff as [ r | ]; [ | discriminate ].
    apply Qltb_true in Hcut. apply Hcut. exact Hin.
  - destruct (dict_get (fst ue) dist) as [ u_dist | ] eqn:Hud.
    + destruct (Qltb (dv + cost) u_dist); [ discriminate | ].
      injection Hr as <- <- <-. apply Hkeep; try reflexivity. left. left.
      unfold dict_mem. rewrite Hud. reflexivity.
    + destruct (match dict_get (fst ue) seen with
                | Some s0 => Qltb (dv + cost) s0
                | None => true
                end) eqn:Hseen.
      * injection Hr as <- <- <-.
        assert (Hincl : incl fringe ((dv + cost, c, fst ue)%Q :: fringe))
          by (intros x Hx; right; exact Hx).
        split.
        -- constructor.
           ++ exact (inv_dist_walk _ _ _ _ _ _ _ _ Hinv).
           ++ exact (inv_dist_least _ _ _ _ _ _ _ _ Hinv).
           ++ exact (inv_dist_within _ _ _ _ _ _ _ _ Hinv).
           ++ intros x [ <- | Hx ]; simpl; [ apply Hwalk; exact Hcost | ].
              exact (inv_fringe_walk _ _ _ _ _ _ _ _ Hinv x Hx).
           ++ intros x [ <- | Hx ]; simpl.
              ** left. destruct cutoff as [ r | ]; simpl; [ | trivial ].
                 apply Qltb_false. exact Hcut.
              ** exact (inv_fringe_within _ _ _ _ _ _ _ _ Hinv x Hx).
           ++ simpl. constructor;
                [ | exact (inv_counters_distinct _ _ _ _ _ _ _ _ Hinv) ].
              intros Hin. apply in_map_iff in Hin as (x & Hx & Hin).
              pose proof (inv_counters_below _ _ _ _ _ _ _ _ Hinv x Hin). lia.
           ++ intros x [ <- | Hx ]; simpl; [ lia | ].
              pose proof (inv_counters_below _ _ _ _ _ _ _ _ Hinv x Hx). lia.
           ++ intros u su Hu. apply dict_get_set_cases in Hu as [ [-> ->] | Hu ].
              ** right. exists (dv + cost, c, fst ue)%Q.
                 split; [ left; reflexivity | ].
                 split; [ reflexivity | apply Qle_refl ].
              ** eapply covered_incl; [ exact Hincl | ].
                 exact (inv_seen _ _ _ _ _ _ _ _ Hinv u su Hu).
           ++ eapply covered_incl; [ exact Hincl | ].
              exact (inv_source _ _ _ _ _ _ _ _ Hinv).
        -- intros v dv' nbrs u keydict cost' Hdv' Hv Hu Hcost' Hin Hok.
           destruct (Z.eq_dec v v0) as [ -> | Hne ].
           ++ assert (dv' = dv) by congruence. subst dv'.
              destruct (in_app_or _ _ _ (Hok eq_refl)) as [ Hdone | [ Hue | [] ] ].
              ** eapply covered_incl; [ exact Hincl | ].
                 apply (Hclosed v0 dv nbrs u keydict cost' Hdv Hv Hu Hcost' Hin).
                 intros _. exact Hdone.
              ** subst ue. simpl in Hcost, Hcost'. assert (cost' = cost) by congruence.
                 subst cost'. right. exists (dv + cost, c, u)%Q.
                 split; [ left; reflexivity | ].
                 split; [ reflexivity | apply Qle_refl ].
           ++ eapply covered_incl; [ exact Hincl | ].
              apply (Hclosed v dv' nbrs u keydict cost' Hdv' Hv Hu Hcost' Hin).
              intros Heq. congruence.
      * injection Hr as <- <- <-. apply Hkeep; try reflexivity. left.
        rewrite Hcost.
        destruct (dict_get (fst ue) seen) as [ su | ] eqn:Hsu; [ | discriminate ].
        apply Qltb_false in Hseen.
        eapply covered_le; [ exact Hseen | ].
        exact (inv_seen _ _ _ _ _ _ _ _ Hinv (fst ue) su Hsu).
Qed.

(** The inner loop covers every successor of the node it expands. *)
Lemma relax_loop_inv (dist : dict node Q) (v0 : node) (dv : Q) :
  dict_get v0 dist = Some dv ->
  forall (todo done : list (node * dict Z attrs)) (seen seen' : dict node Q)
    (c c' : nat) (fringe fringe' : list entry),
    foldM (relax weight cutoff dist dv) todo (seen, c, fringe)
      = Ok (seen', c', fringe') ->
    (forall ue cost, In ue todo -> weight_function weight (snd ue) = Ok cost ->
       walk G weight s (fst ue) (dv + cost)%Q) ->
    search_inv G weight cutoff s dist seen c fringe ->
    closed_by G weight cutoff (fun v x => v = v0 -> In x done) dist fringe ->
    search_inv G weight cutoff s dist seen' c' fringe' /\
    closed_by G weight cutoff (fun v x => v = v0 -> In x (done ++ todo))
      dist fringe'.
Proof.
  intros Hdv todo.
  induction todo as [ | ue todo IH ];
    intros done seen seen' c c' fringe fringe' Hf Hwalk Hinv Hclosed; simpl in Hf.
  - injection Hf as <- <- <-. rewrite app_nil_r. split; assumption.
  - bind_inv Hf as st1 Hst1. destruct st1 as [[seen1 c1] fringe1].
    destruct (relax_inv dist seen seen1 c c1 fringe fringe1 v0 dv done ue
                Hst1 Hdv) as [Hinv1 Hclosed1]; try assumption.
    { intros cost Hcost. apply (Hwalk ue cost); [ left; reflexivity | exact Hcost ]. }
    destruct (IH (done ++ [ue]) seen1 seen' c1 c' fringe1 fringe' Hf)
      as [Hinv' Hclosed']; try assumption.
    { intros ue' cost Hue'. apply Hwalk. right. exact Hue'. }
    split; [ exact Hinv' | ].
    rewrite <- app_assoc in Hclosed'. exact Hclosed'.
Qed.

(** The loop ends with the least cost of every node it lists; it lists
    every node a walk within the cut-off leads to, unless it stopped at
    the target. *)
Lemma dijkstra_loop_least (target : option node) (fuel : nat) :
  forall (dist seen : dict node Q) (c : nat) (fringe : list entry)
    (r : dict node Q),
    dijkstra_loop fuel G weight cutoff target dist (seen, c, fringe) = Ok r ->
    search_inv G weight cutoff s dist seen c fringe ->
    closed_by G weight cutoff (fun _ _ => True) dist fringe ->
    (forall v x, dict_get v r = Some x ->
       least_cost G weight s v x /\ (within cutoff x \/ (x <= 0)%Q)) /\
    (forall u c', walk G weight s u c' -> within cutoff c' ->
       dict_mem u r = true \/
       exists t, target = Some t /\ dict_mem t r = true).
Proof.
  assert (Hend : forall dist seen c,
            search_inv G weight cutoff s dist seen c [] ->
            closed_by G weight cutoff (fun _ _ => True) dist [] ->
            (forall v x, dict_get v dist = Some x ->
               least_cost G weight s v x /\ (within cutoff x \/ (x <= 0)%Q)) /\
            (forall u c', walk G weight s u c' -> within cutoff c' ->
               dict_mem u dist = true \/
               exists t, target = Some t /\ dict_mem t dist = true)).
  { intros dist seen c Hinv Hclosed. split.
    - intros v x Hv. split; [ split | ].
      + exact (inv_dist_walk _ _ _ _ _ _ _ _ Hinv v x Hv).
      + exact (inv_dist_least _ _ _ _ _ _ _ _ Hinv v x Hv).
      + exact (inv_dist_within _ _ _ _ _ _ _ _ Hinv v x Hv).
    - intros u c' Hwalk Hin. left.
      destruct (search_inv_reach dist seen c [] Hinv Hclosed u c' Hwalk Hin)
        as [ Hd | (e & [] & _) ]. exact Hd. }
  induction fuel as [ | fuel IH ]; intros dist seen c fringe r Hr Hinv Hclosed.
  - destruct fringe; simpl in Hr; [ | discriminate ]. injection Hr as <-.
    eapply Hend; eassumption.
  - destruct fringe as [ | e rest ].
    + simpl in Hr. injection Hr as <-. eapply Hend; eassumption.
    + rewrite dijkstra_loop_step in Hr. cbv zeta in Hr.
      pose proof (search_inv_settle dist seen c e rest) as Hsettle.
      cbv zeta in Hsettle.
      set (m := min_entry e rest) in *.
      assert (Hm : In m (e :: rest)) by apply min_entry_In.
      destruct (dict_mem (snd m) dist) eqn:Hseen.
      * destruct (search_inv_skip dist seen c (e :: rest) m Hinv Hclosed Hm Hseen)
          as [Hinv' Hclosed'].
        exact (IH _ _ _ _ _ Hr Hinv' Hclosed').
      * destruct (Hsettle Hinv Hclosed eq_refl) as [Hinv1 Hclosed1].
        assert (Hdm : dict_get (snd m) (dict_set (snd m) (fst (fst m)) dist)
                      = Some (fst (fst m))) by apply dict_get_set_eq.
        destruct (match target with Some t => eqb (snd m) t | None => false end)
          eqn:Hstop.
        -- injection Hr as <-. split.
           ++ intros v x Hv. split; [ split | ].
              ** exact (inv_dist_walk _ _ _ _ _ _ _ _ Hinv1 v x Hv).
              ** exact (inv_dist_least _ _ _ _ _ _ _ _ Hinv1 v x Hv).
              ** exact (inv_dist_within _ _ _ _ _ _ _ _ Hinv1 v x Hv).
           ++ intros u c' _ _. right.
              destruct target as [ t | ]; [ | discriminate ].
              exists t. split; [ reflexivity | ].
              unfold eqb in Hstop.
              destruct (eq_dec (snd m) t) as [ <- | ]; [ | discriminate ].
              unfold dict_mem. rewrite Hdm. reflexivity.
        -- bind_inv Hr as succ Hsucc. bind_inv Hr as st Hst.
           destruct st as [[seen' c'] fringe'].
           unfold getitem in Hsucc.
           destruct (dict_get (snd m) (_adj G)) as [ succ0 | ] eqn:Hadj;
             simpl in Hsucc; [ injection Hsucc as -> | discriminate ].
           destruct (relax_loop_inv _ (snd m) (fst (fst m)) Hdm succ [] seen seen'
                       c c' _ fringe' Hst) as [Hinv' Hclosed']; try assumption.
           { intros ue cost Hue Hcost. destruct ue as [u keydict].
             eapply walk_step; [ | exact Hadj | exact Hue | exact Hcost ].
             exact (inv_fringe_walk _ _ _ _ _ _ _ _ Hinv m Hm). }
           apply (IH _ _ _ _ _ Hr Hinv').
           intros v dv nbrs u keydict cost Hdv Hv Hu Hcost Hin _.
           apply (Hclosed' v dv nbrs u keydict cost Hdv Hv Hu Hcost Hin).
           intros ->. simpl. congruence.
Qed.
End LeastCost.

(** The initial state of the search satisfies the invariant. *)
Lemma search_inv_start (G : MultiDiGraph) (weight : key) (cutoff : option Q)
  (s : node) :
  search_inv G weight cutoff s [] [(s, 0%Q)] 1 [(0%Q, 0, s)] /\
  closed_by G weight cutoff (fun _ _ => True) [] [(0%Q, 0, s)].
Proof.
  split.
  - constructor.
    + intros v x Hv. discriminate Hv.
    + intros v x Hv. discriminate Hv.
    + intros v x Hv. discriminate Hv.
    + intros e [ <- | [] ]. apply walk_nil.
    + intros e [ <- | [] ]. right. apply Qle_refl.
    + simpl. constructor; [ intros [] | constructor ].
    + intros e [ <- | [] ]. simpl. lia.
    + intros u su Hu. simpl in Hu.
      destruct (eq_dec u s) as [ -> | ]; [ | discriminate ].
      injection Hu as <-. right. exists (0%Q, 0, s).
      split; [ left; reflexivity | split; [ reflexivity | apply Qle_refl ] ].
    + right. exists (0%Q, 0, s).
      split; [ left; reflexivity | split; [ reflexivity | apply Qle_refl ] ].
  - intros v dv nbrs u keydict cost Hdv. discriminate Hdv.
Qed.

(** [single_source_dijkstra_path_length] on a graph without negative
    weights: the dictionary holds least costs, and a key for every node
    that a walk within the cut-off leads to. *)
Lemma single_source_dijkstra_path_length_least (G : MultiDiGraph) (weight : key)
  (cutoff : option Q) (s : node) (r : dict node Q) :
  nonneg_weights G weight ->
  single_source_dijkstra_path_length G s cutoff weight = Ok r ->
  (forall v x, dict_get v r = Some x ->
     least_cost G weight s v x /\ (within cutoff x \/ (x <= 0)%Q)) /\
  (forall u c, walk G weight s u c -> within cutoff c -> dict_mem u r = true).
Proof.
  intros Hpos. unfold single_source_dijkstra_path_length, dijkstra.
  destruct (dict_mem s (_node G)); [ | discriminate ].
  intros Hr.
  destruct (search_inv_start G weight cutoff s) as [Hinv Hclosed].
  destruct (dijkstra_loop_least G weight cutoff s Hpos None _ _ _ _ _ _
              Hr Hinv Hclosed) as [Hleast Hall].
  split; [ exact Hleast | ].
  intros u c Hwalk Hin.
  destruct (Hall u c Hwalk Hin) as [ Hu | (t & Ht & _) ];
    [ exact Hu | discriminate Ht ].
Qed.

(** [dijkstra_path_length] returns the least cost of a walk to the
    target. *)
Lemma dijkstra_path_length_least (G : MultiDiGraph) (weight : key)
  (s t : node) (x : Q) :
  nonneg_weights G weight ->
  dijkstra_path_length G s t weight = Ok x -> least_cost G weight s t x.
Proof.
  intros Hpos. unfold dijkstra_path_length, eqb.
  destruct (eq_dec s t) as [ <- | Hne ].
  - intros Hx. injection Hx as <-. split; [ apply walk_nil | ].
    intros c Hwalk. eapply walk_nonneg; eassumption.
  - unfold dijkstra. destruct (dict_mem s (_node G)); [ | discriminate ].
    intros Hx. bind_inv Hx as r Hr.
    destruct (search_inv_start G weight None s) as [Hinv Hclosed].
    destruct (dijkstra_loop_least G weight None s Hpos (Some t) _ _ _ _ _ _
                Hr Hinv Hclosed) as [Hleast _].
    apply Hleast. destruct (dict_get t r); [ | discriminate ].
    injection Hx as <-. reflexivity.
Qed.

(** ** calculate_OD: what the cells hold *)

(** The search keeps the distances it has settled. *)
Lemma dijkstra_loop_keeps (G : MultiDiGraph) (weight : key) (cutoff : option Q)
  (target : option node) (fuel : nat) :
  forall (dist : dict node Q) (st : frontier) (r : dict node Q),
    dijkstra_loop fuel G weight cutoff target dist st = Ok r ->
    forall v x, dict_get v dist = Some x -> dict_get v r = Some x.
Proof.
  induction fuel as [ | fuel IH ]; intros dist [[seen c] fringe] r Hr v x Hv.
  - destruct fringe; simpl in Hr; [ | discriminate ]. congruence.
  - destruct fringe as [ | e rest ]; [ simpl in Hr; congruence | ].
    rewrite dijkstra_loop_step in Hr. cbv zeta in Hr.
    set (m := min_entry e rest) in *.
    destruct (dict_mem (snd m) dist) eqn:Hseen.
    + exact (IH _ _ _ Hr v x Hv).
    + assert (Hv' : dict_get v (dict_set (snd m) (fst (fst m)) dist) = Some x).
      { rewrite dict_get_set_neq; [ exact Hv | ].
        intros <-. unfold dict_mem in Hseen. rewrite Hv in Hseen. discriminate. }
      destruct (match target with Some t => eqb (snd m) t | None => false end).
      * injection Hr as <-. exact Hv'.
      * bind_inv Hr as succ Hsucc. bind_inv Hr as st Hst.
        exact (IH _ _ _ Hr v x Hv').
Qed.

(** The source is at distance 0 in the dictionary of the search. *)
Lemma source_settled (G : MultiDiGraph) (weight : key) (cutoff : option Q)
  (s : node) (r : dict node Q) :
  single_source_dijkstra_path_length G s cutoff weight = Ok r ->
  dict_get s r = Some 0%Q.
Proof.
  unfold single_source_dijkstra_path_length, dijkstra, dijkstra_fuel.
  destruct (dict_mem s (_node G)); [ | discriminate ].
  rewrite dijkstra_loop_step.
  change (min_entry (0%Q, 0, s) []) with (0%Q, 0, s).
  cbv zeta. cbn [fst snd dict_mem dict_get].
  intros Hr. bind_inv Hr as succ Hsucc. bind_inv Hr as st Hst.
  eapply dijkstra_loop_keeps; [ exact Hr | ].
  apply dict_get_set_eq.
Qed.

(** A cell of the matrix: the search starts at one node of the pair and
    the cell holds its distance to the other, or [fail_value]. *)
Lemma calculate_OD_cell (G : MultiDiGraph) (weight : key) (fail_value : Q)
  (origins destinations : list node) (OD : ndarray) (i j : nat) (o d : node) :
  core.calculate_OD G (core.OriginsList origins) destinations fail_value
    weight false = Ok OD ->
  nth_error origins i = Some o -> nth_error destinations j = Some d ->
  exists r,
    single_source_dijkstra_path_length G
      (search_from origins destinations o d) None weight = Ok r /\
    np_get OD i j
    = Ok match dict_get (search_to origins destinations o d) r with
         | Some c => c
         | None => fail_value
         end.
Proof.
  unfold core.calculate_OD, search_from, search_to. intros HOD Ho Hd.
  destruct (length destinations <? length origins) eqn:Hflip.
  - bind_inv HOD as rows Hrows. injection HOD as <-.
    apply mapM_Forall2 in Hrows.
    destruct (Forall2_nth_error _ _ _ _ _ Hrows Hd) as (row & Hrow & Hod).
    apply od_row_Ok in Hod as (r & Hr & ->).
    exists r. split; [ exact Hr | ].
    unfold np_get, np_transpose. simpl.
    assert (Hi : i < length origins) by (apply nth_error_Some; congruence).
    rewrite nth_error_map, nth_error_seq.
    apply Nat.ltb_lt in Hi. rewrite Hi. simpl.
    rewrite (map_nth_error _ _ _ Hrow). simpl. f_equal.
    apply nth_error_nth. exact (map_nth_error _ _ _ Ho).
  - bind_inv HOD as rows Hrows. injection HOD as <-.
    apply mapM_Forall2 in Hrows.
    destruct (Forall2_nth_error _ _ _ _ _ Hrows Ho) as (row & Hrow & Hod).
    apply od_row_Ok in Hod as (r & Hr & ->).
    exists r. split; [ exact Hr | ].
    unfold np_get. simpl. rewrite Hrow. simpl.
    rewrite (map_nth_error _ _ _ Hd). reflexivity.
Qed.



(** X2. In the default mode the cell of an origin and a destination that
    are the same node holds 0. *)
Theorem calculate_OD_same_node (G : MultiDiGraph) (weight : key)
  (fail_value : Q) (origins destinations : list node) (OD : ndarray)
  (i j : nat) (n : node) :
  core.calculate_OD G (core.OriginsList origins) destinations fail_value
    weight false = Ok OD ->
  nth_error origins i = Some n -> nth_error destinations j = Some n ->
  np_get OD i j = Ok 0%Q.
Proof.
  intros HOD Ho Hd.
  destruct (calculate_OD_cell G weight fail_value origins destinations OD i j n n
              HOD Ho Hd) as (r & Hr & Hcell).
  unfold search_from, search_to in *.
  destruct (length destinations <? length origins);
    apply source_settled in Hr; rewrite Hcell, Hr; reflexivity.
Qed.

(** X2 on [one_way] with origins 2, 3 and destinations 1, 3, 2. *)
Lemma calculate_OD_same_node_one_way :
  np_get {| shape := (2, 3); rows := [[999; 999; 0]; [999; 0; 999]]%Q |} 1 1
  = Ok 0%Q.
Proof.
  apply (calculate_OD_same_node one_way (KStr "time") 999 [2%Z; 3%Z]
           [1%Z; 3%Z; 2%Z] _ 1 1 3%Z).
  - vm_compute. reflexivity.
  - reflexivity.
  - reflexivity.
Defined.



(** ** calculate_OD: the two directions *)

(** A walk after a walk. *)
Lemma walk_app (G : MultiDiGraph) (weight : key) (a b d : node) (c1 c2 : Q) :
  walk G weight a b c1 -> walk G weight b d c2 ->
  exists c, walk G weight a d c /\ (c == c1 + c2)%Q.
Proof.
  intros H1 H2.
  induction H2 as [ | v u c0 nbrs keydict cost _ IH Hv Hu Hcost ].
  - exists c1. split; [ exact H1 | ring ].
  - destruct IH as (c & Hwalk & Hc).
    exists (c + cost)%Q. split.
    + eapply walk_step; eassumption.
    + rewrite Hc. ring.
Qed.

Lemma reflected_twins_pair (G : MultiDiGraph) (weight : key) :
  reflected_twins G weight = true ->
  forall u nbrs v keydict cost,
    dict_get u (_adj G) = Some nbrs -> In (v, keydict) nbrs ->
    weight_function weight keydict = Ok cost ->
    exists nbrs' keydict' cost',
      dict_get v (_adj G) = Some nbrs' /\ In (u, keydict') nbrs' /\
      weight_function weight keydict' = Ok cost' /\ (cost' == cost)%Q.
Proof.
  unfold reflected_twins. intros Hrefl u nbrs v keydict cost Hu Hv Hcost.
  rewrite forallb_forall in Hrefl. apply dict_get_In in Hu.
  specialize (Hrefl _ Hu). simpl in Hrefl.
  rewrite forallb_forall in Hrefl. specialize (Hrefl _ Hv). simpl in Hrefl.
  destruct (dict_get v (_adj G)) as [ nbrs' | ]; [ | discriminate ].
  destruct (dict_get u nbrs') as [ keydict' | ] eqn:Hback; [ | discriminate ].
  rewrite Hcost in Hrefl.
  destruct (weight_function weight keydict') as [ cost' | ] eqn:Hcost';
    [ | discriminate ].
  exists nbrs', keydict', cost'. split; [ reflexivity | ].
  split; [ apply dict_get_In; exact Hback | ].
  split; [ exact Hcost' | apply Qeq_bool_iff; exact Hrefl ].
Qed.

(** On a network of reflected twins a walk can be walked back at the same
    cost. *)
Lemma walk_back (G : MultiDiGraph) (weight : key) (s v : node) (c : Q) :
  reflected_twins G weight = true -> walk G weight s v c ->
  exists c', walk G weight v s c' /\ (c' == c)%Q.
Proof.
  intros Hrefl.
  induction 1 as [ | v u c nbrs keydict cost _ IH Hv Hu Hcost ].
  - exists 0%Q. split; [ apply walk_nil | reflexivity ].
  - destruct IH as (c' & Hback & Hc').
    destruct (reflected_twins_pair G weight Hrefl v nbrs u keydict cost Hv Hu Hcost)
      as (nbrs' & keydict' & cost' & Hu' & Hv' & Hcost' & Heq).
    assert (Hfirst : walk G weight u v (0 + cost')%Q).
    { eapply walk_step; [ apply walk_nil | exact Hu' | exact Hv' | exact Hcost' ]. }
    destruct (walk_app G weight u v s _ _ Hfirst Hback) as (c'' & Hwalk & Hc'').
    exists c''. split; [ exact Hwalk | ].
    rewrite Hc'', Hc', Heq. ring.
Qed.

(** On such a network the search from [o] and the search from [d] agree
    on the pair: both find the least cost, the same in both directions,
    or neither finds the other node. *)
Lemma reflected_cells (G : MultiDiGraph) (weight : key) (fail_value : Q)
  (o d : node) (rA rB : dict node Q) :
  well_formed G weight = true -> reflected_twins G weight = true ->
  single_source_dijkstra_path_length G o None weight = Ok rA ->
  single_source_dijkstra_path_length G d None weight = Ok rB ->
  (cell fail_value rA d == cell fail_value rB o)%Q.
Proof.
  intros Hwf Hrefl HrA HrB. unfold cell.
  pose proof (well_formed_nonneg G weight Hwf) as Hpos.
  destruct (single_source_dijkstra_path_length_least G weight None o rA Hpos HrA)
    as [HleastA HallA].
  destruct (single_source_dijkstra_path_length_least G weight None d rB Hpos HrB)
    as [HleastB HallB].
  destruct (dict_get d rA) as [ x | ] eqn:Hx.
  - destruct (HleastA d x Hx) as [[Hforth Hmin] _].
    destruct (walk_back G weight o d x Hrefl Hforth) as (x' & Hback & Hx').
    pose proof (HallB o x' Hback I) as Hmem.
    apply dict_mem_In in Hmem as (y & Hy & _). rewrite Hy.
    destruct (HleastB o y Hy) as [[HwalkB HminB] _].
    destruct (walk_back G weight d o y Hrefl HwalkB) as (y' & Hforth' & Hy').
    apply Qle_antisym.
    + rewrite <- Hy'. apply Hmin. exact Hforth'.
    + rewrite <- Hx'. apply HminB. exact Hback.
  - destruct (dict_get o rB) as [ y | ] eqn:Hy; [ exfalso | reflexivity ].
    destruct (HleastB o y Hy) as [[HwalkB _] _].
    destruct (walk_back G weight d o y Hrefl HwalkB) as (y' & Hforth & _).
    pose proof (HallA d y' Hforth I) as Hmem.
    unfold dict_mem in Hmem. rewrite Hx in Hmem. discriminate.
Qed.

(** Doubles added along a path in one direction and in the other need
    not agree: 0.1 + 0.2 + 0.3 from the one end is not 0.3 + 0.2 + 0.1
    from the other. *)
Example double_sums_depend_on_order :
  (0 + 0x1.999999999999ap-4 + 0x1.999999999999ap-3 + 0x1.3333333333333p-2
   =? 0 + 0x1.3333333333333p-2 + 0x1.999999999999ap-3 + 0x1.999999999999ap-4)%float
  = false.
Proof. vm_compute. reflexivity. Qed.



(** ** generate_isochrones: which nodes are marked *)

Lemma dict_keys_mem {K V : Type} `{EqDec K} (k : K) (d : dict K V) :
  In k (dict_keys d) <-> dict_mem k d = true.
Proof.
  unfold dict_keys. split.
  - intros Hk. apply in_map_iff in Hk as ([k' v] & <- & Hin).
    eapply In_dict_mem. exact Hin.
  - intros Hk. apply dict_mem_In in Hk as (v & _ & Hin).
    apply in_map_iff. exists (k, v). split; [ reflexivity | exact Hin ].
Qed.

Lemma Forall2_In_l {A B : Type} (R : A -> B -> Prop) (l : list A) (l' : list B)
  (a : A) :
  Forall2 R l l' -> In a l -> exists b, In b l' /\ R a b.
Proof.
  induction 1 as [ | x y l l' Hxy _ IH ]; simpl; [ tauto | ].
  intros [ <- | Ha ].
  - exists y. split; [ left; reflexivity | exact Hxy ].
  - destruct (IH Ha) as (b & Hb & Hab). exists b. split; [ right; exact Hb | exact Hab ].
Qed.

Lemma Forall2_In_r {A B : Type} (R : A -> B -> Prop) (l : list A) (l' : list B)
  (b : B) :
  Forall2 R l l' -> In b l' -> exists a, In a l /\ R a b.
Proof.
  induction 1 as [ | x y l l' Hxy _ IH ]; simpl; [ tauto | ].
  intros [ <- | Hb ].
  - exists x. split; [ left; reflexivity | exact Hxy ].
  - destruct (IH Hb) as (a & Ha & Hab). exists a. split; [ right; exact Ha | exact Hab ].
Qed.

Lemma Forall2_map_In {A B : Type} (R : A -> B -> Prop) (f : A -> B) (l : list A) :
  (forall a, In a l -> R a (f a)) -> Forall2 R l (map f l).
Proof.
  induction l as [ | a l IH ]; intros HR; simpl; constructor.
  - apply HR. left. reflexivity.
  - apply IH. intros a' Ha'. apply HR. right. exact Ha'.
Qed.

(** The nodes of [G.subgraph(ns)]. *)
Lemma subgraph_nodes (G : MultiDiGraph) (ns : list node) (u : node) :
  In u (dict_keys (nodes (subgraph G ns))) <->
  In u (dict_keys (_node G)) /\ In u ns.
Proof.
  unfold subgraph, nodes, dict_keys. simpl. rewrite !in_map_iff. split.
  - intros (n & <- & Hn). apply filter_In in Hn as [Hn Hmem].
    split; [ exists n; split; [ reflexivity | exact Hn ] | ].
    apply list_mem_In. exact Hmem.
  - intros [(n & <- & Hn) Hns]. exists n. split; [ reflexivity | ].
    apply filter_In. split; [ exact Hn | apply list_mem_In; exact Hns ].
Qed.

Lemma inject_Z_nonneg (z : Z) : (0 <= z)%Z -> (0 <= inject_Z z)%Q.
Proof.
  intros Hz. unfold Qle. simpl. lia.
Qed.

(** The nodes of the ego graph of an origin: those within the radius. *)
Lemma ego_graph_nodes (G : MultiDiGraph) (weight : key) (o : node) (thresh : Z)
  (ego : MultiDiGraph) (u : node) :
  nonneg_weights G weight -> (0 <= thresh)%Z ->
  ego_graph G o (inject_Z thresh) weight = Ok ego ->
  In u (dict_keys (_node G)) ->
  In u (dict_keys (nodes ego)) <->
  exists c, walk G weight o u c /\ (c <= inject_Z thresh)%Q.
Proof.
  intros Hpos Hthresh Hego Hu. unfold ego_graph in Hego.
  bind_inv Hego as sp Hsp. injection Hego as <-.
  destruct (single_source_dijkstra_path_length_least G weight _ o sp Hpos Hsp)
    as [Hleast Hall].
  rewrite subgraph_nodes. split.
  - intros [_ Hmem]. apply dict_keys_mem in Hmem.
    apply dict_mem_In in Hmem as (x & Hx & _).
    destruct (Hleast u x Hx) as [[Hwalk _] Hin].
    exists x. split; [ exact Hwalk | ].
    destruct Hin as [ Hin | Hz ]; [ exact Hin | ].
    eapply Qle_trans; [ exact Hz | apply inject_Z_nonneg; exact Hthresh ].
  - intros (c & Hwalk & Hc). split; [ exact Hu | ].
    apply dict_keys_mem. exact (Hall u c Hwalk Hc).
Qed.

(** The nodes the ego graphs of the origins list between them. *)
Lemma reachable_nodes_reached (G : MultiDiGraph) (weight : key)
  (origins : list node) (thresh : Z) (sub_graphs : list MultiDiGraph) (u : node) :
  nonneg_weights G weight -> (0 <= thresh)%Z ->
  mapM (fun node => ego_graph G node (inject_Z thresh) weight) origins
    = Ok sub_graphs ->
  In u (dict_keys (_node G)) ->
  In u (flat_map (fun graph => dict_keys (nodes graph)) sub_graphs) <->
  reached G weight origins thresh u.
Proof.
  intros Hpos Hthresh Hsub Hu. apply mapM_Forall2 in Hsub.
  rewrite in_flat_map. split.
  - intros (ego & Hin & Hu_ego).
    destruct (Forall2_In_r _ _ _ _ Hsub Hin) as (o & Ho & Hego).
    destruct (proj1 (ego_graph_nodes G weight o thresh ego u Hpos Hthresh Hego Hu)
                Hu_ego) as (c & Hwalk & Hc).
    exists o, c. split; [ exact Ho | split; assumption ].
  - intros (o & c & Ho & Hwalk & Hc).
    destruct (Forall2_In_l _ _ _ _ Hsub Ho) as (ego & Hin & Hego).
    exists ego. split; [ exact Hin | ].
    apply (ego_graph_nodes G weight o thresh ego u Hpos Hthresh Hego Hu).
    exists c. split; assumption.
Qed.

(** The part of [generate_isochrones] before the marking. *)
Lemma generate_isochrones_Ok (G G' : MultiDiGraph) (origins : core.origins_obj)
  (thresh : Z) (weight : option key) (stacking : value) :
  core.generate_isochrones G origins thresh weight stacking = Ok G' ->
  exists os sub_graphs,
    origins = core.PyList os /\
    mapM (fun node => ego_graph G node (inject_Z thresh) (isochrone_weight weight))
      os = Ok sub_graphs /\
    let reachable_nodes :=
      flat_map (fun graph => dict_keys (nodes graph)) sub_graphs in
    _adj G' = _adj G /\
    ((py_eq_bool stacking false = true /\
      _node G' = map (fun ud =>
                        (fst ud,
                         dict_set (KInt thresh)
                           (VNum (if list_mem (fst ud) reachable_nodes
                                  then 1 else 0)%Q) (snd ud))) (_node G)) \/
     (py_eq_bool stacking false = false /\ py_eq_bool stacking true = true /\
      _node G' = map (fun ud =>
                        (fst ud,
                         dict_set (KInt thresh)
                           (VNum (inject_Z (Z.of_nat
                              (count_occ Z.eq_dec reachable_nodes (fst ud)))))
                           (snd ud))) (_node G))).
Proof.
  unfold core.generate_isochrones. intros Hg.
  bind_inv Hg as os Hos. bind_inv Hg as ddict Hddict. bind_inv Hg as w Hw.
  bind_inv Hg as sub_graphs Hsub.
  assert (Horigins : origins = core.PyList os).
  { destruct origins as [ [ | o l ] | ]; try discriminate Hos.
    injection Hos as <-. reflexivity. }
  assert (Hweight : w = isochrone_weight weight).
  { destruct weight as [ w0 | ]; simpl in *.
    - injection Hw as <-. reflexivity.
    - destruct (negb (dict_mem (KStr "time") ddict)); [ discriminate | ].
      injection Hw as <-. reflexivity. }
  subst w. exists os, sub_graphs.
  split; [ exact Horigins | split; [ exact Hsub | ] ].
  cbv zeta. destruct (py_eq_bool stacking false) eqn:Hfalse.
  - injection Hg as <-. simpl. split; [ reflexivity | left ].
    split; reflexivity.
  - destruct (py_eq_bool stacking true) eqn:Htrue; [ | discriminate ].
    injection Hg as <-. simpl. split; [ reflexivity | right ].
    repeat split; reflexivity.
Qed.



Lemma count_occ_filter_keys (p : node -> bool) (l : dict node attrs) (u : node) :
  count_occ Z.eq_dec (dict_keys (filter (fun n => p (fst n)) l)) u
  = if p u then count_occ Z.eq_dec (dict_keys l) u else 0.
Proof.
  unfold dict_keys. induction l as [ | [k data] l IH ]; simpl.
  - destruct (p u); reflexivity.
  - destruct (p k) eqn:Hk; simpl.
    + destruct (Z.eq_dec k u) as [ -> | Hne ].
      * rewrite IH, Hk. reflexivity.
      * rewrite IH. reflexivity.
    + rewrite IH. destruct (Z.eq_dec k u) as [ -> | Hne ]; [ | reflexivity ].
      rewrite Hk. reflexivity.
Qed.



(** ** disrupt_network: the edges at broken nodes *)

Lemma broken_nodes_complete (property : key) (thresh : Q)
  (ns : list (node * attrs)) (acc broken : list node) :
  foldM (fun broken_nodes ud =>
           x <- getitem (snd ud) property ;;
           x <- as_number x ;;
           Ok (if Qltb thresh x then broken_nodes ++ [fst ud] else broken_nodes))
    ns acc = Ok broken ->
  (forall u, In u acc -> In u broken) /\
  (forall u data v x,
     In (u, data) ns -> dict_get property data = Some v -> as_number v = Ok x ->
     (thresh < x)%Q -> In u broken).
Proof.
  revert acc. induction ns as [ | [n data] ns IH ]; intros acc Hf; simpl in Hf.
  - injection Hf as <-. split; [ auto | intros u data v x [] ].
  - bind_inv Hf as acc' Hacc. simpl in Hacc.
    bind_inv Hacc as v Hv. bind_inv Hacc as x Hx. injection Hacc as <-.
    unfold getitem in Hv. destruct (dict_get property data) as [ v0 | ] eqn:Hg;
      simpl in Hv; [ injection Hv as -> | discriminate ].
    destruct (IH _ Hf) as [Hacc Hns]. split.
    + intros u Hu. apply Hacc.
      destruct (Qltb thresh x); [ apply in_or_app; left; exact Hu | exact Hu ].
    + intros u data' v' x' [ Heq | Hin ] Hv' Hx' Hgt.
      * injection Heq as <- <-. apply Hacc.
        assert (v' = v) by congruence. subst v'.
        assert (x' = x) by congruence. subst x'.
        destruct (Qltb thresh x) eqn:Hlt.
        -- apply in_or_app. right. left. reflexivity.
        -- apply Qltb_false in Hlt. exfalso.
           exact (Qlt_not_le _ _ Hgt Hlt).
      * exact (Hns u data' v' x' Hin Hv' Hx' Hgt).
Qed.

(** X6. Every edge of the graph that [disrupt_network] returns which
    starts or ends at a node whose property is above the threshold has
    [fail_value] as its [time]. *)
Theorem disrupt_network_breaks (G G_copy : ref) (property : key) (thresh : Q)
  (fail_value : value) (st st' : store) :
  core.disrupt_network G property thresh fail_value st = Ok (G_copy, st') ->
  exists g g',
    deref G st = Ok g /\ deref G_copy st' = Ok g' /\
    Forall2 (fun e e' =>
               same_edge e e' /\
               (above_threshold g property thresh (edge_u e) \/
                above_threshold g property thresh (edge_v e) ->
                dict_get (KStr "time") (edge_data e') = Some fail_value))
      (edges g) (edges g').
Proof.
  unfold core.disrupt_network. intros Hd.
  bind_inv Hd as cp Hcp. destruct cp as [r st1].
  unfold copy in Hcp. bind_inv Hcp as g Hg. injection Hcp as <- <-.
  bind_inv Hd as g1 Hg1.
  assert (g1 = g) as ->.
  { apply deref_Ok in Hg1. rewrite nth_error_app2 in Hg1 by lia.
    rewrite Nat.sub_diag in Hg1. simpl in Hg1. congruence. }
  bind_inv Hd as broken Hbroken. bind_inv Hd as g' Hg'.
  injection Hd as <- <-.
  apply map_edge_data_edges in Hg' as [Hnodes Hedges].
  apply broken_nodes_complete in Hbroken as [_ Hbroken].
  exists g, g'. split; [ exact Hg | ].
  split; [ apply deref_Ok, nth_error_store_set_same; rewrite length_app; simpl; lia | ].
  eapply Forall2_impl; [ | exact Hedges ].
  intros e e' [Hsame He]. split; [ exact Hsame | ].
  injection He as He. intros Habove. rewrite <- He.
  assert (Hb : list_mem (edge_u e) broken || list_mem (edge_v e) broken = true).
  { apply orb_true_iff.
    destruct Habove as [ (data & v & x & Hin & Hv & Hx & Hgt)
                       | (data & v & x & Hin & Hv & Hx & Hgt) ];
      [ left | right ]; apply list_mem_In;
      exact (Hbroken _ data v x Hin Hv Hx Hgt). }
  rewrite Hb. apply dict_get_set_eq.
Qed.

(** X6 on [flood_graph] with threshold 1: node 3 is flooded, and the edge
    from 2 to 3 gets the fail value. *)
Lemma disrupt_network_breaks_flood_graph :
  exists g g',
    deref 0 [flood_graph] = Ok g /\
    deref 1 [flood_graph;
             {| _node := _node flood_graph;
                _adj := [(1%Z, [(2%Z, [(0%Z, [(KStr "time", VNum 10)])])]);
                         (2%Z, [(3%Z, [(0%Z, [(KStr "time", VNum 99999)])])]);
                         (3%Z, [])] |}] = Ok g' /\
    Forall2 (fun e e' =>
               same_edge e e' /\
               (above_threshold g (KStr "flood") 1 (edge_u e) \/
                above_threshold g (KStr "flood") 1 (edge_v e) ->
                dict_get (KStr "time") (edge_data e') = Some (VNum 99999)))
      (edges g) (edges g').
Proof.
  apply (disrupt_network_breaks 0 1 (KStr "flood") 1 (VNum 99999) [flood_graph]).
  vm_compute. reflexivity.
Defined.

(** ** add_missing_reflected_edges: the edges it keeps and adds *)

Lemma NoDup_map_inj {A B : Type} (f : A -> B) (l : list A) :
  (forall x y, f x = f y -> x = y) -> NoDup l -> NoDup (map f l).
Proof.
  intros Hinj. induction 1 as [ | a l Ha _ IH ]; simpl; constructor; [ | exact IH ].
  intros Hin. apply in_map_iff in Hin as (y & Hy & Hin).
  apply Hinj in Hy. subst y. contradiction.
Qed.

(** The key of a new edge is not in use. *)
Lemma first_free_key_cases (keydict : dict Z attrs) (fuel : nat) :
  forall k,
    dict_mem (first_free_key fuel k keydict) keydict = false \/
    forall i, i < fuel -> dict_mem (k + Z.of_nat i)%Z keydict = true.
Proof.
  induction fuel as [ | fuel IH ]; intros k; simpl.
  - right. intros i Hi. lia.
  - destruct (dict_mem k keydict) eqn:Hk; [ | left; exact Hk ].
    destruct (IH (k + 1)%Z) as [ Hfree | Hall ]; [ left; exact Hfree | right ].
    intros i Hi. destruct i as [ | i ].
    + rewrite Z.add_0_r. exact Hk.
    + replace (k + Z.of_nat (S i))%Z with (k + 1 + Z.of_nat i)%Z by lia.
      apply Hall. lia.
Qed.

Lemma first_free_key_fresh (keydict : dict Z attrs) (k : Z) :
  dict_mem (first_free_key (S (length keydict)) k keydict) keydict = false.
Proof.
  destruct (first_free_key_cases keydict (S (length keydict)) k)
    as [ Hfree | Hall ]; [ exact Hfree | exfalso ].
  set (cands := map (fun i => (k + Z.of_nat i)%Z) (seq 0 (S (length keydict)))).
  assert (Hnd : NoDup cands).
  { unfold cands. apply NoDup_map_inj; [ | apply seq_NoDup ].
    intros i j Hij. lia. }
  assert (Hincl : incl cands (dict_keys keydict)).
  { intros x Hx. unfold cands in Hx. apply in_map_iff in Hx as (i & <- & Hi).
    apply in_seq in Hi. apply dict_keys_mem. apply Hall. lia. }
  pose proof (NoDup_incl_length Hnd Hincl) as Hlen.
  unfold cands, dict_keys in Hlen. rewrite !length_map, length_seq in Hlen. lia.
Qed.

Lemma new_edge_key_fresh (G : MultiDiGraph) (u v : node)
  (nbrs : dict node (dict Z attrs)) (keydict : dict Z attrs) :
  dict_get u (_adj G) = Some nbrs -> dict_get v nbrs = Some keydict ->
  dict_mem (new_edge_key G u v) keydict = false.
Proof.
  intros Hu Hv. unfold new_edge_key. rewrite Hu, Hv. apply first_free_key_fresh.
Qed.

Lemma dict_set_fresh {K V : Type} `{EqDec K} (k : K) (v : V) (d : dict K V) :
  dict_mem k d = false -> dict_set k v d = d ++ [(k, v)].
Proof.
  unfold dict_mem. induction d as [ | [k' v'] d IH ]; simpl; [ reflexivity | ].
  destruct (eq_dec k k'); [ discriminate | ].
  intros Hk. rewrite IH by exact Hk. reflexivity.
Qed.

(** The number of edges, counted along the adjacency. *)
Lemma length_edges (G : MultiDiGraph) : length (edges G) = edge_count (_adj G).
Proof.
  unfold edges, edge_count. generalize (_adj G). intros adj.
  induction adj as [ | [u nbrs] adj IH ]; simpl; [ reflexivity | ].
  rewrite length_app. f_equal; [ | exact IH ].
  unfold pair_count.
  induction nbrs as [ | [v keydict] nbrs IHn ]; simpl; [ reflexivity | ].
  rewrite length_app, length_map. f_equal. exact IHn.
Qed.

(** What [d[k] = v] does to a sum over the values. *)
Lemma list_sum_dict_set {K V : Type} `{EqDec K} (h : V -> nat) (k : K) (v : V)
  (d : dict K V) :
  list_sum (map (fun kv => h (snd kv)) (dict_set k v d))
  + match dict_get k d with Some o => h o | None => 0 end
  = list_sum (map (fun kv => h (snd kv)) d) + h v.
Proof.
  induction d as [ | [k' v'] d IH ]; simpl; [ lia | ].
  destruct (eq_dec k k'); simpl; lia.
Qed.

Lemma ensure_node_edges (G : MultiDiGraph) (x : node) :
  edges (ensure_node G x) = edges G.
Proof.
  unfold ensure_node. destruct (dict_mem x (_adj G)) eqn:Hx; [ reflexivity | ].
  unfold edges. simpl. rewrite dict_set_fresh by exact Hx.
  rewrite flat_map_app. simpl. apply app_nil_r.
Qed.

Lemma ensure_node_mem (G : MultiDiGraph) (x : node) :
  dict_mem x (_adj (ensure_node G x)) = true.
Proof.
  unfold ensure_node. destruct (dict_mem x (_adj G)) eqn:Hx; [ exact Hx | ].
  simpl. rewrite dict_mem_set. unfold eqb.
  destruct (eq_dec x x); [ reflexivity | congruence ].
Qed.

Lemma ensure_node_mem_other (G : MultiDiGraph) (x y : node) :
  dict_mem y (_adj G) = true -> dict_mem y (_adj (ensure_node G x)) = true.
Proof.
  intros Hy. unfold ensure_node. destruct (dict_mem x (_adj G)); [ exact Hy | ].
  simpl. rewrite dict_mem_set, Hy. apply orb_true_r.
Qed.

(** [add_edge] on a graph that has both end nodes. *)
Lemma add_edge_unfold (G : MultiDiGraph) (u v : node) (attr : attrs) :
  exists G1 nbrs,
    edges G1 = edges G /\ dict_get u (_adj G1) = Some nbrs /\
    add_edge G u v attr
    = {| _node := _node G1;
         _adj := dict_set u
                   (dict_set v
                      match dict_get v nbrs with
                      | Some keydict =>
                          keydict ++ [(new_edge_key G1 u v, dict_update [] attr)]
                      | None => [(new_edge_key G1 u v, dict_update [] attr)]
                      end nbrs) (_adj G1) |}.
Proof.
  unfold add_edge. set (G1 := ensure_node (ensure_node G u) v).
  assert (Hu : dict_mem u (_adj G1) = true)
    by (apply ensure_node_mem_other, ensure_node_mem).
  apply dict_mem_In in Hu as (nbrs & Hnbrs & _).
  exists G1, nbrs. split; [ unfold G1; rewrite !ensure_node_edges; reflexivity | ].
  split; [ exact Hnbrs | ].
  rewrite Hnbrs. f_equal. f_equal. f_equal.
  destruct (dict_get v nbrs) as [ keydict | ] eqn:Hv; [ | reflexivity ].
  pose proof (new_edge_key_fresh G1 u v nbrs keydict Hnbrs Hv) as Hfresh.
  assert (Hnone : dict_get (new_edge_key G1 u v) keydict = None).
  { unfold dict_mem in Hfresh.
    destruct (dict_get (new_edge_key G1 u v) keydict); [ discriminate | reflexivity ]. }
  rewrite Hnone. apply dict_set_fresh. exact Hfresh.
Qed.

(** [add_edge] keeps the edges of the graph. *)
Lemma add_edge_keeps (G : MultiDiGraph) (u v : node) (attr : attrs) (e : edge) :
  In e (edges G) -> In e (edges (add_edge G u v attr)).
Proof.
  destruct (add_edge_unfold G u v attr) as (G1 & nbrs & <- & Hnbrs & ->).
  set (k := new_edge_key G1 u v). clearbody k.
  unfold edges at 1. intros He.
  apply in_flat_map in He as ([a n] & Ha & He).
  apply in_flat_map in He as ([b kd] & Hb & He).
  apply in_map_iff in He as ([k0 data] & <- & Hk). simpl in *.
  set (keydict' := match dict_get v nbrs with
                   | Some keydict => keydict ++ [(k, dict_update [] attr)]
                   | None => [(k, dict_update [] attr)]
                   end).
  apply (In_dict_set_cases u (dict_set v keydict' nbrs)) in Ha as [ Ha | [-> Ha] ].
  - eapply In_edges; [ exact Ha | exact Hb | exact Hk ].
  - assert (Heq : Some nbrs = Some n) by (rewrite <- Hnbrs; exact Ha).
    injection Heq as <-.
    apply (In_dict_set_cases v keydict') in Hb as [ Hb | [-> Hb] ].
    + eapply In_edges; [ apply In_dict_set_new | exact Hb | exact Hk ].
    + eapply In_edges; [ apply In_dict_set_new | apply In_dict_set_new | ].
      unfold keydict'.
      replace (dict_get v nbrs) with (Some kd) by (symmetry; exact Hb).
      apply in_or_app. left. exact Hk.
Qed.

Lemma pair_count_set (v : node) (keydict : dict Z attrs)
  (nbrs : dict node (dict Z attrs)) :
  pair_count (dict_set v keydict nbrs)
  + match dict_get v nbrs with Some o => length o | None => 0 end
  = pair_count nbrs + length keydict.
Proof.
  exact (list_sum_dict_set (fun kd : dict Z attrs => length kd) v keydict nbrs).
Qed.

Lemma edge_count_set (u : node) (nbrs : dict node (dict Z attrs))
  (adj : dict node (dict node (dict Z attrs))) :
  edge_count (dict_set u nbrs adj)
  + match dict_get u adj with Some o => pair_count o | None => 0 end
  = edge_count adj + pair_count nbrs.
Proof.
  exact (list_sum_dict_set pair_count u nbrs adj).
Qed.

(** [add_edge] adds one edge. *)
Lemma add_edge_count (G : MultiDiGraph) (u v : node) (attr : attrs) :
  length (edges (add_edge G u v attr)) = S (length (edges G)).
Proof.
  destruct (add_edge_unfold G u v attr) as (G1 & nbrs & <- & Hnbrs & ->).
  set (k := new_edge_key G1 u v). clearbody k.
  rewrite !length_edges. cbn [_adj].
  destruct (dict_get v nbrs) as [ keydict | ] eqn:Hv.
  - pose proof (edge_count_set u
                  (dict_set v (keydict ++ [(k, dict_update [] attr)]) nbrs)
                  (_adj G1)) as Hadj.
    rewrite Hnbrs in Hadj.
    pose proof (pair_count_set v (keydict ++ [(k, dict_update [] attr)]) nbrs)
      as Hn.
    rewrite Hv, length_app in Hn. simpl in Hn.
    match goal with
    | |- ?a = S ?b =>
        match type of Hn with
        | ?p + _ = ?q + _ => assert (Hsum : a + q = b + p) by exact Hadj
        end
    end.
    lia.
  - pose proof (edge_count_set u (dict_set v [(k, dict_update [] attr)] nbrs)
                  (_adj G1)) as Hadj.
    rewrite Hnbrs in Hadj.
    pose proof (pair_count_set v [(k, dict_update [] attr)] nbrs) as Hn.
    rewrite Hv in Hn. simpl in Hn.
    match goal with
    | |- ?a = S ?b =>
        match type of Hn with
        | ?p + _ = ?q + _ => assert (Hsum : a + q = b + p) by exact Hadj
        end
    end.
    lia.
Qed.

Lemma add_edges_from_keeps (ebunch : list (node * node * attrs)) (G : MultiDiGraph)
  (e : edge) :
  In e (edges G) -> In e (edges (add_edges_from G ebunch)).
Proof.
  unfold add_edges_from. revert G.
  induction ebunch as [ | x ebunch IH ]; intros G He; simpl; [ exact He | ].
  apply IH. apply add_edge_keeps. exact He.
Qed.

Lemma add_edges_from_count (ebunch : list (node * node * attrs)) (G : MultiDiGraph) :
  length (edges (add_edges_from G ebunch)) = length (edges G) + length ebunch.
Proof.
  unfold add_edges_from. revert G.
  induction ebunch as [ | x ebunch IH ]; intros G; simpl; [ lia | ].
  rewrite IH, add_edge_count. lia.
Qed.

(** X7. Every edge of the input, with its key and its data, is an edge
    of the graph that [add_missing_reflected_edges] returns. *)
Theorem add_missing_reflected_edges_keeps (G : MultiDiGraph) (e : edge) :
  In e (edges G) -> In e (edges (core.add_missing_reflected_edges G)).
Proof.
  unfold core.add_missing_reflected_edges. apply add_edges_from_keeps.
Qed.

(** X7 on [one_way]. *)
Lemma add_missing_reflected_edges_keeps_one_way :
  In (1%Z, 2%Z, 0%Z, [(KStr "time", VNum 7)])
    (edges (core.add_missing_reflected_edges one_way)).
Proof.
  apply add_missing_reflected_edges_keeps. left. reflexivity.
Defined.

(** X8. [add_missing_reflected_edges] adds one edge for every edge that
    has no edge in the opposite direction, and no other. *)
Theorem add_missing_reflected_edges_count (G : MultiDiGraph) :
  length (edges (core.add_missing_reflected_edges G))
  = length (edges G) + length (filter (lacks_reflection G) (edges G)).
Proof.
  unfold core.add_missing_reflected_edges. rewrite add_edges_from_count. f_equal.
  unfold lacks_reflection, edge_pairs, edge_pair.
  induction (edges G) as [ | e es IH ] at 2 4; simpl; [ reflexivity | ].
  rewrite length_app, IH.
  destruct (list_mem (edge_v e, edge_u e) _); reflexivity.
Qed.

(** X8 on [one_way]: its one edge has no reflection. *)
Lemma add_missing_reflected_edges_count_one_way :
  length (edges (core.add_missing_reflected_edges one_way)) = 2.
Proof.
  rewrite add_missing_reflected_edges_count. reflexivity.
Defined.

(** ** remove_duplicate_edges: nothing is added *)

Lemma In_dict_remove {K V : Type} `{EqDec K} (k k' : K) (v : V) (d : dict K V) :
  In (k, v) (dict_remove k' d) -> In (k, v) d.
Proof.
  induction d as [ | [k0 v0] d IH ]; simpl; [ tauto | ].
  destruct (eq_dec k' k0); [ auto | ].
  intros [ Heq | Hin ]; [ left; exact Heq | right; apply IH; exact Hin ].
Qed.

Lemma In_removelast {A : Type} (x : A) (l : list A) :
  In x (removelast l) -> In x l.
Proof.
  induction l as [ | a l IH ]; simpl; [ tauto | ].
  destruct l as [ | b l ]; [ intros [] | ].
  intros [ Heq | Hin ]; [ left; exact Heq | right; apply IH; exact Hin ].
Qed.

(** [remove_edge] keeps the nodes and adds no edge. *)
Lemma remove_edge_edges (G G' : MultiDiGraph) (u v : node) :
  remove_edge G u v = Ok G' ->
  _node G' = _node G /\ forall e, In e (edges G') -> In e (edges G).
Proof.
  unfold remove_edge.
  destruct (dict_get u (_adj G)) as [ nbrs | ] eqn:Hu; [ | discriminate ].
  destruct (dict_get v nbrs) as [ keydict | ] eqn:Hv; [ | discriminate ].
  intros Hr. bind_inv Hr as keydict' Hpop. injection Hr as <-.
  split; [ reflexivity | ].
  assert (Hkd : forall x, In x keydict' -> In x keydict).
  { unfold popitem in Hpop. destruct keydict as [ | y l ]; [ discriminate | ].
    injection Hpop as <-. intros x Hx. exact (In_removelast x (y :: l) Hx). }
  apply dict_get_In in Hu. apply dict_get_In in Hv.
  intros e He. unfold edges in He. simpl in He.
  apply in_flat_map in He as ([a n] & Ha & He).
  apply in_flat_map in He as ([b kd] & Hb & He).
  apply in_map_iff in He as ([k0 data] & <- & Hk). simpl in *.
  apply In_dict_set in Ha as [ [-> ->] | Ha ].
  - destruct keydict' as [ | y l ].
    + apply In_dict_remove in Hb.
      eapply In_edges; [ exact Hu | exact Hb | exact Hk ].
    + apply In_dict_set in Hb as [ [-> ->] | Hb ].
      * eapply In_edges; [ exact Hu | exact Hv | apply Hkd; exact Hk ].
      * eapply In_edges; [ exact Hu | exact Hb | exact Hk ].
  - eapply In_edges; [ exact Ha | exact Hb | exact Hk ].
Qed.

(** X9. [remove_duplicate_edges] only removes: the graph it returns has
    the nodes of the input with their data, and each of its edges is an
    edge of the input, with the same key and data. *)
Theorem remove_duplicate_edges_only_removes (G G' : MultiDiGraph) (max_ratio : Q) :
  core.remove_duplicate_edges G max_ratio = Ok G' ->
  _node G' = _node G /\ forall e, In e (edges G') -> In e (edges G).
Proof.
  unfold core.remove_duplicate_edges. intros Hr.
  bind_inv Hr as acc Hacc. destruct acc as [uniques deletes]. clear Hacc.
  revert G Hr. induction deletes as [ | d deletes IH ]; intros G Hr; simpl in Hr.
  - injection Hr as <-. split; [ reflexivity | auto ].
  - bind_inv Hr as G1 HG1.
    apply remove_edge_edges in HG1 as [Hn1 He1].
    destruct (IH _ Hr) as [Hn He].
    split; [ congruence | ]. intros e Hin. apply He1, He, Hin.
Qed.

(** X9 on two parallel edges of length 100 and 140, which both go. *)
Lemma remove_duplicate_edges_only_removes_pair :
  let G' := {| _node := [(1%Z, []); (2%Z, [])]; _adj := [(1%Z, []); (2%Z, [])] |} in
  _node G' = _node (parallel_pair 100 140) /\
  forall e, In e (edges G') -> In e (edges (parallel_pair 100 140)).
Proof.
  apply (remove_duplicate_edges_only_removes (parallel_pair 100 140) _ (3 # 2)).
  vm_compute. reflexivity.
Defined.

(** ** randomly_disrupt_network *)

(** X10. [randomly_disrupt_network] returns for no graph, whatever the
    random draw: it raises [KeyError] when some edge has no [edge_id],
    and [NameError] at line 871 when every edge has one, for core.py
    never imports [math]. *)
Theorem randomly_disrupt_network_raises (randint : Q -> nat -> result (list Z))
  (G : MultiDiGraph) (edge_frac : Q) (fail_value : value) :
  core.randomly_disrupt_network randint G edge_frac fail_value
  = if forallb (fun e => dict_mem (KStr "edge_id") (edge_data e)) (edges G)
    then Raise (NameError "math")
    else Raise KeyError.
Proof.
  unfold core.randomly_disrupt_network.
  destruct (mapM (fun e => getitem (edge_data e) (KStr "edge_id")) (edges G))
    as [ edgeid | e ] eqn:Hids.
  - assert (Hall : forallb (fun e => dict_mem (KStr "edge_id") (edge_data e))
                     (edges G) = true).
    { apply forallb_forall. intros x Hx.
      apply mapM_Forall2 in Hids.
      destruct (Forall2_In_l _ _ _ _ Hids Hx) as (id & _ & Hid).
      unfold getitem in Hid. unfold dict_mem.
      destruct (dict_get (KStr "edge_id") (edge_data x)); [ reflexivity | ].
      discriminate Hid. }
    rewrite Hall. reflexivity.
  - apply mapM_Raise in Hids as (x & Hin & Hx). unfold getitem in Hx.
    destruct (dict_get (KStr "edge_id") (edge_data x)) eqn:Hget;
      [ discriminate | ].
    injection Hx as <-.
    assert (Hall : forallb (fun e => dict_mem (KStr "edge_id") (edge_data e))
                     (edges G) = false).
    { apply not_true_is_false. intros Hall.
      rewrite forallb_forall in Hall. specialize (Hall x Hin).
      unfold dict_mem in Hall. rewrite Hget in Hall. discriminate. }
    rewrite Hall. reflexivity.
Qed.

(** ** find_graph_avg_speed *)

(** What the walk conversion leaves on an edge. *)
Lemma convert_edge_walk_data (distance_tag road_col : string)
  (speed_dict : option (dict string Q)) (walk_speed factor : Q)
  (default : option string) (data data' : attrs) :
  core.convert_edge distance_tag "walk" road_col speed_dict walk_speed factor
    default data = Ok data' ->
  exists v len,
    dict_get (KStr distance_tag) data = Some v /\ as_number v = Ok len /\
    ~ (walk_speed == 0)%Q /\
    dict_get (KStr "length") data' = Some (VNum (len * factor)%Q) /\
    dict_get (KStr "time") data'
      = Some (VNum ((len * factor / 1000) / walk_speed * 60 * 60)%Q).
Proof.
  unfold core.convert_edge. intros Hc.
  bind_inv Hc as v Hv. bind_inv Hc as len Hlen.
  unfold getitem in Hv. destruct (dict_get (KStr distance_tag) data) as [ v0 | ] eqn:Hv0;
    simpl in Hv; [ injection Hv as -> | discriminate ].
  simpl String.eqb in Hc. cbv iota in Hc.
  bind_inv Hc as speed Hspeed. injection Hspeed as <-.
  bind_inv Hc as kmph Hkmph. apply truediv_Ok in Hkmph as [Hnz ->].
  injection Hc as <-.
  exists v, len. repeat split; try assumption.
  - rewrite !dict_get_set_neq by discriminate. apply dict_get_set_eq.
  - apply time_key_kept.
Qed.

(** The totals over edges whose time is their length at one speed. *)
Lemma avg_speed_totals (speed : Q) (es : list edge) :
  ~ (speed == 0)%Q ->
  Forall (fun e =>
            exists len,
              (0 < len)%Q /\
              dict_get (KStr "length") (edge_data e) = Some (VNum len) /\
              dict_get (KStr "time") (edge_data e)
                = Some (VNum ((len / 1000) / speed * 60 * 60)%Q)) es ->
  forall m0 s0 : Q,
  exists m s,
    foldM (fun (acc : Q * Q) e =>
             let '(total_meters, total_sec) := acc in
             m <- getitem (edge_data e) (KStr "length") ;;
             m <- as_number m ;;
             s <- getitem (edge_data e) (KStr "time") ;;
             s <- as_number s ;;
             Ok (total_meters + m, total_sec + s)%Q) es (m0, s0) = Ok (m, s) /\
    (s - s0 == (m - m0) / 1000 / speed * 3600)%Q /\
    (m0 <= m)%Q /\ (es <> [] -> m0 < m)%Q.
Proof.
  intros Hspeed. induction 1 as [ | e es (len & Hpos & Hlen & Htime) _ IH ];
    intros m0 s0.
  - exists m0, s0. split; [ reflexivity | ].
    split; [ field; exact Hspeed | ].
    split; [ apply Qle_refl | congruence ].
  - simpl. unfold getitem. rewrite Hlen, Htime. simpl.
    destruct (IH (m0 + len)%Q (s0 + len / 1000 / speed * 60 * 60)%Q)
      as (m & s & Hfold & Hs & Hm & _).
    exists m, s. split; [ exact Hfold | ].
    assert (Hlt : (m0 < m0 + len)%Q).
    { rewrite <- (Qplus_0_r m0) at 1. apply Qplus_lt_r. exact Hpos. }
    split; [ | split ].
    + setoid_replace (s - s0)%Q
        with ((s - (s0 + len / 1000 / speed * 60 * 60))
              + len / 1000 / speed * 60 * 60)%Q by ring.
      rewrite Hs. field. exact Hspeed.
    + apply Qlt_le_weak. eapply Qlt_le_trans; eassumption.
    + intros _. eapply Qlt_le_trans; eassumption.
Qed.



(** X12. On a graph without edges [find_graph_avg_speed] divides by a
    total time of zero: it raises [ZeroDivisionError]. *)
Theorem find_graph_avg_speed_no_edges (G : graph_arg) (g : MultiDiGraph)
  (distance_tag time_tag : key) :
  graph_of G = Some g -> edges g = [] ->
  core.find_graph_avg_speed G distance_tag time_tag = Raise ZeroDivisionError.
Proof.
  intros Hg Hnil.
  destruct G; simpl in Hg; try discriminate; injection Hg as ->;
    unfold core.find_graph_avg_speed; cbv zeta; rewrite Hnil; reflexivity.
Qed.

(** X12 on a graph of two nodes and no edge. *)
Lemma find_graph_avg_speed_no_edges_two_nodes :
  core.find_graph_avg_speed
    (MultiDiGraphObj {| _node := [(1%Z, []); (2%Z, [])];
                        _adj := [(1%Z, []); (2%Z, [])] |})
    (KStr "length") (KStr "time") = Raise ZeroDivisionError.
Proof.
  apply (find_graph_avg_speed_no_edges
           (MultiDiGraphObj {| _node := [(1%Z, []); (2%Z, [])];
                               _adj := [(1%Z, []); (2%Z, [])] |})
           {| _node := [(1%Z, []); (2%Z, [])]; _adj := [(1%Z, []); (2%Z, [])] |}
           (KStr "length") (KStr "time")); reflexivity.
Defined.

(** ** find_hwy_distances_by_class *)

Lemma Qsum_zero {A : Type} (l : list A) : (Qsum (map (fun _ => 0%Q) l) == 0)%Q.
Proof.
  induction l as [ | a l IH ]; simpl; [ reflexivity | ].
  rewrite IH. ring.
Qed.

Lemma Qsum_map_ext {A : Type} (a b : A -> Q) (l : list A) :
  (forall x, In x l -> (a x == b x)%Q) ->
  (Qsum (map a l) == Qsum (map b l))%Q.
Proof.
  induction l as [ | x l IH ]; intros Hab; simpl; [ reflexivity | ].
  rewrite (Hab x (or_introl eq_refl)), IH; [ reflexivity | ].
  intros y Hy. apply Hab. right. exact Hy.
Qed.

Lemma Qsum_map_plus {A : Type} (a b : A -> Q) (l : list A) :
  (Qsum (map (fun x => a x + b x) l) == Qsum (map a l) + Qsum (map b l))%Q.
Proof.
  induction l as [ | x l IH ]; simpl; [ ring | ].
  rewrite IH. ring.
Qed.

(** Sums over classes and edges may be taken in either order. *)
Lemma Qsum_exchange {A B : Type} (f : A -> B -> Q) (la : list A) (lb : list B) :
  (Qsum (map (fun a => Qsum (map (f a) lb)) la)
   == Qsum (map (fun b => Qsum (map (fun a => f a b) la)) lb))%Q.
Proof.
  induction la as [ | a la IH ]; simpl.
  - symmetry. apply Qsum_zero.
  - rewrite IH. symmetry. apply Qsum_map_plus.
Qed.

Lemma Qeq_bool_sym (x y : Q) : Qeq_bool x y = Qeq_bool y x.
Proof.
  destruct (Qeq_bool x y) eqn:Hxy; destruct (Qeq_bool y x) eqn:Hyx;
    try reflexivity.
  - apply Qeq_bool_iff in Hxy. symmetry in Hxy. apply Qeq_bool_iff in Hxy.
    congruence.
  - apply Qeq_bool_iff in Hyx. symmetry in Hyx. apply Qeq_bool_iff in Hyx.
    congruence.
Qed.

(** [==] is symmetric and transitive on hashable values. *)
Lemma py_eq_sym (x y : value) : py_hashable x = true -> py_eq x y = py_eq y x.
Proof.
  destruct x as [ | b | q | s0 | l ]; destruct y as [ | b' | q' | s' | l' ];
    simpl; intros Hx; try reflexivity; try discriminate.
  - destruct b, b'; reflexivity.
  - apply Qeq_bool_sym.
  - apply String.eqb_sym.
Qed.

Lemma py_eq_hashable (x y : value) :
  py_hashable x = true -> py_eq x y = true -> py_hashable y = true.
Proof.
  destruct x, y; simpl; intros Hx Hxy; try reflexivity; discriminate.
Qed.

Lemma py_eq_trans (x y z : value) :
  py_hashable y = true ->
  py_eq x y = true -> py_eq y z = true -> py_eq x z = true.
Proof.
  destruct x as [ | b1 | q1 | s1 | l1 ]; destruct y as [ | b2 | q2 | s2 | l2 ];
    destruct z as [ | b3 | q3 | s3 | l3 ]; simpl; intros Hy Hxy Hyz;
    try reflexivity; try discriminate;
    try (apply String.eqb_eq in Hxy; apply String.eqb_eq in Hyz;
         apply String.eqb_eq; congruence);
    repeat match goal with
           | b : bool |- _ => destruct b
           end;
    simpl in *; try reflexivity; try discriminate;
    repeat match goal with
           | H : Qeq_bool _ _ = true |- _ => apply Qeq_bool_iff in H
           end;
    first [ apply Qeq_bool_iff; lra | exfalso; lra ].
Qed.

(** An update of one value changes the sum of the values by the
    difference. *)
Lemma Qsum_vdict_set (i : value) (total len : Q) (d : list (value * Q)) :
  vdict_get i d = Some total ->
  (Qsum (map snd (vdict_set i (total + len)%Q d)) == Qsum (map snd d) + len)%Q.
Proof.
  induction d as [ | [k v] d IH ]; simpl; [ discriminate | ].
  destruct (py_eq i k).
  - intros Ht. injection Ht as ->. simpl. ring.
  - intros Ht. simpl. rewrite (IH Ht). ring.
Qed.

Lemma vdict_set_zero (i : value) (d : list (value * Q)) :
  Forall (fun kv => (snd kv == 0)%Q) d ->
  Forall (fun kv => (snd kv == 0)%Q) (vdict_set i 0%Q d).
Proof.
  induction 1 as [ | [k v] d Hv Hd IH ]; simpl.
  - constructor; [ reflexivity | constructor ].
  - destruct (py_eq i k); constructor; try assumption. reflexivity.
Qed.

Lemma Qsum_zero_values (d : list (value * Q)) :
  Forall (fun kv => (snd kv == 0)%Q) d -> (Qsum (map snd d) == 0)%Q.
Proof.
  induction 1 as [ | kv d Hv _ IH ]; simpl; [ reflexivity | ].
  rewrite Hv, IH. ring.
Qed.

(** The dictionary of the classes starts from zero, and its keys are
    hashable. *)
Lemma class_dict_zero (class_list : list value) :
  forall d d' : list (value * Q),
    foldM (fun class_dict i =>
             if py_hashable i then Ok (vdict_set i 0%Q class_dict)
             else Raise TypeError) class_list d = Ok d' ->
    Forall (fun kv => (snd kv == 0)%Q) d ->
    Forall (fun kv => (snd kv == 0)%Q) d' /\ forallb py_hashable class_list = true.
Proof.
  induction class_list as [ | i l IH ]; intros d d' Hf Hd; simpl in Hf.
  - injection Hf as <-. split; [ exact Hd | reflexivity ].
  - bind_inv Hf as d1 Hd1. destruct (py_hashable i) eqn:Hi; [ | discriminate ].
    injection Hd1 as <-.
    destruct (IH _ _ Hf (vdict_set_zero i d Hd)) as [Hd' Hl].
    split; [ exact Hd' | ]. simpl. rewrite Hi. exact Hl.
Qed.

Lemma distinct_classes_snoc (l : list value) (c : value) :
  distinct_classes l -> existsb (fun i => py_eq i c) l = false ->
  distinct_classes (l ++ [c]).
Proof.
  unfold distinct_classes. induction 1 as [ | i l Hi _ IH ]; simpl; intros Hc.
  - constructor; [ constructor | constructor ].
  - apply orb_false_iff in Hc as [Hic Hc]. constructor; [ | apply IH; exact Hc ].
    apply Forall_app. split; [ exact Hi | ]. constructor; [ exact Hic | constructor ].
Qed.

(** The first loop lists every class once. *)
Lemma class_list_Ok (es : list edge) :
  forall acc class_list : list value,
    foldM (fun class_list e =>
             c <- core.highway_class (edge_data e) ;;
             Ok (if existsb (fun i => py_eq i c) class_list
                 then class_list else class_list ++ [c])) es acc = Ok class_list ->
    distinct_classes acc ->
    distinct_classes class_list /\ incl acc class_list /\
    Forall (fun e =>
              exists c i, core.highway_class (edge_data e) = Ok c /\
                          In i class_list /\ (i = c \/ py_eq i c = true)) es.
Proof.
  induction es as [ | e es IH ]; intros acc class_list Hf Hacc; simpl in Hf.
  - injection Hf as <-. split; [ exact Hacc | ].
    split; [ apply incl_refl | constructor ].
  - bind_inv Hf as acc1 Hacc1. bind_inv Hacc1 as c Hc. injection Hacc1 as <-.
    destruct (existsb (fun i => py_eq i c) acc) eqn:Hin.
    + destruct (IH _ _ Hf Hacc) as (Hd & Hincl & Hall).
      split; [ exact Hd | ]. split; [ exact Hincl | ].
      constructor; [ | exact Hall ].
      apply existsb_exists in Hin as (i & Hi & Hic).
      exists c, i. split; [ exact Hc | ].
      split; [ apply Hincl; exact Hi | right; exact Hic ].
    + destruct (IH _ _ Hf (distinct_classes_snoc acc c Hacc Hin))
        as (Hd & Hincl & Hall).
      split; [ exact Hd | ].
      split; [ intros x Hx; apply Hincl, in_or_app; left; exact Hx | ].
      constructor; [ | exact Hall ].
      exists c, c. split; [ exact Hc | ].
      split; [ apply Hincl, in_or_app; right; left; reflexivity | left; reflexivity ].
Qed.

(** One pass over the edges adds the distances of the edges of class [i]
    to the total of the dictionary. *)
Lemma class_pass_Ok (distance_tag : key) (i : value) (es : list edge) :
  forall d d' : list (value * Q),
    foldM (fun class_dict e =>
             c <- core.highway_class (edge_data e) ;;
             if py_eq c i then
               total <- of_option KeyError (vdict_get i class_dict) ;;
               len <- getitem (edge_data e) distance_tag ;;
               len <- as_number len ;;
               Ok (vdict_set i (total + len)%Q class_dict)
             else Ok class_dict) es d = Ok d' ->
    (Qsum (map snd d')
     == Qsum (map snd d)
        + Qsum (map (fun e => if in_class i e
                              then length_or_zero distance_tag e else 0) es))%Q /\
    Forall (fun e => in_class i e = true ->
                     exists len, edge_length distance_tag e = Some len) es.
Proof.
  induction es as [ | e es IH ]; intros d d' Hf; simpl in Hf.
  - injection Hf as <-. split; [ simpl; ring | constructor ].
  - bind_inv Hf as d1 Hd1. bind_inv Hd1 as c Hc.
    destruct (IH _ _ Hf) as [Hsum Hall].
    assert (Hin : in_class i e = py_eq c i)
      by (unfold in_class; rewrite Hc; reflexivity).
    cbn [map Qsum fold_right]. rewrite Hin.
    destruct (py_eq c i) eqn:Hci.
    + bind_inv Hd1 as total Htotal. bind_inv Hd1 as v Hv. bind_inv Hd1 as len Hlen.
      injection Hd1 as <-.
      assert (Hel : edge_length distance_tag e = Some len).
      { unfold edge_length. unfold getitem in Hv.
        destruct (dict_get distance_tag (edge_data e)); [ | discriminate ].
        injection Hv as ->. rewrite Hlen. reflexivity. }
      assert (Hget : vdict_get i d = Some total).
      { destruct (vdict_get i d); [ | discriminate ].
        injection Htotal as <-. reflexivity. }
      assert (Hl0 : length_or_zero distance_tag e = len)
        by (unfold length_or_zero; rewrite Hel; reflexivity).
      split.
      * rewrite Hl0. unfold Qsum in Hsum. rewrite Hsum.
        pose proof (Qsum_vdict_set i total len d Hget) as Hset.
        unfold Qsum in Hset. rewrite Hset. unfold Qsum. ring.
      * constructor; [ | exact Hall ]. intros _. exists len. exact Hel.
    + injection Hd1 as <-. split.
      * unfold Qsum in Hsum. rewrite Hsum. unfold Qsum. ring.
      * constructor; [ | exact Hall ]. intros Ht. congruence.
Qed.

(** The passes for the classes of a list. *)
Lemma class_passes_Ok (distance_tag : key) (es : list edge) (class_list : list value) :
  forall d d' : list (value * Q),
    foldM (fun class_dict i =>
             foldM (fun class_dict e =>
                      c <- core.highway_class (edge_data e) ;;
                      if py_eq c i then
                        total <- of_option KeyError (vdict_get i class_dict) ;;
                        len <- getitem (edge_data e) distance_tag ;;
                        len <- as_number len ;;
                        Ok (vdict_set i (total + len)%Q class_dict)
                      else Ok class_dict) es class_dict) class_list d = Ok d' ->
    (Qsum (map snd d')
     == Qsum (map snd d)
        + Qsum (map (fun i =>
                       Qsum (map (fun e => if in_class i e
                                           then length_or_zero distance_tag e
                                           else 0) es)) class_list))%Q /\
    Forall (fun i =>
              Forall (fun e => in_class i e = true ->
                               exists len, edge_length distance_tag e = Some len) es)
      class_list.
Proof.
  induction class_list as [ | i l IH ]; intros d d' Hf; simpl in Hf.
  - injection Hf as <-. split; [ simpl; ring | constructor ].
  - bind_inv Hf as d1 Hd1.
    apply class_pass_Ok in Hd1 as [Hsum1 Hall1].
    destruct (IH _ _ Hf) as [Hsum Hall].
    split; [ | constructor; assumption ].
    rewrite Hsum, Hsum1. simpl. ring.
Qed.

(** An edge is counted for one class of the list, and no more. *)
Lemma Qsum_one_class (class_list : list value) (c : value) (x : Q) :
  distinct_classes class_list -> forallb py_hashable class_list = true ->
  (exists i, In i class_list /\ py_eq c i = true) ->
  (Qsum (map (fun i => if py_eq c i then x else 0) class_list) == x)%Q.
Proof.
  unfold distinct_classes.
  induction 1 as [ | j l Hj Hl IH ]; simpl; intros Hhash (i & Hi & Hci);
    [ destruct Hi | ].
  apply andb_true_iff in Hhash as [Hjh Hlh].
  destruct (py_eq c j) eqn:Hcj.
  - assert (Hrest : (Qsum (map (fun i0 => if py_eq c i0 then x else 0) l) == 0)%Q).
    { rewrite <- (Qsum_zero l). apply Qsum_map_ext. intros k Hk.
      destruct (py_eq c k) eqn:Hck; [ exfalso | reflexivity ].
      rewrite Forall_forall in Hj. specialize (Hj k Hk).
      assert (Hjc : py_eq j c = true) by (rewrite py_eq_sym; assumption).
      assert (Hch : py_hashable c = true)
        by (eapply py_eq_hashable; [ exact Hjh | exact Hjc ]).
      rewrite (py_eq_trans j c k Hch Hjc Hck) in Hj. discriminate. }
    rewrite Hrest. ring.
  - destruct Hi as [ -> | Hi ]; [ congruence | ].
    rewrite IH; [ ring | exact Hlh | ].
    exists i. split; assumption.
Qed.

(** X13. On a graph whose road classes are strings and whose distances
    are whole numbers, not negative, that add up to less than 2^53, the
    totals that [find_hwy_distances_by_class] returns add up to the total
    distance of the edges of the graph: every edge is counted in one
    class. The two conditions keep to graphs on which the comparisons and
    the sums of the program are those of this embedding: a string equals
    itself, which a NaN in the class attribute does not, and the sums are
    exact in Python's integers and doubles. *)
Theorem find_hwy_distances_by_class_total (G : graph_arg) (g : MultiDiGraph)
  (distance_tag : key) (class_dict : list (value * Q)) :
  graph_of G = Some g ->
  forallb string_class (edges g) = true ->
  exact_lengths distance_tag g = true ->
  core.find_hwy_distances_by_class G distance_tag = Ok class_dict ->
  exists lens,
    Forall2 (fun e len => edge_length distance_tag e = Some len) (edges g) lens /\
    (Qsum (map snd class_dict) == Qsum lens)%Q.
Proof.
  intros Hg _ _ Hf.
  assert (Hbody :
    (class_list <-
       foldM (fun class_list e =>
                c <- core.highway_class (edge_data e) ;;
                Ok (if existsb (fun i => py_eq i c) class_list
                    then class_list else class_list ++ [c]))
         (edges g) [] ;;
     class_dict <-
       foldM (fun class_dict i =>
                if py_hashable i then Ok (vdict_set i 0%Q class_dict)
                else Raise TypeError)
         class_list [] ;;
     foldM (fun class_dict i =>
              foldM (fun class_dict e =>
                       c <- core.highway_class (edge_data e) ;;
                       if py_eq c i then
                         total <- of_option KeyError (vdict_get i class_dict) ;;
                         len <- getitem (edge_data e) distance_tag ;;
                         len <- as_number len ;;
                         Ok (vdict_set i (total + len)%Q class_dict)
                       else Ok class_dict)
                (edges g) class_dict)
       class_list class_dict) = Ok class_dict).
  { destruct G; simpl in Hg; try discriminate; injection Hg as <-; exact Hf. }
  clear Hf. bind_inv Hbody as class_list Hlist. bind_inv Hbody as d0 Hd0.
  apply class_list_Ok in Hlist as (Hdistinct & _ & Hclasses);
    [ | constructor ].
  apply class_dict_zero in Hd0 as [Hzero Hhash]; [ | constructor ].
  apply class_passes_Ok in Hbody as [Hsum Hlens].
  assert (Hedge : forall e, In e (edges g) ->
            exists c i, core.highway_class (edge_data e) = Ok c /\
                        In i class_list /\ py_eq c i = true).
  { intros e He. rewrite Forall_forall in Hclasses.
    destruct (Hclasses e He) as (c & i & Hc & Hi & Hic).
    exists c, i. split; [ exact Hc | ]. split; [ exact Hi | ].
    assert (Hih : py_hashable i = true).
    { rewrite forallb_forall in Hhash. apply Hhash. exact Hi. }
    destruct Hic as [ -> | Hic ].
    - destruct c; try discriminate Hih; simpl.
      + reflexivity.
      + destruct b; reflexivity.
      + apply Qeq_bool_iff. reflexivity.
      + apply String.eqb_refl.
    - rewrite <- py_eq_sym; assumption. }
  exists (map (length_or_zero distance_tag) (edges g)). split.
  - apply Forall2_map_In. intros e He.
    destruct (Hedge e He) as (c & i & Hc & Hi & Hci).
    rewrite Forall_forall in Hlens. specialize (Hlens i Hi).
    rewrite Forall_forall in Hlens.
    destruct (Hlens e He) as (len & Hlen).
    { unfold in_class. rewrite Hc. exact Hci. }
    unfold length_or_zero. rewrite Hlen. reflexivity.
  - rewrite Hsum, (Qsum_zero_values d0 Hzero), Qsum_exchange.
    rewrite Qplus_0_l. apply Qsum_map_ext. intros e He.
    destruct (Hedge e He) as (c & i & Hc & Hi & Hci).
    unfold in_class. rewrite Hc.
    apply Qsum_one_class; [ exact Hdistinct | exact Hhash | ].
    exists i. split; assumption.
Qed.

(** X13 on [three_roads]: 150 on primary roads and 30 on residential
    ones make 180. *)
Lemma find_hwy_distances_by_class_total_three_roads :
  exists lens,
    Forall2 (fun e len => edge_length (KStr "length") e = Some len)
      (edges three_roads) lens /\
    (Qsum (map snd [(VStr "primary", 150%Q); (VStr "residential", 30%Q)])
     == Qsum lens)%Q.
Proof.
  apply (find_hwy_distances_by_class_total (MultiDiGraphObj three_roads)
           three_roads (KStr "length")).
  - reflexivity.
  - reflexivity.
  - vm_compute. reflexivity.
  - vm_compute. reflexivity.
Defined.

(** ** Way.split *)

(** The slices of [slice_array] make up the array: the first slice is not
    empty, and the others continue it from its last node on. *)
Lemma slice_array_join (dividers : dict string Z) (ar : list string)
  (slices : list (list string)) :
  osm_parser.slice_array dividers ar = Ok slices ->
  join_slices slices = ar /\
  exists first rest, slices = first :: rest /\ (ar <> [] -> first <> []).
Proof.
  revert slices. funelim (osm_parser.slice_array dividers ar); intros slices Hs.
  - match goal with
    | Hd : osm_parser.first_divider _ _ _ = Ok (Some _) |- _ =>
        pose proof (osm_parser.first_divider_range _ _ _ _ Hd) as Hrange
    end.
    rewrite osm_parser.interior_length in Hrange.
    bind_inv Hs as rightsliced Hright. injection Hs as <-.
    match goal with
    | IH : forall slices, _ -> _ /\ _ |- _ =>
        destruct (IH _ Hright) as (Hjoin & first & rest & -> & Hfirst)
    end.
    split.
    + simpl in *.
      assert (Hne : skipn i ar <> []).
      { intros Hnil. apply (f_equal (@length string)) in Hnil.
        rewrite length_skipn in Hnil. simpl in Hnil. lia. }
      specialize (Hfirst Hne).
      replace (i + 1) with (S i) by lia.
      assert (Htl : tl first ++ flat_map (fun slice : list string => tl slice) rest
                    = skipn (S i) ar).
      { destruct first as [ | x first ]; [ congruence | ].
        replace (S i) with (1 + i) by lia.
        rewrite <- skipn_skipn, <- Hjoin. reflexivity. }
      rewrite Htl. apply firstn_skipn.
    + eexists. eexists. split; [ reflexivity | ].
      intros Har Hnil. apply (f_equal (@length string)) in Hnil.
      rewrite length_firstn in Hnil. simpl in Hnil.
      destruct ar; [ congruence | simpl in Hnil; lia ].
  - injection Hs as <-. split; [ simpl; apply app_nil_r | ].
    exists ar, []. split; [ reflexivity | auto ].
  - discriminate Hs.
Qed.

Lemma map_snd_combine_seq {A : Type} (l : list A) (a : nat) :
  map snd (combine (seq a (length l)) l) = l.
Proof.
  revert a. induction l as [ | x l IH ]; intros a; simpl; [ reflexivity | ].
  rewrite IH. reflexivity.
Qed.

(** X14. The ways that [Way.split] returns cover the way they come from:
    there is at least one, and their node lists, joined at the nodes they
    share, are the node list of the way. *)
Theorem split_covers (self : osm_parser.Way) (dividers : dict string Z)
  (ways : list osm_parser.Way) :
  osm_parser.split self dividers = Ok ways ->
  ways <> [] /\ join_slices (map osm_parser.nds ways) = osm_parser.nds self.
Proof.
  unfold osm_parser.split. intros Hs. bind_inv Hs as slices Hsl.
  injection Hs as <-.
  apply slice_array_join in Hsl as (Hjoin & first & rest & -> & _).
  split; [ simpl; discriminate | ].
  transitivity
    (join_slices
       (map snd (combine (seq 0 (length (first :: rest))) (first :: rest)))).
  - f_equal. rewrite map_map. apply map_ext. intros [k slice]. reflexivity.
  - rewrite map_snd_combine_seq. exact Hjoin.
Qed.

(** X14 on a way of four nodes whose third is a divider. *)
Lemma split_covers_four_nodes :
  let self := {| osm_parser.id := "w"; osm_parser.nds := ["a"; "b"; "c"; "d"];
                 osm_parser.tags := [] |} in
  let ways := [ {| osm_parser.id := "w-0"; osm_parser.nds := ["a"; "b"; "c"];
                   osm_parser.tags := [] |};
                {| osm_parser.id := "w-1"; osm_parser.nds := ["c"; "d"];
                   osm_parser.tags := [] |} ] in
  ways <> [] /\ join_slices (map osm_parser.nds ways) = osm_parser.nds self.
Proof.
  apply (split_covers _ [("a", 1%Z); ("b", 1%Z); ("c", 2%Z); ("d", 1%Z)]).
  vm_compute. reflexivity.
Defined.

(** X15. The [k]-th way that [Way.split] returns has the id of the way
    with the suffix [-k] and its tags; no node in its interior is a
    divider, and it has two nodes or more when the way has. *)
Theorem split_numbers_parts (self : osm_parser.Way) (dividers : dict string Z)
  (ways : list osm_parser.Way) :
  osm_parser.split self dividers = Ok ways ->
  Forall2 (split_way dividers self) (seq 0 (length ways)) ways.
Proof.
  unfold osm_parser.split. intros Hs. bind_inv Hs as slices Hsl.
  injection Hs as <-.
  apply slice_array_interior in Hsl.
  rewrite length_map, length_combine, length_seq, Nat.min_id.
  generalize 0 at 1 2 as a. revert Hsl.
  induction slices as [ | slice slices IH ]; intros Hsl a; simpl;
    constructor.
  - inversion Hsl as [ | x l [Hint Hlen] Hrest ]; subst.
    unfold split_way. simpl. auto.
  - apply IH. inversion Hsl; subst. assumption.
Qed.

(** X15 on the way of four nodes. *)
Lemma split_numbers_parts_four_nodes :
  let dividers := [("a", 1%Z); ("b", 1%Z); ("c", 2%Z); ("d", 1%Z)] in
  let self := {| osm_parser.id := "w"; osm_parser.nds := ["a"; "b"; "c"; "d"];
                 osm_parser.tags := [] |} in
  let ways := [ {| osm_parser.id := "w-0"; osm_parser.nds := ["a"; "b"; "c"];
                   osm_parser.tags := [] |};
                {| osm_parser.id := "w-1"; osm_parser.nds := ["c"; "d"];
                   osm_parser.tags := [] |} ] in
  Forall2 (split_way dividers self) (seq 0 (length ways)) ways.
Proof.
  apply split_numbers_parts. vm_compute. reflexivity.
Defined.

(** ** OSM.__init__ on the documents it gets through *)

(** X16. [OSM.__init__] returns only for documents all of whose ways
    have two nodes or more: a shorter way makes the loop of lines 246-251
    raise. *)
Theorem OSM_init_needs_long_ways (py_float : string -> result Q)
  (events : list osm_parser.sax_event) (osm : osm_parser.OSM) :
  osm_parser.OSM_init py_float events = Ok osm ->
  exists h,
    osm_parser.parse py_float events = Ok h /\
    Forall (fun r => exists w,
              nth_error (osm_parser.objects h) r = Some (osm_parser.WayElem w) /\
              2 <= length (osm_parser.nds w))
      (dict_values (osm_parser.ways h)).
Proof.
  unfold osm_parser.OSM_init. intros Hi. bind_inv Hi as h Hh.
  exists h. split; [ exact Hh | ].
  unfold osm_parser.build in Hi. bind_inv Hi as counted Hcount.
  destruct counted as [ways hist].
  apply count_nodes_Ok in Hcount as (_ & Hways & _); [ exact Hways | reflexivity ].
Qed.

(** X16 on [crossing]. *)
Lemma OSM_init_needs_long_ways_crossing :
  exists h,
    osm_parser.parse (fun _ => Ok 0%Q) crossing = Ok h /\
    Forall (fun r => exists w,
              nth_error (osm_parser.objects h) r = Some (osm_parser.WayElem w) /\
              2 <= length (osm_parser.nds w))
      (dict_values (osm_parser.ways h)).
Proof.
  eapply (OSM_init_needs_long_ways (fun _ => Ok 0%Q) crossing).
  vm_compute. reflexivity.
Defined.

(** X18 on [crossing]: the first way is cut at node n2, which both ways
    reference. *)
Lemma build_splits_ways_crossing :
  exists h osm w,
    osm_parser.parse (fun _ => Ok 0%Q) crossing = Ok h /\
    osm_parser.build h = Ok osm /\
    In ("w1-0"%string, w) (osm_parser.OSM_ways osm) /\
    2 <= length (osm_parser.nds w) /\
    Forall (fun n => references h n <= 1) (osm_parser.interior (osm_parser.nds w)).
Proof.
  eexists. eexists. eexists.
  split; [ vm_compute; reflexivity | ].
  split; [ vm_compute; reflexivity | ].
  split; [ left; reflexivity | ].
  eapply build_splits_ways; [ vm_compute; reflexivity | left; reflexivity ].
Defined.

(** ** convert_network_to_time: what it leaves alone *)

Lemma convert_edge_data (distance_tag graph_type road_col : string)
  (speed_dict : option (dict string Q)) (walk_speed factor : Q)
  (default : option string) (data data' : attrs) :
  core.convert_edge distance_tag graph_type road_col speed_dict walk_speed factor
    default data = Ok data' ->
  exists v len t,
    dict_get (KStr distance_tag) data = Some v /\ as_number v = Ok len /\
    data' = dict_set (KStr "mode") (VStr graph_type)
              (dict_set (KStr "time") (VNum t)
                 (dict_set (KStr "length") (VNum (len * factor)%Q) data)).
Proof.
  unfold core.convert_edge. intros Hc.
  bind_inv Hc as v Hv. bind_inv Hc as len Hlen.
  unfold getitem in Hv. destruct (dict_get (KStr distance_tag) data) as [ v0 | ] eqn:Hv0;
    simpl in Hv; [ injection Hv as -> | discriminate ].
  bind_inv Hc as speed Hspeed. bind_inv Hc as kmph Hkmph.
  injection Hc as <-.
  exists v, len. eexists. repeat split; try eassumption.
Qed.



(** ** read_osm: the graph of a document *)

Lemma NoDup_snoc {A : Type} (l : list A) (x : A) :
  NoDup l -> ~ In x l -> NoDup (l ++ [x]).
Proof.
  induction 1 as [ | a l Ha Hl IH ]; intros Hx; simpl.
  - constructor; [ intros [] | constructor ].
  - constructor.
    + rewrite in_app_iff. intros [ Hin | [ <- | [] ] ]; [ contradiction | ].
      apply Hx. left. reflexivity.
    + apply IH. intros Hin. apply Hx. right. exact Hin.
Qed.

Lemma dict_keys_set {K V : Type} `{EqDec K} (k : K) (v : V) (d : dict K V) :
  dict_keys (dict_set k v d)
  = if dict_mem k d then dict_keys d else dict_keys d ++ [k].
Proof.
  unfold dict_keys, dict_mem. induction d as [ | [k' v'] d IH ]; simpl;
    [ reflexivity | ].
  destruct (eq_dec k k'); simpl; [ reflexivity | ].
  rewrite IH. destruct (dict_get k d); reflexivity.
Qed.

Lemma NoDup_keys_set {K V : Type} `{EqDec K} (k : K) (v : V) (d : dict K V) :
  NoDup (dict_keys d) -> NoDup (dict_keys (dict_set k v d)).
Proof.
  intros Hd. rewrite dict_keys_set. destruct (dict_mem k d) eqn:Hk; [ exact Hd | ].
  apply NoDup_snoc; [ exact Hd | ].
  intros Hin. apply dict_keys_mem in Hin. congruence.
Qed.

(** With distinct keys, an entry of the dictionary is what its key reads. *)
Lemma NoDup_keys_get {K V : Type} `{EqDec K} (k : K) (v : V) (d : dict K V) :
  NoDup (dict_keys d) -> In (k, v) d -> dict_get k d = Some v.
Proof.
  unfold dict_keys. induction d as [ | [k' v'] d IH ]; simpl; intros Hnd Hin;
    [ contradiction | ].
  inversion Hnd as [ | ? ? Hk' Hd ]; subst.
  destruct Hin as [ Heq | Hin ].
  - injection Heq as -> ->. destruct (eq_dec k k); [ reflexivity | congruence ].
  - destruct (eq_dec k k') as [ -> | Hne ]; [ | apply IH; assumption ].
    exfalso. apply Hk'. apply in_map_iff. exists (k', v).
    split; [ reflexivity | exact Hin ].
Qed.

Lemma dict_mapM_get {K V W : Type} `{EqDec K} (f : K -> V -> result W)
  (d : dict K V) (d' : dict K W) (k : K) :
  dict_mapM f d = Ok d' ->
  match dict_get k d with
  | Some v => exists w, f k v = Ok w /\ dict_get k d' = Some w
  | None => dict_get k d' = None
  end.
Proof.
  intros Hm. apply dict_mapM_Forall2 in Hm.
  induction Hm as [ | [k0 v0] [k1 w1] d d' [Hk Hf] _ IH ]; simpl; [ reflexivity | ].
  simpl in Hk, Hf. subst k1.
  destruct (eq_dec k k0) as [ -> | Hne ]; [ | exact IH ].
  exists w1. split; [ exact Hf | reflexivity ].
Qed.

(** *** Neighbours in a list *)

Lemma consecutive_combine (u v : string) (l : list string) :
  In (u, v) (combine (removelast l) (tl l)) <-> consecutive u v l.
Proof.
  unfold consecutive. induction l as [ | a l IH ].
  - simpl. split; [ intros [] | ].
    intros (l1 & l2 & Hl). destruct l1; discriminate.
  - destruct l as [ | b l ].
    + simpl. split; [ intros [] | ].
      intros (l1 & l2 & Hl). destruct l1 as [ | x [ | y l1 ] ]; discriminate.
    + change (combine (removelast (a :: b :: l)) (tl (a :: b :: l)))
        with ((a, b) :: combine (removelast (b :: l)) (tl (b :: l))).
      split.
      * intros [ Heq | Hin ].
        -- injection Heq as <- <-. exists [], l. reflexivity.
        -- apply IH in Hin as (l1 & l2 & Hl). exists (a :: l1), l2.
           simpl. rewrite Hl. reflexivity.
      * intros (l1 & l2 & Hl). destruct l1 as [ | x l1 ]; simpl in Hl.
        -- injection Hl as <- <- _. left. reflexivity.
        -- injection Hl as _ Hl. right. apply IH. exists l1, l2. exact Hl.
Qed.

Lemma consecutive_rev (u v : string) (l : list string) :
  consecutive u v (rev l) <-> consecutive v u l.
Proof.
  assert (Hrev : forall a b m, consecutive a b (rev m) -> consecutive b a m).
  { intros a b m (l1 & l2 & Hl). exists (rev l2), (rev l1).
    rewrite <- (rev_involutive m), Hl, rev_app_distr. simpl.
    rewrite <- !app_assoc. reflexivity. }
  split; [ apply Hrev | ].
  intros Hc. apply Hrev. rewrite rev_involutive. exact Hc.
Qed.

(** *** The edges that add_edges_from writes *)

Lemma ensure_node_get_edge_data (G : networkx.DiGraph) (a u v : string) :
  networkx.get_edge_data (networkx.ensure_node G a) u v
  = networkx.get_edge_data G u v.
Proof.
  unfold networkx.get_edge_data, networkx.ensure_node.
  destruct (dict_mem a (networkx._adj G)) eqn:Ha; [ reflexivity | ]. simpl.
  destruct (string_dec a u) as [ <- | Hne ].
  - rewrite dict_get_set_eq. unfold dict_mem in Ha.
    destruct (dict_get a (networkx._adj G)); [ discriminate | reflexivity ].
  - rewrite dict_get_set_neq by exact Hne. reflexivity.
Qed.

Lemma ensure_node_keys (G : networkx.DiGraph) (a : string) :
  graph_keys G -> graph_keys (networkx.ensure_node G a).
Proof.
  intros [Hnd Hsync]. unfold networkx.ensure_node.
  destruct (dict_mem a (networkx._adj G)) eqn:Ha; [ split; assumption | ].
  split; simpl.
  - apply NoDup_keys_set. exact Hnd.
  - intros n. rewrite !dict_mem_set, Hsync. reflexivity.
Qed.

Lemma ensure_node_adj (G : networkx.DiGraph) (a n : string) :
  dict_mem n (networkx._adj (networkx.ensure_node G a))
  = eqb n a || dict_mem n (networkx._adj G).
Proof.
  unfold networkx.ensure_node.
  destruct (dict_mem a (networkx._adj G)) eqn:Ha; simpl.
  - unfold eqb. destruct (eq_dec n a) as [ -> | ]; [ | reflexivity ].
    rewrite Ha. reflexivity.
  - apply dict_mem_set.
Qed.

Lemma ensure_node_same (G : networkx.DiGraph) (a : string) :
  dict_mem a (networkx._adj G) = true -> networkx.ensure_node G a = G.
Proof.
  intros Ha. unfold networkx.ensure_node. rewrite Ha. reflexivity.
Qed.

(** What [add_edges_from] leaves between [u] and [v] after the triple
    [(a, b, dd)]. *)
Lemma add_edge_from_get_edge_data (attr : attrs) (G : networkx.DiGraph)
  (a b : string) (dd : attrs) (u v : string) :
  networkx.get_edge_data (networkx.add_edge_from attr G (a, b, dd)) u v
  = if string_dec u a then
      if string_dec v b then
        Some (dict_update
                (dict_update
                   (match networkx.get_edge_data G a b with
                    | Some d => d
                    | None => []
                    end) attr) dd)
      else networkx.get_edge_data G u v
    else networkx.get_edge_data G u v.
Proof.
  unfold networkx.add_edge_from.
  set (G2 := networkx.ensure_node (networkx.ensure_node G a) b).
  assert (HG2 : forall x y,
            networkx.get_edge_data G x y = networkx.get_edge_data G2 x y).
  { intros x y. unfold G2. rewrite !ensure_node_get_edge_data. reflexivity. }
  rewrite !HG2. unfold networkx.get_edge_data. simpl.
  destruct (string_dec u a) as [ -> | Hu ].
  - rewrite dict_get_set_eq. destruct (string_dec v b) as [ -> | Hv ].
    + rewrite dict_get_set_eq.
      destruct (dict_get a (networkx._adj G2)); reflexivity.
    + rewrite dict_get_set_neq by congruence.
      destruct (dict_get a (networkx._adj G2)); reflexivity.
  - rewrite dict_get_set_neq by congruence. reflexivity.
Qed.

Lemma add_edge_from_keys (attr : attrs) (G : networkx.DiGraph)
  (e : string * string * attrs) :
  graph_keys G -> graph_keys (networkx.add_edge_from attr G e).
Proof.
  destruct e as [[a b] dd]. intros HG. unfold networkx.add_edge_from.
  set (G2 := networkx.ensure_node (networkx.ensure_node G a) b).
  assert (HG2 : graph_keys G2) by (apply ensure_node_keys, ensure_node_keys, HG).
  assert (Ha : dict_mem a (networkx._adj G2) = true).
  { unfold G2. rewrite !ensure_node_adj. unfold eqb at 2.
    destruct (eq_dec a a); [ | congruence ]. apply orb_true_r. }
  destruct HG2 as [Hnd Hsync]. split; simpl.
  - apply NoDup_keys_set. exact Hnd.
  - intros n. rewrite dict_mem_set, Hsync. unfold eqb.
    destruct (eq_dec n a) as [ -> | ]; [ rewrite Ha | ]; reflexivity.
Qed.

(** The nodes after a triple: those there were, and its two ends. *)
Lemma add_edge_from_nodes (attr : attrs) (G : networkx.DiGraph)
  (a b : string) (dd : attrs) (n : string) :
  graph_keys G ->
  dict_mem n (networkx._node (networkx.add_edge_from attr G (a, b, dd))) = true ->
  dict_mem n (networkx._node G) = true \/ n = a \/ n = b.
Proof.
  intros HG. unfold networkx.add_edge_from. simpl.
  pose proof (ensure_node_keys G a HG) as [_ H1].
  pose proof (ensure_node_keys _ b (ensure_node_keys G a HG)) as [_ H2].
  rewrite H2, !ensure_node_adj. destruct HG as [_ Hsync]. rewrite <- Hsync.
  unfold eqb. destruct (eq_dec n b); [ auto | ].
  destruct (eq_dec n a); [ auto | ]. simpl. auto.
Qed.

Lemma add_edge_from_same_nodes (attr : attrs) (G : networkx.DiGraph)
  (a b : string) (dd : attrs) :
  dict_mem a (networkx._adj G) = true -> dict_mem b (networkx._adj G) = true ->
  networkx._node (networkx.add_edge_from attr G (a, b, dd)) = networkx._node G.
Proof.
  intros Ha Hb. unfold networkx.add_edge_from. simpl.
  rewrite (ensure_node_same G a Ha), (ensure_node_same G b Hb). reflexivity.
Qed.

(** *** The edges of a path *)

Lemma way_attr_update (old : attrs) (i h : string) :
  dict_get (KStr "id")
    (dict_update (dict_update old [(KStr "id", VStr i); (KStr "highway", VStr h)]) [])
  = Some (VStr i) /\
  dict_get (KStr "highway")
    (dict_update (dict_update old [(KStr "id", VStr i); (KStr "highway", VStr h)]) [])
  = Some (VStr h).
Proof.
  unfold dict_update. simpl. split.
  - rewrite dict_get_set_neq by discriminate. apply dict_get_set_eq.
  - apply dict_get_set_eq.
Qed.

Lemma add_pairs_keys (attr : attrs) (ps : list (string * string)) :
  forall G,
    graph_keys G ->
    graph_keys
      (networkx.add_edges_from G (map (fun uv => (fst uv, snd uv, [])) ps) attr).
Proof.
  unfold networkx.add_edges_from.
  induction ps as [ | [a b] ps IH ]; intros G HG; cbn [map fold_left fst snd]; [ exact HG | ].
  apply IH, add_edge_from_keys, HG.
Qed.

Lemma add_pairs_keeps (attr : attrs) (ps : list (string * string)) (u v : string) :
  forall G,
    networkx.get_edge_data G u v <> None ->
    networkx.get_edge_data
      (networkx.add_edges_from G (map (fun uv => (fst uv, snd uv, [])) ps) attr) u v
    <> None.
Proof.
  unfold networkx.add_edges_from.
  induction ps as [ | [a b] ps IH ]; intros G HG; cbn [map fold_left fst snd]; [ exact HG | ].
  apply IH. rewrite add_edge_from_get_edge_data.
  destruct (string_dec u a); [ destruct (string_dec v b) | ];
    try exact HG. discriminate.
Qed.

Lemma add_pairs_covers (attr : attrs) (ps : list (string * string)) (u v : string) :
  forall G,
    In (u, v) ps ->
    networkx.get_edge_data
      (networkx.add_edges_from G (map (fun uv => (fst uv, snd uv, [])) ps) attr) u v
    <> None.
Proof.
  induction ps as [ | [a b] ps IH ]; intros G Hin; [ destruct Hin | ].
  destruct Hin as [ Heq | Hin ].
  - injection Heq as -> ->.
    change (networkx.add_edges_from G
              (map (fun uv => (fst uv, snd uv, [])) ((u, v) :: ps)) attr)
      with (networkx.add_edges_from (networkx.add_edge_from attr G (u, v, []))
              (map (fun uv => (fst uv, snd uv, [])) ps) attr).
    apply add_pairs_keeps. rewrite add_edge_from_get_edge_data.
    destruct (string_dec u u); [ | congruence ].
    destruct (string_dec v v); [ discriminate | congruence ].
  - apply (IH (networkx.add_edge_from attr G (a, b, [])) Hin).
Qed.

Lemma add_pairs_get (i h : string) (ps : list (string * string))
  (u v : string) (data : attrs) :
  forall G,
    networkx.get_edge_data
      (networkx.add_edges_from G (map (fun uv => (fst uv, snd uv, [])) ps)
         [(KStr "id", VStr i); (KStr "highway", VStr h)]) u v = Some data ->
    (In (u, v) ps /\
     dict_get (KStr "id") data = Some (VStr i) /\
     dict_get (KStr "highway") data = Some (VStr h)) \/
    networkx.get_edge_data G u v = Some data.
Proof.
  unfold networkx.add_edges_from.
  induction ps as [ | [a b] ps IH ]; intros G Hget; cbn [map fold_left fst snd] in Hget;
    [ right; exact Hget | ].
  apply IH in Hget as [ (Hin & Hid & Hh) | Hget ].
  - left. split; [ right; exact Hin | split; assumption ].
  - rewrite add_edge_from_get_edge_data in Hget.
    destruct (string_dec u a) as [ -> | ];
      [ destruct (string_dec v b) as [ -> | ] | ]; try (right; exact Hget).
    injection Hget as <-. left. split; [ left; reflexivity | ].
    apply way_attr_update.
Qed.

Lemma add_pairs_nodes (attr : attrs) (ps : list (string * string)) (n : string) :
  forall G,
    graph_keys G ->
    dict_mem n
      (networkx._node
         (networkx.add_edges_from G (map (fun uv => (fst uv, snd uv, [])) ps) attr))
    = true ->
    dict_mem n (networkx._node G) = true \/
    exists v, In (n, v) ps \/ In (v, n) ps.
Proof.
  unfold networkx.add_edges_from.
  induction ps as [ | [a b] ps IH ]; intros G HG Hn; cbn [map fold_left fst snd] in Hn;
    [ left; exact Hn | ].
  apply IH in Hn as [ Hn | (v & Hv) ]; [ | | apply add_edge_from_keys, HG ].
  - apply add_edge_from_nodes in Hn as [ Hn | [ -> | -> ] ]; [ | | | exact HG ].
    + left. exact Hn.
    + right. exists b. left. left. reflexivity.
    + right. exists a. right. left. reflexivity.
  - right. exists v. destruct Hv as [ Hv | Hv ]; [ left | right ]; right; exact Hv.
Qed.

(** *** The loop over the ways *)

Lemma ways_sound_incl (S S' : osm_parser.Way -> Prop) (G : networkx.DiGraph) :
  (forall w, S w -> S' w) -> ways_sound S G -> ways_sound S' G.
Proof.
  intros HS [Hk Hon Hew]. split; [ exact Hk | exact Hon | ].
  intros u v data Hget. destruct (Hew u v data Hget) as (w & Hw & Hl & He).
  exists w. split; [ apply HS; exact Hw | split; assumption ].
Qed.

Lemma ways_complete_incl (S S' : osm_parser.Way -> Prop) (G : networkx.DiGraph) :
  (forall w, S' w -> S w) -> ways_complete S G -> ways_complete S' G.
Proof.
  intros HS Hc w u v Hw Hl. apply (Hc w u v); [ apply HS; exact Hw | exact Hl ].
Qed.

Lemma add_way_path_highway (G G' : networkx.DiGraph) (w : osm_parser.Way)
  (nodes : list string) :
  osm_parser.add_way_path G w nodes = Ok G' ->
  exists h,
    dict_get "highway" (osm_parser.tags w) = Some h /\
    G' = networkx.add_path G nodes
           [(KStr "id", VStr (osm_parser.id w)); (KStr "highway", VStr h)].
Proof.
  unfold osm_parser.add_way_path, osm_parser.way_attr, getitem. intros Ha.
  bind_inv Ha as attr Hattr. injection Ha as <-.
  bind_inv Hattr as h Hh. injection Hattr as <-.
  exists h. split; [ | reflexivity ].
  destruct (dict_get "highway" (osm_parser.tags w)); [ | discriminate ].
  injection Hh as ->. reflexivity.
Qed.

(** A path of way [w] adds edges that [w] links, and no other. *)
Lemma add_way_path_sound (S : osm_parser.Way -> Prop) (G G' : networkx.DiGraph)
  (w : osm_parser.Way) (nodes : list string) :
  osm_parser.add_way_path G w nodes = Ok G' ->
  S w -> (forall u v, consecutive u v nodes -> road_link w u v) ->
  ways_sound S G -> ways_sound S G'.
Proof.
  intros Ha Hw Hlink [Hk Hon Hew].
  apply add_way_path_highway in Ha as (h & Hh & ->).
  unfold networkx.add_path. split.
  - apply add_pairs_keys. exact Hk.
  - intros n Hn. apply add_pairs_nodes in Hn as [ Hn | (v & Hv) ]; [ | | exact Hk ].
    + destruct (Hon n Hn) as (v & Hv). exists v.
      destruct Hv as [ Hv | Hv ]; [ left | right ]; apply add_pairs_keeps; exact Hv.
    + exists v. destruct Hv as [ Hv | Hv ]; [ left | right ];
        apply add_pairs_covers; exact Hv.
  - intros u v data Hget. apply add_pairs_get in Hget as [ (Hin & Hid & Hhw) | Hget ].
    + exists w. split; [ exact Hw | ].
      split; [ apply Hlink, consecutive_combine; exact Hin | ].
      exists h. split; [ exact Hh | split; assumption ].
    + apply Hew. exact Hget.
Qed.

Lemma add_way_path_edges (G G' : networkx.DiGraph) (w : osm_parser.Way)
  (nodes : list string) :
  osm_parser.add_way_path G w nodes = Ok G' ->
  (forall u v, networkx.get_edge_data G u v <> None ->
               networkx.get_edge_data G' u v <> None) /\
  (forall u v, consecutive u v nodes -> networkx.get_edge_data G' u v <> None).
Proof.
  intros Ha. apply add_way_path_highway in Ha as (h & Hh & ->).
  unfold networkx.add_path. split.
  - intros u v. apply add_pairs_keeps.
  - intros u v Hc. apply add_pairs_covers, consecutive_combine. exact Hc.
Qed.

Lemma add_two_way (S : osm_parser.Way -> Prop) (G G' : networkx.DiGraph)
  (w : osm_parser.Way) :
  (G1 <- osm_parser.add_way_path G w (osm_parser.nds w) ;;
   osm_parser.add_way_path G1 w (rev (osm_parser.nds w))) = Ok G' ->
  dict_get "oneway" (osm_parser.tags w) <> Some "yes" ->
  ways_sound S G -> ways_complete S G ->
  ways_sound (fun w' => S w' \/ w' = w) G' /\
  ways_complete (fun w' => S w' \/ w' = w) G'.
Proof.
  intros Ha Hone Hs Hc. bind_inv Ha as G1 HG1.
  assert (Hhw : dict_mem "highway" (osm_parser.tags w) = true).
  { destruct (add_way_path_highway _ _ _ _ HG1) as (h & Hh & _).
    unfold dict_mem. rewrite Hh. reflexivity. }
  destruct (add_way_path_edges _ _ _ _ HG1) as [Hkeep1 Hcov1].
  destruct (add_way_path_edges _ _ _ _ Ha) as [Hkeep2 Hcov2].
  split.
  - apply (add_way_path_sound _ _ _ _ _ Ha); [ right; reflexivity | | ].
    + intros u v Huv. split; [ exact Hhw | right ].
      split; [ apply consecutive_rev; exact Huv | exact Hone ].
    + apply (add_way_path_sound _ _ _ _ _ HG1); [ right; reflexivity | | ].
      * intros u v Huv. split; [ exact Hhw | left; exact Huv ].
      * apply (ways_sound_incl S); [ intros w' Hw'; left; exact Hw' | exact Hs ].
  - intros w' u v [ Hw' | -> ] Hl.
    + apply Hkeep2, Hkeep1. apply (Hc w' u v Hw' Hl).
    + destruct Hl as [_ [ Huv | [Hvu _] ]].
      * apply Hkeep2, Hcov1. exact Huv.
      * apply Hcov2, consecutive_rev. exact Hvu.
Qed.

Lemma add_way_inv (S : osm_parser.Way -> Prop) (only_roads : bool)
  (G G' : networkx.DiGraph) (w : osm_parser.Way) :
  osm_parser.add_way only_roads G w = Ok G' ->
  ways_sound S G -> ways_complete S G ->
  ways_sound (fun w' => S w' \/ w' = w) G' /\
  ways_complete (fun w' => S w' \/ w' = w) G'.
Proof.
  unfold osm_parser.add_way. intros Ha Hs Hc.
  destruct (only_roads && negb (dict_mem "highway" (osm_parser.tags w))) eqn:Hskip.
  - injection Ha as <-. split.
    + apply (ways_sound_incl S); [ intros w' Hw'; left; exact Hw' | exact Hs ].
    + intros w' u v [ Hw' | -> ] Hl; [ apply (Hc w' u v Hw' Hl) | ].
      destruct Hl as [Hhw _]. apply andb_true_iff in Hskip as [_ Hskip].
      rewrite Hhw in Hskip. discriminate.
  - destruct (dict_mem "oneway" (osm_parser.tags w)) eqn:Hmem.
    + bind_inv Ha as oneway Hone. unfold getitem in Hone.
      destruct (dict_get "oneway" (osm_parser.tags w)) as [ o | ] eqn:Ho;
        [ | discriminate ].
      injection Hone as ->.
      destruct (String.eqb oneway "yes") eqn:Hyes.
      * apply String.eqb_eq in Hyes. subst oneway.
        assert (Hhw : dict_mem "highway" (osm_parser.tags w) = true).
        { destruct (add_way_path_highway _ _ _ _ Ha) as (h & Hh & _).
          unfold dict_mem. rewrite Hh. reflexivity. }
        destruct (add_way_path_edges _ _ _ _ Ha) as [Hkeep Hcov].
        split.
        -- apply (add_way_path_sound _ _ _ _ _ Ha); [ right; reflexivity | | ].
           ++ intros u v Huv. split; [ exact Hhw | left; exact Huv ].
           ++ apply (ways_sound_incl S); [ intros w' Hw'; left; exact Hw' | exact Hs ].
        -- intros w' u v [ Hw' | -> ] Hl.
           ++ apply Hkeep. apply (Hc w' u v Hw' Hl).
           ++ destruct Hl as [_ [ Huv | [_ Hno] ]]; [ | congruence ].
              apply Hcov. exact Huv.
      * apply (add_two_way S G G' w Ha); [ | exact Hs | exact Hc ].
        rewrite Ho. intros Heq. injection Heq as ->. discriminate.
    + apply (add_two_way S G G' w Ha); [ | exact Hs | exact Hc ].
      unfold dict_mem in Hmem.
      destruct (dict_get "oneway" (osm_parser.tags w)); discriminate.
Qed.

Lemma add_ways_inv (only_roads : bool) (ways : list osm_parser.Way) :
  forall (S : osm_parser.Way -> Prop) (G G' : networkx.DiGraph),
    foldM (osm_parser.add_way only_roads) ways G = Ok G' ->
    ways_sound S G -> ways_complete S G ->
    ways_sound (fun w => S w \/ In w ways) G' /\
    ways_complete (fun w => S w \/ In w ways) G'.
Proof.
  induction ways as [ | a ways IH ]; intros S G G' Hf Hs Hc; simpl in Hf.
  - injection Hf as <-. split.
    + apply (ways_sound_incl S); [ intros w Hw; left; exact Hw | exact Hs ].
    + apply (ways_complete_incl S); [ intros w [ Hw | [] ]; exact Hw | exact Hc ].
  - bind_inv Hf as G1 HG1.
    destruct (add_way_inv S only_roads G G1 a HG1 Hs Hc) as [Hs1 Hc1].
    destruct (IH _ _ _ Hf Hs1 Hc1) as [Hs' Hc']. split.
    + eapply ways_sound_incl; [ | exact Hs' ].
      intros w [ [ Hw | -> ] | Hw ]; [ left; exact Hw | right; left; reflexivity | ].
      right. right. exact Hw.
    + eapply ways_complete_incl; [ | exact Hc' ].
      intros w [ Hw | [ <- | Hw ] ]; [ left; left; exact Hw | left; right; reflexivity | ].
      right. exact Hw.
Qed.

Lemma empty_ways_inv :
  ways_sound (fun _ => False) networkx.empty /\
  ways_complete (fun _ => False) networkx.empty.
Proof.
  split; [ split | ].
  - split; [ constructor | reflexivity ].
  - discriminate.
  - discriminate.
  - intros w u v [].
Qed.

(** *** The loop over the nodes *)

Lemma complete_node_of (osm : osm_parser.OSM) (n_id : string) (data0 data : attrs) :
  osm_parser.complete_node osm n_id data0 = Ok data -> node_of osm n_id data.
Proof.
  unfold osm_parser.complete_node, getitem. intros Hc. bind_inv Hc as e He.
  destruct (dict_get n_id (osm_parser.OSM_nodes osm)) as [ e0 | ] eqn:Hn;
    [ | discriminate ].
  injection He as ->. destruct e as [ n | w ]; [ | discriminate ].
  injection Hc as <-. exists n. split; [ exact Hn | ]. split; [ | split ].
  - rewrite !dict_get_set_neq by discriminate. apply dict_get_set_eq.
  - rewrite dict_get_set_neq by discriminate. apply dict_get_set_eq.
  - apply dict_get_set_eq.
Qed.

(** *** The loop over the edges *)

Lemma edges_get_edge_data (G : networkx.DiGraph) (u v : string) :
  NoDup (dict_keys (networkx._adj G)) -> In (u, v) (networkx.edges G) ->
  networkx.get_edge_data G u v <> None.
Proof.
  intros Hnd Hin. unfold networkx.edges in Hin.
  apply in_flat_map in Hin as ([u' nbrs] & Hu & Hv).
  apply in_map_iff in Hv as ([v' data] & Heq & Hv). simpl in Heq, Hv.
  injection Heq as -> ->.
  unfold networkx.get_edge_data. rewrite (NoDup_keys_get _ _ _ Hnd Hu).
  apply In_dict_mem, dict_mem_In in Hv as (data' & Hv & _).
  rewrite Hv. discriminate.
Qed.

Lemma get_edge_data_edges (G : networkx.DiGraph) (u v : string) (data : attrs) :
  networkx.get_edge_data G u v = Some data -> In (u, v) (networkx.edges G).
Proof.
  unfold networkx.get_edge_data, networkx.edges.
  destruct (dict_get u (networkx._adj G)) as [ nbrs | ] eqn:Hu; [ | discriminate ].
  intros Hv. apply in_flat_map. exists (u, nbrs).
  split; [ apply dict_get_In; exact Hu | ].
  apply in_map_iff. exists (v, data).
  split; [ reflexivity | apply dict_get_In; exact Hv ].
Qed.

Lemma node_item_mem (G : networkx.DiGraph) (n : string) (k : key) (x : value) :
  osm_parser.node_item G n k = Ok x -> dict_mem n (networkx._node G) = true.
Proof.
  unfold osm_parser.node_item, getitem, dict_mem. intros Hx.
  destruct (dict_get n (networkx._node G)); [ reflexivity | discriminate ].
Qed.

Lemma node_item_same (G G0 : networkx.DiGraph) (n : string) (k : key) :
  networkx._node G = networkx._node G0 ->
  osm_parser.node_item G n k = osm_parser.node_item G0 n k.
Proof.
  intros Hn. unfold osm_parser.node_item. rewrite Hn. reflexivity.
Qed.

Lemma lengths_inv_incl (haversine : Q -> Q -> Q -> Q -> result Q)
  (G0 G : networkx.DiGraph) (D D' : string * string -> Prop) :
  (forall p, D' p -> D p) ->
  lengths_inv haversine G0 D G -> lengths_inv haversine G0 D' G.
Proof.
  intros HD [Hn Hk Hdata Hedges Hlen]. split; try assumption.
  intros u v data Huv. apply Hlen, HD, Huv.
Qed.

(** One edge gets its length; the nodes and the other edges stay. *)
Lemma estimate_length_inv (haversine : Q -> Q -> Q -> Q -> result Q)
  (G0 G G' : networkx.DiGraph) (D : string * string -> Prop) (u v : string) :
  osm_parser.estimate_length haversine G (u, v) = Ok G' ->
  networkx.get_edge_data G0 u v <> None ->
  lengths_inv haversine G0 D G ->
  lengths_inv haversine G0 (fun p => D p \/ p = (u, v)) G'.
Proof.
  unfold osm_parser.estimate_length. intros He H0 [Hn Hk Hdata Hedges Hlen].
  bind_inv He as vlon1 Hlon1. bind_inv He as vlat1 Hlat1.
  bind_inv He as vlon2 Hlon2. bind_inv He as vlat2 Hlat2.
  bind_inv He as lon1 Hx1. bind_inv He as lat1 Hy1.
  bind_inv He as lon2 Hx2. bind_inv He as lat2 Hy2.
  bind_inv He as d Hd. injection He as <-.
  assert (Hu : dict_mem u (networkx._adj G) = true).
  { destruct Hk as [_ Hsync]. rewrite <- Hsync. eapply node_item_mem. exact Hlon1. }
  assert (Hv : dict_mem v (networkx._adj G) = true).
  { destruct Hk as [_ Hsync]. rewrite <- Hsync. eapply node_item_mem. exact Hlon2. }
  unfold networkx.add_weighted_edges_from, networkx.add_edges_from.
  cbn [map fold_left fst snd].
  assert (Hget : forall a b,
            networkx.get_edge_data
              (networkx.add_edge_from [] G (u, v, [(KStr "length", VNum d)])) a b
            = if string_dec a u then
                if string_dec b v then
                  Some (dict_set (KStr "length") (VNum d)
                          (match networkx.get_edge_data G u v with
                           | Some x => x
                           | None => []
                           end))
                else networkx.get_edge_data G a b
              else networkx.get_edge_data G a b).
  { intros a b. rewrite add_edge_from_get_edge_data. reflexivity. }
  split.
  - rewrite add_edge_from_same_nodes by assumption. exact Hn.
  - apply add_edge_from_keys. exact Hk.
  - intros a b data Hab. rewrite Hget in Hab.
    destruct (string_dec a u) as [ -> | ];
      [ destruct (string_dec b v) as [ -> | ] | ];
      try (apply Hdata; exact Hab).
    injection Hab as <-.
    destruct (networkx.get_edge_data G u v) as [ old | ] eqn:Hold.
    + destruct (Hdata u v old Hold) as (data0 & Hd0 & Hsame).
      exists data0. split; [ exact Hd0 | ].
      intros k Hk'. rewrite dict_get_set_neq by congruence. apply Hsame. exact Hk'.
    + exfalso. apply (Hedges u v H0). exact Hold.
  - intros a b Hab. rewrite Hget.
    destruct (string_dec a u); [ destruct (string_dec b v) | ];
      try (apply Hedges; exact Hab).
    discriminate.
  - intros a b data HD Hab. rewrite Hget in Hab.
    destruct (string_dec a u) as [ -> | Ha ];
      [ destruct (string_dec b v) as [ -> | Hb ] | ].
    + injection Hab as <-. exists d. split; [ | apply dict_get_set_eq ].
      exists lon1, lat1, lon2, lat2.
      repeat split; try exact Hd;
        eexists; (split; [ rewrite <- (node_item_same G G0 _ _ Hn); eassumption
                         | assumption ]).
    + destruct HD as [ HD | Heq ]; [ apply (Hlen u b data HD Hab) | ].
      injection Heq as ->. congruence.
    + destruct HD as [ HD | Heq ]; [ apply (Hlen a b data HD Hab) | ].
      injection Heq as -> ->. congruence.
Qed.

Lemma estimate_lengths_inv (haversine : Q -> Q -> Q -> Q -> result Q)
  (G0 : networkx.DiGraph) (l : list (string * string)) :
  forall (D : string * string -> Prop) (G G' : networkx.DiGraph),
    foldM (osm_parser.estimate_length haversine) l G = Ok G' ->
    (forall p, In p l -> networkx.get_edge_data G0 (fst p) (snd p) <> None) ->
    lengths_inv haversine G0 D G ->
    lengths_inv haversine G0 (fun p => D p \/ In p l) G'.
Proof.
  induction l as [ | [u v] l IH ]; intros D G G' Hf Hl HG; simpl in Hf.
  - injection Hf as <-. eapply lengths_inv_incl; [ | exact HG ].
    intros p [ Hp | [] ]. exact Hp.
  - bind_inv Hf as G1 HG1.
    apply (estimate_length_inv haversine G0 G G1 D u v) in HG1;
      [ | apply (Hl (u, v)); left; reflexivity | exact HG ].
    apply (IH (fun p => D p \/ p = (u, v))) in Hf;
      [ | intros p Hp; apply Hl; right; exact Hp | exact HG1 ].
    eapply lengths_inv_incl; [ | exact Hf ].
    intros p [ Hp | [ <- | Hp ] ];
      [ left; left; exact Hp | left; right; reflexivity | right; exact Hp ].
Qed.

(** *** The three loops together *)

(** What holds of the graph [G] that [read_osm] returns: [G1] is the graph
    after the loop over the ways, [G2] the graph after the loop over the
    nodes. *)
Lemma read_osm_Ok (py_float : string -> result Q)
  (haversine : Q -> Q -> Q -> Q -> result Q) (events : list osm_parser.sax_event)
  (only_roads : bool) (G : networkx.DiGraph) :
  osm_parser.read_osm py_float haversine events only_roads = Ok G ->
  exists osm G1 G2,
    osm_parser.OSM_init py_float events = Ok osm /\
    ways_sound (fun w => In w (dict_values (osm_parser.OSM_ways osm))) G1 /\
    ways_complete (fun w => In w (dict_values (osm_parser.OSM_ways osm))) G1 /\
    networkx._adj G2 = networkx._adj G1 /\
    (forall n,
       match dict_get n (networkx._node G1) with
       | Some data0 =>
           exists data, osm_parser.complete_node osm n data0 = Ok data /\
                        dict_get n (networkx._node G2) = Some data
       | None => dict_get n (networkx._node G2) = None
       end) /\
    lengths_inv haversine G2 (fun p => In p (networkx.edges G2)) G.
Proof.
  unfold osm_parser.read_osm. intros Hr.
  bind_inv Hr as osm Hosm. cbv zeta in Hr.
  bind_inv Hr as G1 HG1. bind_inv Hr as node Hnode.
  destruct (add_ways_inv _ _ _ _ _ HG1 (proj1 empty_ways_inv) (proj2 empty_ways_inv))
    as [Hs Hc].
  exists osm, G1, {| networkx._node := node; networkx._adj := networkx._adj G1 |}.
  split; [ exact Hosm | ].
  split; [ eapply ways_sound_incl; [ | exact Hs ]; intros w [ [] | Hw ]; exact Hw | ].
  split; [ eapply ways_complete_incl; [ | exact Hc ]; intros w Hw; right; exact Hw | ].
  split; [ reflexivity | ].
  split; [ intros n; apply (dict_mapM_get _ _ _ n Hnode) | ].
  set (G2 := {| networkx._node := node; networkx._adj := networkx._adj G1 |}) in *.
  assert (HkG2 : graph_keys G2).
  { destruct Hs as [[Hnd Hsync] _ _]. split; [ exact Hnd | ].
    intros n. simpl. rewrite <- Hsync.
    pose proof (dict_mapM_get _ _ _ n Hnode) as Hn. unfold dict_mem.
    destruct (dict_get n (networkx._node G1)).
    - destruct Hn as (w & _ & ->). reflexivity.
    - rewrite Hn. reflexivity. }
  eapply lengths_inv_incl;
    [ | apply (estimate_lengths_inv haversine G2 _ (fun _ => False) G2 G Hr) ].
  - intros p Hp. right. exact Hp.
  - intros [u v] Hp. simpl. apply edges_get_edge_data; [ apply HkG2 | exact Hp ].
  - split; [ reflexivity | exact HkG2 | | auto | intros u v data [] ].
    intros u v data Huv. exists data. split; [ exact Huv | reflexivity ].
Qed.

(** The coordinates that [estimate_length] reads are those of the
    document. *)
Lemma coordinates_of (osm : osm_parser.OSM) (G1 G2 : networkx.DiGraph)
  (u : string) (x y : Q) :
  (forall n,
     match dict_get n (networkx._node G1) with
     | Some data0 =>
         exists data, osm_parser.complete_node osm n data0 = Ok data /\
                      dict_get n (networkx._node G2) = Some data
     | None => dict_get n (networkx._node G2) = None
     end) ->
  coordinate G2 u (KStr "lon") x -> coordinate G2 u (KStr "lat") y ->
  exists n,
    dict_get u (osm_parser.OSM_nodes osm) = Some (osm_parser.NodeElem n) /\
    x = osm_parser.lon n /\ y = osm_parser.lat n.
Proof.
  intros Hnodes (vx & Hvx & Hx) (vy & Hvy & Hy). specialize (Hnodes u).
  unfold osm_parser.node_item, getitem in Hvx, Hvy.
  destruct (dict_get u (networkx._node G2)) as [ data | ] eqn:Hu;
    [ | discriminate ].
  simpl in Hvx, Hvy.
  destruct (dict_get u (networkx._node G1)) as [ data0 | ]; [ | congruence ].
  destruct Hnodes as (data' & Hc & Heq). injection Heq as <-.
  apply complete_node_of in Hc as (n & Hn & Hlat & Hlon & _).
  exists n. split; [ exact Hn | ].
  rewrite Hlon in Hvx. rewrite Hlat in Hvy. simpl in Hvx, Hvy.
  injection Hvx as <-. injection Hvy as <-. simpl in Hx, Hy.
  injection Hx as <-. injection Hy as <-. split; reflexivity.
Qed.

Lemma add_way_Raise (only_roads : bool) (G : networkx.DiGraph)
  (w : osm_parser.Way) (e : exn) :
  osm_parser.add_way only_roads G w = Raise e -> e = KeyError.
Proof.
  unfold osm_parser.add_way, osm_parser.add_way_path, osm_parser.way_attr, getitem.
  destruct (only_roads && negb (dict_mem "highway" (osm_parser.tags w)));
    [ discriminate | ].
  destruct (dict_mem "oneway" (osm_parser.tags w));
    destruct (dict_get "highway" (osm_parser.tags w)); simpl;
    try destruct (dict_get "oneway" (osm_parser.tags w)); simpl;
    try destruct (String.eqb _ "yes"); simpl;
    intros He; try discriminate; injection He as <-; reflexivity.
Qed.

Lemma add_way_no_highway (G : networkx.DiGraph) (w : osm_parser.Way) :
  dict_mem "highway" (osm_parser.tags w) = false ->
  osm_parser.add_way false G w = Raise KeyError.
Proof.
  intros Hhw.
  unfold osm_parser.add_way, osm_parser.add_way_path, osm_parser.way_attr, getitem.
  unfold dict_mem in *.
  destruct (dict_get "highway" (osm_parser.tags w)); [ discriminate | ]. simpl.
  destruct (dict_get "oneway" (osm_parser.tags w)); simpl; [ | reflexivity ].
  destruct (String.eqb _ "yes"); reflexivity.
Qed.

(** X21. With [only_roads = False], a way without a [highway] tag makes
    [read_osm] raise [KeyError]: the loop does not skip the way, and lines
    125 to 133 read [w.tags['highway']]. *)
Theorem read_osm_needs_highway (py_float : string -> result Q)
  (haversine : Q -> Q -> Q -> Q -> result Q) (events : list osm_parser.sax_event)
  (osm : osm_parser.OSM) (w : osm_parser.Way) :
  osm_parser.OSM_init py_float events = Ok osm ->
  In w (dict_values (osm_parser.OSM_ways osm)) ->
  dict_mem "highway" (osm_parser.tags w) = false ->
  osm_parser.read_osm py_float haversine events false = Raise KeyError.
Proof.
  intros Hosm Hw Hhw. unfold osm_parser.read_osm. rewrite Hosm. cbn [bind].
  assert (Hf : forall ways G,
            In w ways -> foldM (osm_parser.add_way false) ways G = Raise KeyError).
  { induction ways as [ | a ways IH ]; intros G Hin; [ destruct Hin | ].
    cbn [foldM].
    destruct (osm_parser.add_way false G a) as [ G1 | e ] eqn:Ha; cbn [bind].
    - destruct Hin as [ -> | Hin ]; [ | apply IH; exact Hin ].
      rewrite add_way_no_highway in Ha by exact Hhw. discriminate.
    - apply add_way_Raise in Ha as ->. reflexivity. }
  rewrite Hf by exact Hw. reflexivity.
Qed.

(** X21 on [two_roads], whose footpath has no [highway] tag. *)
Lemma read_osm_needs_highway_two_roads :
  osm_parser.read_osm small_float squared_distance two_roads false = Raise KeyError.
Proof.
  eapply (read_osm_needs_highway small_float squared_distance two_roads _
            {| osm_parser.id := "w3-0"; osm_parser.nds := ["n3"; "n4"];
               osm_parser.tags := [] |}).
  - vm_compute. reflexivity.
  - right. right. left. reflexivity.
  - reflexivity.
Defined.

(** X22. The edges of the graph that [read_osm] returns are the links of
    the roads of the document: there is an edge from [u] to [v] exactly
    when [v] comes next after [u] on a way with a [highway] tag, or [u]
    next after [v] on such a way that is not tagged [oneway = yes]. *)
Theorem read_osm_links (py_float : string -> result Q)
  (haversine : Q -> Q -> Q -> Q -> result Q) (events : list osm_parser.sax_event)
  (only_roads : bool) (G : networkx.DiGraph) :
  osm_parser.read_osm py_float haversine events only_roads = Ok G ->
  exists osm,
    osm_parser.OSM_init py_float events = Ok osm /\
    forall u v,
      networkx.get_edge_data G u v <> None <->
      exists w, In w (dict_values (osm_parser.OSM_ways osm)) /\ road_link w u v.
Proof.
  intros Hr.
  destruct (read_osm_Ok _ _ _ _ _ Hr)
    as (osm & G1 & G2 & Hosm & Hs & Hc & Hadj & Hnodes & Hl).
  exists osm. split; [ exact Hosm | ]. intros u v.
  assert (H12 : networkx.get_edge_data G2 u v = networkx.get_edge_data G1 u v).
  { unfold networkx.get_edge_data. rewrite Hadj. reflexivity. }
  destruct Hl as [Hn Hk Hdata Hedges Hlen]. split.
  - intros Hget.
    destruct (networkx.get_edge_data G u v) as [ data | ] eqn:Hd; [ | congruence ].
    destruct (Hdata u v data Hd) as (data0 & Hd0 & _). rewrite H12 in Hd0.
    destruct Hs as [_ _ Hew]. destruct (Hew u v data0 Hd0) as (w & Hw & Hlink & _).
    exists w. split; assumption.
  - intros (w & Hw & Hlink). apply Hedges. rewrite H12. apply (Hc w u v Hw Hlink).
Qed.

(** X22 on [two_roads]. *)
Lemma read_osm_links_two_roads :
  exists osm,
    osm_parser.OSM_init small_float two_roads = Ok osm /\
    forall u v,
      networkx.get_edge_data two_roads_graph u v <> None <->
      exists w, In w (dict_values (osm_parser.OSM_ways osm)) /\ road_link w u v.
Proof.
  apply (read_osm_links small_float squared_distance two_roads true).
  vm_compute. reflexivity.
Defined.

(** X23. Every edge of the graph that [read_osm] returns carries as its
    [length] what [haversine] makes of the coordinates its two end nodes
    have in the document, and the [id] and the [highway] class of a road
    that links them. *)
Theorem read_osm_edge_data (py_float : string -> result Q)
  (haversine : Q -> Q -> Q -> Q -> result Q) (events : list osm_parser.sax_event)
  (only_roads : bool) (G : networkx.DiGraph) :
  osm_parser.read_osm py_float haversine events only_roads = Ok G ->
  exists osm,
    osm_parser.OSM_init py_float events = Ok osm /\
    forall u v data,
      networkx.get_edge_data G u v = Some data ->
      (exists d, distance_between haversine osm u v d /\
                 dict_get (KStr "length") data = Some (VNum d)) /\
      (exists w, In w (dict_values (osm_parser.OSM_ways osm)) /\
                 road_link w u v /\ edge_of_way w data).
Proof.
  intros Hr.
  destruct (read_osm_Ok _ _ _ _ _ Hr)
    as (osm & G1 & G2 & Hosm & Hs & Hc & Hadj & Hnodes & Hl).
  exists osm. split; [ exact Hosm | ]. intros u v data Hd.
  destruct Hl as [Hn Hk Hdata Hedges Hlen].
  destruct (Hdata u v data Hd) as (data0 & Hd0 & Hsame). split.
  - destruct (Hlen u v data (get_edge_data_edges _ _ _ _ Hd0) Hd)
      as (d & (lon1 & lat1 & lon2 & lat2 & Hx1 & Hy1 & Hx2 & Hy2 & Hh) & Hlength).
    exists d. split; [ | exact Hlength ].
    destruct (coordinates_of osm G1 G2 u lon1 lat1 Hnodes Hx1 Hy1)
      as (n1 & Hn1 & -> & ->).
    destruct (coordinates_of osm G1 G2 v lon2 lat2 Hnodes Hx2 Hy2)
      as (n2 & Hn2 & -> & ->).
    exists n1, n2. split; [ exact Hn1 | split; [ exact Hn2 | exact Hh ] ].
  - assert (Hd1 : networkx.get_edge_data G1 u v = Some data0).
    { rewrite <- Hd0. unfold networkx.get_edge_data. rewrite Hadj. reflexivity. }
    destruct Hs as [_ _ Hew].
    destruct (Hew u v data0 Hd1) as (w & Hw & Hlink & (h & Hh & Hid & Hhw)).
    exists w. split; [ exact Hw | ]. split; [ exact Hlink | ].
    exists h. split; [ exact Hh | ].
    rewrite !Hsame by discriminate. split; assumption.
Qed.

(** X23 on [two_roads]. *)
Lemma read_osm_edge_data_two_roads :
  exists osm,
    osm_parser.OSM_init small_float two_roads = Ok osm /\
    forall u v data,
      networkx.get_edge_data two_roads_graph u v = Some data ->
      (exists d, distance_between squared_distance osm u v d /\
                 dict_get (KStr "length") data = Some (VNum d)) /\
      (exists w, In w (dict_values (osm_parser.OSM_ways osm)) /\
                 road_link w u v /\ edge_of_way w data).
Proof.
  apply (read_osm_edge_data small_float squared_distance two_roads true).
  vm_compute. reflexivity.
Defined.

(** X24. Every node of the graph that [read_osm] returns carries the
    latitude, the longitude and the id of the node of the document and
    is at one end of an edge; both ends of every edge are nodes of the
    graph. *)
Theorem read_osm_nodes (py_float : string -> result Q)
  (haversine : Q -> Q -> Q -> Q -> result Q) (events : list osm_parser.sax_event)
  (only_roads : bool) (G : networkx.DiGraph) :
  osm_parser.read_osm py_float haversine events only_roads = Ok G ->
  exists osm,
    osm_parser.OSM_init py_float events = Ok osm /\
    (forall n data,
       dict_get n (networkx._node G) = Some data ->
       node_of osm n data /\ on_edge G n) /\
    (forall u v,
       networkx.get_edge_data G u v <> None ->
       dict_mem u (networkx._node G) = true /\
       dict_mem v (networkx._node G) = true).
Proof.
  intros Hr.
  destruct (read_osm_Ok _ _ _ _ _ Hr)
    as (osm & G1 & G2 & Hosm & Hs & Hc & Hadj & Hnodes & Hl).
  exists osm. split; [ exact Hosm | ].
  destruct Hl as [Hn Hk Hdata Hedges Hlen]. split.
  - intros n data Hdn. rewrite Hn in Hdn. pose proof (Hnodes n) as Hnn.
    destruct (dict_get n (networkx._node G1)) as [ data0 | ] eqn:Hn1;
      [ | congruence ].
    destruct Hnn as (data' & Hcn & Heq).
    assert (data' = data) as -> by congruence.
    split; [ eapply complete_node_of; exact Hcn | ].
    destruct Hs as [_ Hon _].
    destruct (Hon n) as (v & Hv); [ unfold dict_mem; rewrite Hn1; reflexivity | ].
    exists v.
    destruct Hv as [ Hv | Hv ]; [ left | right ]; apply Hedges;
      unfold networkx.get_edge_data in *; rewrite Hadj; exact Hv.
  - intros u v Huv.
    destruct (networkx.get_edge_data G u v) as [ data | ] eqn:Hd; [ | congruence ].
    destruct (Hdata u v data Hd) as (data0 & Hd0 & _).
    destruct (Hlen u v data (get_edge_data_edges _ _ _ _ Hd0) Hd)
      as (d & (lon1 & lat1 & lon2 & lat2 & (x1 & Hx1 & _) & _ & (x2 & Hx2 & _) & _) & _).
    rewrite Hn. split; eapply node_item_mem; eassumption.
Qed.

(** X24 on [two_roads]: node n4, which only the footpath uses, is left
    out. *)
Lemma read_osm_nodes_two_roads :
  exists osm,
    osm_parser.OSM_init small_float two_roads = Ok osm /\
    (forall n data,
       dict_get n (networkx._node two_roads_graph) = Some data ->
       node_of osm n data /\ on_edge two_roads_graph n) /\
    (forall u v,
       networkx.get_edge_data two_roads_graph u v <> None ->
       dict_mem u (networkx._node two_roads_graph) = true /\
       dict_mem v (networkx._node two_roads_graph) = true).
Proof.
  apply (read_osm_nodes small_float squared_distance two_roads true).
  vm_compute. reflexivity.
Defined.

(** ** The handler on the elements of a document *)

Lemma foldM_app {A S : Type} (f : S -> A -> result S) (l l' : list A) (s : S) :
  foldM f (l ++ l') s = (s' <- foldM f l s ;; foldM f l' s').
Proof.
  revert s. induction l as [ | a l IH ]; intros s; simpl; [ reflexivity | ].
  destruct (f s a) as [ s1 | e ]; simpl; [ apply IH | reflexivity ].
Qed.

Lemma object_at_last (objs : list osm_parser.element) (e : osm_parser.element) :
  osm_parser.object_at (objs ++ [e]) (length objs) = Ok e.
Proof.
  unfold osm_parser.object_at. rewrite nth_error_app2 by lia.
  rewrite Nat.sub_diag. reflexivity.
Qed.

Lemma object_set_last (objs : list osm_parser.element) (e e' : osm_parser.element) :
  osm_parser.object_set (length objs) e' (objs ++ [e]) = objs ++ [e'].
Proof.
  induction objs as [ | x objs IH ]; simpl; [ reflexivity | ].
  rewrite IH. reflexivity.
Qed.

(** The [tag] children of an element write into its object. *)
Lemma tag_events_run (py_float : string -> result Q)
  (tags : list (string * string)) (rest : list osm_parser.sax_event)
  (objs : list osm_parser.element) (nodes ways : dict string nat) :
  forall e,
    foldM (handle py_float) (tag_events tags ++ rest)
      {| osm_parser.objects := objs ++ [e];
         osm_parser.currElem := Some (length objs);
         osm_parser.nodes := nodes; osm_parser.ways := ways |}
    = foldM (handle py_float) rest
        {| osm_parser.objects := objs ++ [with_tags tags e];
           osm_parser.currElem := Some (length objs);
           osm_parser.nodes := nodes; osm_parser.ways := ways |}.
Proof.
  induction tags as [ | [k v] tags IH ]; intros e; [ reflexivity | ].
  cbn [tag_events flat_map app foldM handle fst snd].
  unfold osm_parser.startElement at 1. cbn [String.eqb Ascii.eqb Bool.eqb].
  replace (getitem [("k", k); ("v", v)] "v") with (Ok v) by reflexivity.
  replace (getitem [("k", k); ("v", v)] "k") with (Ok k) by reflexivity.
  cbn [bind of_option osm_parser.currElem osm_parser.objects
       osm_parser.nodes osm_parser.ways].
  rewrite object_at_last. cbn [bind]. rewrite object_set_last.
  unfold osm_parser.endElement at 1. cbn [String.eqb Ascii.eqb Bool.eqb bind].
  apply (IH (osm_parser.set_tag k v e)).
Qed.

(** The [nd] children of a way add their references to it. *)
Lemma nd_events_run (py_float : string -> result Q)
  (refs : list string) (rest : list osm_parser.sax_event)
  (objs : list osm_parser.element) (nodes ways : dict string nat)
  (i : string) (tags : dict string string) :
  forall nds,
    foldM (handle py_float) (nd_events refs ++ rest)
      {| osm_parser.objects :=
           objs ++ [osm_parser.WayElem
                      {| osm_parser.id := i; osm_parser.nds := nds;
                         osm_parser.tags := tags |}];
         osm_parser.currElem := Some (length objs);
         osm_parser.nodes := nodes; osm_parser.ways := ways |}
    = foldM (handle py_float) rest
        {| osm_parser.objects :=
             objs ++ [osm_parser.WayElem
                        {| osm_parser.id := i; osm_parser.nds := nds ++ refs;
                           osm_parser.tags := tags |}];
           osm_parser.currElem := Some (length objs);
           osm_parser.nodes := nodes; osm_parser.ways := ways |}.
Proof.
  induction refs as [ | r refs IH ]; intros nds;
    [ rewrite app_nil_r; reflexivity | ].
  cbn [nd_events flat_map app foldM handle].
  unfold osm_parser.startElement at 1. cbn [String.eqb Ascii.eqb Bool.eqb].
  cbn [bind of_option osm_parser.currElem osm_parser.objects
       osm_parser.nodes osm_parser.ways].
  rewrite object_at_last. cbn [bind].
  replace (getitem [("ref", r)] "ref") with (Ok r) by reflexivity.
  cbn [bind osm_parser.id osm_parser.nds osm_parser.tags].
  rewrite object_set_last.
  unfold osm_parser.endElement at 1. cbn [String.eqb Ascii.eqb Bool.eqb bind].
  etransitivity; [ apply (IH (nds ++ [r])) | ].
  rewrite <- app_assoc. reflexivity.
Qed.

Lemma with_tags_node (tags : list (string * string)) :
  forall n,
    with_tags tags (osm_parser.NodeElem n)
    = osm_parser.NodeElem
        {| osm_parser.Node_id := osm_parser.Node_id n;
           osm_parser.lon := osm_parser.lon n; osm_parser.lat := osm_parser.lat n;
           osm_parser.Node_tags := dict_update (osm_parser.Node_tags n) tags |}.
Proof.
  unfold with_tags, dict_update.
  induction tags as [ | [k v] tags IH ]; intros n; simpl; [ destruct n; reflexivity | ].
  rewrite IH. reflexivity.
Qed.

Lemma with_tags_way (tags : list (string * string)) :
  forall w,
    with_tags tags (osm_parser.WayElem w)
    = osm_parser.WayElem
        {| osm_parser.id := osm_parser.id w; osm_parser.nds := osm_parser.nds w;
           osm_parser.tags := dict_update (osm_parser.tags w) tags |}.
Proof.
  unfold with_tags, dict_update.
  induction tags as [ | [k v] tags IH ]; intros w; simpl; [ destruct w; reflexivity | ].
  rewrite IH. reflexivity.
Qed.

(** The events of an element do what taking it in as a whole does. *)
Lemma item_events_run (py_float : string -> result Q) (it : item)
  (rest : list osm_parser.sax_event) (h : osm_parser.handler) :
  foldM (handle py_float) (item_events it ++ rest) h
  = (h' <- load_item py_float h it ;; foldM (handle py_float) rest h').
Proof.
  destruct h as [objs cur nodes ways].
  destruct it as [ i lon lat tags | i refs tags ]; unfold load_item, item_element.
  - cbn [item_events app foldM handle].
    unfold osm_parser.startElement at 1. cbn [String.eqb Ascii.eqb Bool.eqb].
    replace (getitem [("id", i); ("lon", lon); ("lat", lat)] "id") with (Ok i)
      by reflexivity.
    replace (getitem [("id", i); ("lon", lon); ("lat", lat)] "lon") with (Ok lon)
      by reflexivity.
    replace (getitem [("id", i); ("lon", lon); ("lat", lat)] "lat") with (Ok lat)
      by reflexivity.
    cbn [bind]. destruct (py_float lon) as [ x | e ]; [ | reflexivity ]. cbn [bind].
    destruct (py_float lat) as [ y | e ]; [ | reflexivity ].
    cbn [bind osm_parser.objects osm_parser.nodes osm_parser.ways].
    rewrite <- app_assoc, tag_events_run.
    cbn [app foldM handle]. unfold osm_parser.endElement at 1.
    cbn [String.eqb Ascii.eqb Bool.eqb bind of_option osm_parser.currElem
         osm_parser.objects osm_parser.nodes osm_parser.ways].
    rewrite object_at_last. cbn [bind]. rewrite with_tags_node. reflexivity.
  - cbn [item_events app foldM handle].
    unfold osm_parser.startElement at 1. cbn [String.eqb Ascii.eqb Bool.eqb].
    replace (getitem [("id", i)] "id") with (Ok i) by reflexivity.
    cbn [bind osm_parser.objects osm_parser.nodes osm_parser.ways].
    rewrite <- !app_assoc, nd_events_run, tag_events_run.
    cbn [app foldM handle]. unfold osm_parser.endElement at 1.
    cbn [String.eqb Ascii.eqb Bool.eqb bind of_option osm_parser.currElem
         osm_parser.objects osm_parser.nodes osm_parser.ways].
    rewrite object_at_last. cbn [bind]. rewrite with_tags_way. reflexivity.
Qed.

(** X25. On the events of a document of nodes and ways, the handler
    builds one object for each element, in the order of the document: a
    node with the coordinates [float] reads, a way with its references in
    the order of its [nd] children, either with the tags of its [tag]
    children; the id of the element refers to the object, and a later
    element of the same id replaces the reference. The first coordinate
    that [float] rejects ends the parse with its exception. *)
Theorem parse_document (py_float : string -> result Q) (doc : list item) :
  osm_parser.parse py_float (document_events doc)
  = foldM (load_item py_float) doc
      {| osm_parser.objects := []; osm_parser.currElem := None;
         osm_parser.nodes := []; osm_parser.ways := [] |}.
Proof.
  change (osm_parser.parse py_float (document_events doc))
    with (foldM (handle py_float) (document_events doc)
            {| osm_parser.objects := []; osm_parser.currElem := None;
               osm_parser.nodes := []; osm_parser.ways := [] |}).
  generalize {| osm_parser.objects := []; osm_parser.currElem := None;
                osm_parser.nodes := []; osm_parser.ways := [] |}.
  induction doc as [ | it doc IH ]; intros h; [ reflexivity | ].
  cbn [document_events flat_map foldM]. rewrite item_events_run.
  destruct (load_item py_float h it) as [ h' | e ]; [ | reflexivity ].
  cbn [bind]. apply IH.
Qed.
